(** * The TSE volume screener ([src/app.py]) as Rocq functions

    The script reads a list of ticker codes, downloads daily bars for each
    of them, filters every series through a chain of volume and price
    guards, and shows the surviving rows ranked by their volume ratios.

    Conventions of the embedding:
    - a Python [str] is the list of its Unicode code points ([N]);
    - a Python or NumPy [float] is a primitive binary64 float, so NaN,
      the infinities and the comparisons behave as they do in the script;
    - a pandas column is a list, a frame a list of labelled columns;
    - statements that can raise or [continue] live in the small monad
      [res]; every [continue] carries the guard that fired. *)

From Stdlib Require Import ZArith NArith List Floats Lia Bool.
From Stdlib Require Import Sorting.Sorted Sorting.Permutation.
From Stdlib Require Strings.String Strings.Ascii.
Import ListNotations.
Import String.StringSyntax.
Delimit Scope string_scope with string.

Local Open Scope Z_scope.

(** ** Python strings *)

Module PyStr.

Definition str := list N.

(** ASCII literals of the script, as code points. *)
Definition of_string (s : String.string) : str :=
  map Ascii.N_of_ascii (String.list_ascii_of_string s).
Arguments of_string s%_string.

(** Code points [str.strip] removes (Python's Unicode whitespace). *)
Definition isspace (c : N) : bool :=
  ((9 <=? c) && (c <=? 13) || (28 <=? c) && (c <=? 32)
   || (c =? 133) || (c =? 160) || (c =? 5760)
   || (8192 <=? c) && (c <=? 8202)
   || (c =? 8232) || (c =? 8233) || (c =? 8239) || (c =? 8287)
   || (c =? 12288))%N.

(** Line boundaries of [str.splitlines]. *)
Definition is_linebreak (c : N) : bool :=
  ((10 <=? c) && (c <=? 13) || (28 <=? c) && (c <=? 30)
   || (c =? 133) || (c =? 8232) || (c =? 8233))%N.

Fixpoint lstrip (s : str) : str :=
  match s with
  | c :: rest => if isspace c then lstrip rest else s
  | [] => []
  end.

Definition rstrip (s : str) : str := rev (lstrip (rev s)).

Definition strip (s : str) : str := rstrip (lstrip s).

(** [s.replace(old, new)] for one-character [old] and [new]. *)
Definition replace_char (old new : N) (s : str) : str :=
  map (fun c => if (c =? old)%N then new else c) s.

(** [s.splitlines()]: [cur] is the line being read, reversed.  A carriage
    return directly followed by a line feed is one boundary; a boundary at
    the very end opens no further line. *)
Fixpoint splitlines_from (cur : str) (s : str) : list str :=
  match s with
  | [] => match cur with [] => [] | _ => [rev cur] end
  | c :: rest =>
      if is_linebreak c then
        rev cur ::
          (if (c =? 13)%N then
             match rest with
             | c' :: rest' =>
                 if (c' =? 10)%N then splitlines_from [] rest'
                 else splitlines_from [] rest
             | [] => splitlines_from [] rest
             end
           else splitlines_from [] rest)
      else splitlines_from (c :: cur) rest
  end.

Definition splitlines (s : str) : list str := splitlines_from [] s.

(** Comparison of strings: code point by code point, a proper prefix
    first. *)
Fixpoint compare (a b : str) : comparison :=
  match a, b with
  | [], [] => Eq
  | [], _ :: _ => Lt
  | _ :: _, [] => Gt
  | x :: a', y :: b' =>
      match (x ?= y)%N with
      | Eq => compare a' b'
      | c => c
      end
  end.

Definition eqb (a b : str) : bool :=
  match compare a b with Eq => true | _ => false end.

Definition ltb (a b : str) : bool :=
  match compare a b with Lt => true | _ => false end.

Definition lt (a b : str) : Prop := compare a b = Lt.

(** [sorted(set(l))]: every distinct element once, in increasing order. *)
Fixpoint insert (x : str) (l : list str) : list str :=
  match l with
  | [] => [x]
  | y :: l' =>
      match compare x y with
      | Lt => x :: l
      | Eq => l
      | Gt => y :: insert x l'
      end
  end.

Definition sorted_set (l : list str) : list str := fold_right insert [] l.

Fixpoint startswith (s p : str) : bool :=
  match p, s with
  | [], _ => true
  | _ :: _, [] => false
  | x :: p', y :: s' => (x =? y)%N && startswith s' p'
  end.

(** [s.replace(old, new)] for a non-empty [old]: occurrences are replaced
    from the left and do not overlap; [skip] counts the code points of the
    occurrence just replaced that are still to be passed over. *)
Fixpoint replace_from (old new : str) (skip : nat) (s : str) : str :=
  match s with
  | [] => []
  | c :: rest =>
      match skip with
      | S k => replace_from old new k rest
      | O =>
          if startswith s old
          then new ++ replace_from old new (Nat.pred (length old)) rest
          else c :: replace_from old new O rest
      end
  end.

Definition replace (old new s : str) : str := replace_from old new O s.

End PyStr.

Definition str : Type := PyStr.str.

(** ** The code parser (lines 48-61) *)

Section CodeParser.

(** [isdigit_cp c] tells whether [str.isdigit] accepts the code point [c]:
    the digit classes of the Unicode character database, which Python
    ships and the repository does not. *)
Variable isdigit_cp : N -> bool.

(** [r.isdigit()]: every character is a digit and there is at least one. *)
Definition isdigit (r : str) : bool :=
  negb (Nat.eqb (length r) 0) && forallb isdigit_cp r.

Definition suffix_T : str := PyStr.of_string ".T".

(** The body of the loop over [raw]: [codes] is the list built so far. *)
Definition parse_step (codes : list str) (r : str) : list str :=
  let r := PyStr.strip r in
  match r with
  | [] => codes
  | _ =>
      if isdigit r && Nat.eqb (length r) 4
      then codes ++ [r ++ suffix_T]
      else codes ++ [r]
  end.

Definition parse_codes (text : str) : list str :=
  let raw := PyStr.splitlines (PyStr.replace_char 44 10 text) in
  let codes := fold_left parse_step raw [] in
  PyStr.sorted_set codes.

End CodeParser.

(** The digit table restricted to Basic Latin, for running the parser. *)
Definition ascii_digit (c : N) : bool := ((48 <=? c) && (c <=? 57))%N.


(** ** Exceptions, [continue] and floats *)

Inductive exn :=
| KeyError | IndexError | TypeError | ValueError | OverflowError
| ZeroDivisionError | AttributeError
| StreamlitError.   (* raised inside a widget that is handed the table *)

(** The guards of the evaluation loop, in the order of the script. *)
Inductive skip :=
| ShortHistory        (* line 126 *)
| UndefinedChange     (* line 136 *)
| ChangeTooHigh       (* line 140 *)
| UndefinedAverage    (* line 148 *)
| BelowLiquidity      (* line 151 *)
| LowRecentRatio      (* line 155 *)
| UndefinedSpikeBase  (* line 163 *)
| LowSpikeRatio       (* line 167 *)
| NoContinuity.       (* line 172 *)

(** The outcome of a statement: a value, a [continue] out of the loop body,
    or an exception. *)
Inductive res (A : Type) :=
| Ret (a : A)
| Continue (g : skip)
| Raise (e : exn).
Arguments Ret {A} a.
Arguments Continue {A} g.
Arguments Raise {A} e.

Definition bind {A B : Type} (m : res A) (k : A -> res B) : res B :=
  match m with
  | Ret a => k a
  | Continue g => Continue g
  | Raise e => Raise e
  end.

Notation "x <- m ;; k" := (bind m (fun x => k))
  (at level 61, m at next level, right associativity).

(** [if c: continue] *)
Definition continue_if (c : bool) (g : skip) : res unit :=
  if c then Continue g else Ret tt.

Module PyFloat.

Local Open Scope float_scope.

(** [float(z)] for a Python int: the nearest binary64 number. *)
Definition of_int (z : Z) : float := SF2Prim (binary_normalize prec emax z 0 false).

(** [int(x)]: truncation towards zero; NaN and the infinities raise. *)
Definition to_int (x : float) : res Z :=
  match Prim2SF x with
  | S754_nan => Raise ValueError
  | S754_infinity _ => Raise OverflowError
  | S754_zero _ => Ret 0%Z
  | S754_finite s m e =>
      let v := (if 0 <=? e then Zpos m * 2 ^ e else Zpos m / 2 ^ (- e))%Z in
      Ret (if s then (- v)%Z else v)
  end.

(** [x / y] on Python floats: a zero divisor raises. *)
Definition truediv (x y : float) : res float :=
  if y =? 0 then Raise ZeroDivisionError else Ret (x / y).

(** [pd.isna] on a scalar float. *)
Definition isna (x : float) : bool := is_nan x.

End PyFloat.

(** ** pandas: series and frames *)

Module Pandas.

Local Open Scope float_scope.

Section Series.
Context {A : Type}.

(** [s.tail(n)]: the last [n] entries; for a negative [n], all but the
    first [-n]. *)
Definition tail (n : Z) (s : list A) : list A :=
  if (n =? 0)%Z then []
  else if (0 <? n)%Z then skipn (length s - Z.to_nat n) s
  else skipn (Z.to_nat (- n)) s.

(** [s.head(n)]: the first [n] entries; for a negative [n], all but the
    last [-n]. *)
Definition head (n : Z) (s : list A) : list A :=
  if (0 <=? n)%Z then firstn (Z.to_nat n) s
  else firstn (length s - Z.to_nat (- n)) s.

(** [s.iloc[i]]: a negative position counts from the end. *)
Definition iloc (s : list A) (i : Z) : res A :=
  let n := Z.of_nat (length s) in
  let j := (if i <? 0 then n + i else i)%Z in
  if ((j <? 0) || (n <=? j))%Z then Raise IndexError
  else match nth_error s (Z.to_nat j) with
       | Some a => Ret a
       | None => Raise IndexError
       end.

End Series.

(** [values.sum()] on a one-dimensional array of floats: NumPy's
    [add.reduce], which sums pairwise ([pairwise_sum] in NumPy's
    [loops_utils.h.src]).  Fewer than eight entries are added one after
    the other.  Up to 128 entries are added into eight running sums, entry
    [i] into sum [i mod 8] as long as eight entries are left; the eight
    sums are then added in pairs and the entries left over added to the
    result one after the other.  A longer array is cut in two near its
    middle, at a multiple of eight, and the sums of the two parts are
    added. *)
Definition add_each (r x : list float) : list float :=
  map (fun '(a, b) => a + b) (combine r x).

(** [k] rounds of the unrolled loop on the running sums [r]. *)
Fixpoint accumulate (k : nat) (r s : list float) : list float * list float :=
  match k with
  | O => (r, s)
  | S k' => accumulate k' (add_each r (firstn 8 s)) (skipn 8 s)
  end.

Definition block_sum (s : list float) : float :=
  let '(r, rest) :=
    accumulate (length s / 8 - 1)%nat (firstn 8 s) (skipn 8 s) in
  let r_ i := nth i r 0 in
  fold_left add rest
    (((r_ 0%nat + r_ 1%nat) + (r_ 2%nat + r_ 3%nat))
     + ((r_ 4%nat + r_ 5%nat) + (r_ 6%nat + r_ 7%nat))).

(** [fuel] bounds the depth of the cuts; the length of the array is
    enough ([SumFacts.pairwise_sum_fuel]). *)
Fixpoint pairwise_sum_from (fuel : nat) (s : list float) : float :=
  let n := length s in
  if (n <? 8)%nat then fold_left add s neg_zero
  else if (n <=? 128)%nat then block_sum s
  else
    match fuel with
    | O => block_sum s
    | S fuel' =>
        let n2 := (n / 2 - (n / 2) mod 8)%nat in
        pairwise_sum_from fuel' (firstn n2 s)
        + pairwise_sum_from fuel' (skipn n2 s)
    end.

Definition pairwise_sum (s : list float) : float :=
  pairwise_sum_from (length s) s.

(** The reduction starts from the neutral element [-0.0] (NumPy versions
    that start from [0.0] differ in the sign of a zero sum only); the sum
    of no entry is [0.0]. *)
Definition sum (s : list float) : float :=
  match s with
  | [] => 0
  | _ => neg_zero + pairwise_sum s
  end.

(** [s.mean()] with pandas' default [skipna=True] ([nanops.nanmean],
    without the optional bottleneck package): the missing entries are
    replaced by zero, the array is summed, and the sum is divided by the
    number of entries that are not missing; NaN when there is none. *)
Definition mean (s : list float) : float :=
  let count := length (filter (fun x => negb (is_nan x)) s) in
  match count with
  | O => nan
  | _ => sum (map (fun x => if is_nan x then 0 else x) s)
         / PyFloat.of_int (Z.of_nat count)
  end.

(** A cell is a timestamp (missing: NaT) or a float (missing: NaN). *)
Inductive cell :=
| CDate (d : option Z)
| CNum (x : float).

Inductive column :=
| DateCol (ds : list (option Z))
| NumCol (xs : list float).

Definition frame := list (str * column).

Definition col_len (c : column) : nat :=
  match c with
  | DateCol ds => length ds
  | NumCol xs => length xs
  end.

Definition col_cells (c : column) : list cell :=
  match c with
  | DateCol ds => map CDate ds
  | NumCol xs => map CNum xs
  end.

Definition cell_isna (v : cell) : bool :=
  match v with
  | CDate None => true
  | CDate (Some _) => false
  | CNum x => is_nan x
  end.

(** Is the entry of [c] at position [i] missing?  A position past the end
    of the column holds nothing. *)
Definition col_isna_at (c : column) (i : nat) : bool :=
  match nth_error (col_cells c) i with
  | Some v => cell_isna v
  | None => true
  end.

(** The rows of [c] at the positions [keep], in that order. *)
Definition col_take (keep : list nat) (c : column) : column :=
  match c with
  | DateCol ds => DateCol (map (fun i => nth i ds None) keep)
  | NumCol xs => NumCol (map (fun i => nth i xs nan) keep)
  end.

(** [pd.DataFrame()] *)
Definition empty_frame : frame := [].

Definition columns (df : frame) : list str := map fst df.

(** [len(df)] *)
Definition nrows (df : frame) : nat :=
  match df with
  | [] => O
  | (_, c) :: _ => col_len c
  end.

(** [df.empty]: no column or no row. *)
Definition empty (df : frame) : bool :=
  match df with
  | [] => true
  | _ => Nat.eqb (nrows df) 0
  end.

(** [c in df.columns] *)
Definition has_column (c : str) (df : frame) : bool :=
  existsb (PyStr.eqb c) (columns df).

(** [df[c]]; the labels of a frame are taken to be distinct, as the
    provider's are, so the first column with the label is the column. *)
Fixpoint getitem (df : frame) (c : str) : res column :=
  match df with
  | [] => Raise KeyError
  | (l, col) :: df' => if PyStr.eqb c l then Ret col else getitem df' c
  end.

(** [df[cols]] *)
Fixpoint select (df : frame) (cols : list str) : res frame :=
  match cols with
  | [] => Ret []
  | c :: cols' =>
      col <- getitem df c ;;
      rest <- select df cols' ;;
      Ret ((c, col) :: rest)
  end.

(** [df.rename(columns={old: new})] *)
Definition rename (old new : str) (df : frame) : frame :=
  map (fun '(l, c) => (if PyStr.eqb l old then new else l, c)) df.

(** The positions of the rows in which no column has a missing entry. *)
Definition complete_rows (df : frame) : list nat :=
  filter (fun i => negb (existsb (fun lc => col_isna_at (snd lc) i) df))
         (seq 0 (nrows df)).

(** [df.dropna()] *)
Definition dropna (df : frame) : frame :=
  let keep := complete_rows df in
  map (fun '(l, c) => (l, col_take keep c)) df.

(** [float(v)] on a cell *)
Definition float_of (v : cell) : res float :=
  match v with
  | CNum x => Ret x
  | CDate _ => Raise TypeError
  end.

(** [v.date()] on a cell *)
Definition date_of (v : cell) : res (option Z) :=
  match v with
  | CDate d => Ret d
  | CNum _ => Raise AttributeError
  end.

(** [col.astype(float)] *)
Definition astype_float (c : column) : res (list float) :=
  match c with
  | NumCol xs => Ret xs
  | DateCol _ => Raise TypeError
  end.

End Pandas.

(** ** The history fetcher (lines 64-93) *)

(** What [yf.download] hands back: a table indexed by date.  The label of
    the index and the labels of the data columns are the provider's. *)
Record provider_frame := {
  index_name : option str;
  index : list (option Z);
  data : list (str * list float)
}.

Definition provider_empty (p : provider_frame) : bool :=
  Nat.eqb (length (index p)) 0 || Nat.eqb (length (data p)) 0.

Definition label_Date : str := PyStr.of_string "Date".
Definition label_Open : str := PyStr.of_string "Open".
Definition label_Close : str := PyStr.of_string "Close".
Definition label_Volume : str := PyStr.of_string "Volume".

(** The data columns of the provider's table. *)
Definition data_columns (p : provider_frame) : Pandas.frame :=
  map (fun '(l, xs) => (l, Pandas.NumCol xs)) (data p).

(** The label [reset_index] gives the column of the index: the name of
    the index, or ["index"] (["level_0"] when that is taken) if it has
    none. *)
Definition index_label (p : provider_frame) : str :=
  match index_name p with
  | Some n => n
  | None =>
      if Pandas.has_column (PyStr.of_string "index") (data_columns p)
      then PyStr.of_string "level_0"
      else PyStr.of_string "index"
  end.

(** [df.reset_index()]: the index becomes the first column under its
    label; pandas refuses to insert a column whose label the table has
    already ("cannot insert ..., already exists"). *)
Definition reset_index (p : provider_frame) : res Pandas.frame :=
  if Pandas.has_column (index_label p) (data_columns p)
  then Raise ValueError
  else Ret ((index_label p, Pandas.DateCol (index p)) :: data_columns p).

Definition keep_cols : list str :=
  [label_Date; label_Open; label_Close; label_Volume].

(** Lines 83-84: without a column labelled [Date], the first column is
    renamed to it. *)
Definition name_date (df : Pandas.frame) : Pandas.frame :=
  if negb (Pandas.has_column label_Date df)
  then match Pandas.columns df with
       | first :: _ => Pandas.rename first label_Date df
       | [] => df
       end
  else df.

(** Lines 82-84 on a table [reset_index] accepts: the frame whose columns
    line 88 inspects. *)
Definition normalize_columns (p : provider_frame) : Pandas.frame :=
  name_date ((index_label p, Pandas.DateCol (index p)) :: data_columns p).

(** [download t period] is what [yf.download] hands back for ticker [t]
    and the [period] days that end today (daily bars, unadjusted); [None]
    is Python's [None].  The memoisation by [st.cache_data] is left out:
    within a run every ticker is asked for once. *)
Definition fetch_ohlcv (download : str -> Z -> option provider_frame)
    (ticker : str) (period_days : Z) : res Pandas.frame :=
  match download ticker period_days with
  | None => Ret Pandas.empty_frame
  | Some p =>
      if provider_empty p then Ret Pandas.empty_frame
      else
        df <- reset_index p ;;
        let df := name_date df in
        if forallb (fun c => Pandas.has_column c df) keep_cols
        then
          df' <- Pandas.select df keep_cols ;;
          Ret (Pandas.dropna df')
        else Ret Pandas.empty_frame
  end.

(** [safe_pct_change] (lines 96-99) *)
Definition safe_pct_change (today_close prev_close : float) : res float :=
  if (prev_close <=? 0)%float then Ret nan
  else
    q <- PyFloat.truediv (today_close - prev_close)%float prev_close ;;
    Ret (q * 100)%float.

(** ** The settings of the sidebar (lines 14-42) *)

Record config := {
  lookback_days : Z;
  recent_days : Z;
  base_days : Z;
  min_recent_ratio : float;
  spike_days : Z;
  min_spike : float;
  max_day_change : Z;
  min_base_avg_vol : Z;
  top_n : Z
}.

(** The ranges the widgets allow. *)
Definition valid_config (cfg : config) : Prop :=
  60 <= lookback_days cfg <= 260 /\
  3 <= recent_days cfg <= 10 /\
  10 <= base_days cfg <= 60 /\
  (1 <=? min_recent_ratio cfg)%float = true /\
  (min_recent_ratio cfg <=? 5)%float = true /\
  10 <= spike_days cfg <= 60 /\
  (1 <=? min_spike cfg)%float = true /\
  (min_spike cfg <=? 10)%float = true /\
  1 <= max_day_change cfg <= 15 /\
  0 <= min_base_avg_vol cfg /\
  10 <= top_n cfg <= 200.

(** ** The signal evaluator (lines 120-186) *)

(** One row of the result table.  The keys of the script's dict are, in
    this order: Ticker, Code, 最終日, 終値, 当日騰落率(%), 当日出来高,
    当日出来高倍率, 直近平均出来高, 比較平均出来高, 直近/比較倍率. *)
Record row := {
  Ticker : str;
  Code : str;
  last_date : option Z;
  close : float;
  day_change_pct : float;
  today_volume : Z;
  today_ratio : float;
  recent_avg_volume : Z;
  base_avg_volume : Z;
  recent_ratio : float
}.

(** Line 120 *)
Definition min_bars (cfg : config) : Z :=
  Z.max (Z.max (recent_days cfg + base_days cfg + 5) (spike_days cfg + 5))
        (base_days cfg + 10).

(** Lines 144-146 and 160-161, on the volume series. *)
Definition recent_avg (cfg : config) (vol : list float) : float :=
  Pandas.mean (Pandas.tail (recent_days cfg) vol).

Definition base_window (cfg : config) (vol : list float) : list float :=
  Pandas.head (base_days cfg) (Pandas.tail (recent_days cfg + base_days cfg) vol).

Definition base_avg (cfg : config) (vol : list float) : float :=
  Pandas.mean (base_window cfg vol).

Definition spike_base_window (cfg : config) (vol : list float) : list float :=
  Pandas.head (spike_days cfg) (Pandas.tail (spike_days cfg + 1) vol).

Definition spike_base (cfg : config) (vol : list float) : float :=
  Pandas.mean (spike_base_window cfg vol).

(** The body of the loop from line 126 on, for ticker [t] and its frame. *)
Definition evaluate (cfg : config) (t : str) (df : Pandas.frame) : res row :=
  _ <- continue_if (Pandas.empty df || (Z.of_nat (Pandas.nrows df) <? min_bars cfg))
         ShortHistory ;;
  volume <- Pandas.getitem df label_Volume ;;
  vol <- Pandas.astype_float volume ;;
  closes <- Pandas.getitem df label_Close ;;
  c1 <- Pandas.iloc (Pandas.col_cells closes) (-1) ;;
  today_close <- Pandas.float_of c1 ;;
  closes' <- Pandas.getitem df label_Close ;;
  c2 <- Pandas.iloc (Pandas.col_cells closes') (-2) ;;
  prev_close <- Pandas.float_of c2 ;;
  pct <- safe_pct_change today_close prev_close ;;
  _ <- continue_if (PyFloat.isna pct) UndefinedChange ;;
  _ <- continue_if (PyFloat.of_int (max_day_change cfg) <? pct)%float ChangeTooHigh ;;
  let recent := recent_avg cfg vol in
  let base := base_avg cfg vol in
  _ <- continue_if (PyFloat.isna recent || PyFloat.isna base || (base <=? 0)%float)
         UndefinedAverage ;;
  _ <- continue_if (base <? PyFloat.of_int (min_base_avg_vol cfg))%float
         BelowLiquidity ;;
  let ratio := (recent / base)%float in
  _ <- continue_if (ratio <? min_recent_ratio cfg)%float LowRecentRatio ;;
  today_vol <- Pandas.iloc vol (-1) ;;
  let spike := spike_base cfg vol in
  _ <- continue_if (PyFloat.isna spike || (spike <=? 0)%float) UndefinedSpikeBase ;;
  let today := (today_vol / spike)%float in
  _ <- continue_if (today <? min_spike cfg)%float LowSpikeRatio ;;
  prev_vol <- Pandas.iloc vol (-2) ;;
  _ <- continue_if (prev_vol <? spike)%float NoContinuity ;;
  dates <- Pandas.getitem df label_Date ;;
  d <- Pandas.iloc (Pandas.col_cells dates) (-1) ;;
  last <- Pandas.date_of d ;;
  today_int <- PyFloat.to_int today_vol ;;
  recent_int <- PyFloat.to_int recent ;;
  base_int <- PyFloat.to_int base ;;
  Ret {| Ticker := t;
         Code := PyStr.replace suffix_T [] t;
         last_date := last;
         close := today_close;
         day_change_pct := pct;
         today_volume := today_int;
         today_ratio := today;
         recent_avg_volume := recent_int;
         base_avg_volume := base_int;
         recent_ratio := ratio |}.

(** ** The ranker (line 195) *)

(** The place of one key in a descending column: larger values first, NaN
    at the end.  [Lt] reads "[x] comes before [y]". *)
Definition desc_compare (x y : float) : comparison :=
  match is_nan x, is_nan y with
  | true, true => Eq
  | true, false => Gt
  | false, true => Lt
  | false, false =>
      if (y <? x)%float then Lt else if (x <? y)%float then Gt else Eq
  end.

(** The two sort keys, the first one deciding. *)
Definition row_compare (a b : row) : comparison :=
  match desc_compare (today_ratio a) (today_ratio b) with
  | Eq => desc_compare (recent_ratio a) (recent_ratio b)
  | c => c
  end.

(** [a] may stand before [b] in the sorted table. *)
Definition row_leb (a b : row) : bool :=
  match row_compare a b with Gt => false | _ => true end.

(** Insertion of [a], which preceded every row of [l] in the unsorted
    table: it goes before the first row it does not have to follow. *)
Fixpoint insert_row (a : row) (l : list row) : list row :=
  match l with
  | [] => [a]
  | b :: l' => if row_leb a b then a :: l else b :: insert_row a l'
  end.

(** [out.sort_values([当日出来高倍率, 直近/比較倍率], ascending=False)]:
    a stable sort. *)
Definition sort_values (rows : list row) : list row :=
  fold_right insert_row [] rows.

Definition rank (n : Z) (rows : list row) : list row :=
  Pandas.head n (sort_values rows).

(** ** The run (lines 105-217) *)

(** What a run does that can be seen from outside, in order. *)
Inductive event :=
| StError                        (* st.error, line 111 *)
| StStop                         (* st.stop *)
| StInfo (n : nat)               (* st.info with the number of codes *)
| Fetch (t : str) (period : Z)    (* the call of fetch_ohlcv, line 123 *)
| Progress (i n : nat)           (* progress.progress(i / n) *)
| StWarning                      (* st.warning, line 189 *)
| Dataframe (out : list row)     (* the call of st.dataframe, line 198 *)
| DownloadButton (out : list row) (* the call of st.download_button *)
| Footer.                        (* lines 216-217 *)

Section Run.

Variable isdigit_cp : N -> bool.

Variable download : str -> Z -> option provider_frame.

(** The two widgets that are handed the table: [st_dataframe out] is the
    exception Streamlit raises when it converts the table [out] for
    display, [st_download_button out] the one raised on the way from
    [out.to_csv] to the button; [None] when the call returns.  Streamlit
    is not part of the repository; a table with an integer beyond 64 bits
    is one it refuses. *)
Variable st_dataframe : list row -> option exn.
Variable st_download_button : list row -> option exn.

Variable cfg : config.

(** Line 123: the frame the loop works on for ticker [t]. *)
Definition fetched (t : str) : res Pandas.frame :=
  fetch_ohlcv download t (lookback_days cfg).

(** One pass through the loop body: the rows after it, unless it raises. *)
Definition loop_body (t : str) (rows : list row) : res (list row) :=
  df <- fetched t ;;
  r <- evaluate cfg t df ;;
  Ret (rows ++ [r]).

(** The loop of line 122 over the codes still to do; [i] numbers the
    current one and [n] is [len(codes)]. *)
Fixpoint screen_loop (n i : nat) (todo : list str) (rows : list row)
  : list event * (list row + exn) :=
  match todo with
  | [] => ([], inl rows)
  | t :: todo' =>
      match fetched t with
      | Raise e => ([Fetch t (lookback_days cfg)], inr e)
      | _ =>
          let seen := [Fetch t (lookback_days cfg); Progress i n] in
          match loop_body t rows with
          | Raise e => (seen, inr e)
          | Continue _ =>
              let (evs, r) := screen_loop n (S i) todo' rows in (seen ++ evs, r)
          | Ret rows' =>
              let (evs, r) := screen_loop n (S i) todo' rows' in (seen ++ evs, r)
          end
      end
  end.

(** Lines 192-217, once some row passed: the table is ranked and handed
    to the two widgets; an exception of a widget ends the run there. *)
Definition show_table (rows : list row) : list event * option exn :=
  let out := rank (top_n cfg) rows in
  match st_dataframe out with
  | Some e => ([Dataframe out], Some e)
  | None =>
      match st_download_button out with
      | Some e => ([Dataframe out; DownloadButton out], Some e)
      | None => ([Dataframe out; DownloadButton out; Footer], None)
      end
  end.

(** The script from line 105; [run] is the state of the button.  The
    result is the trace and the exception that ended the run, if any. *)
Definition main (codes_text : str) (run : bool) : list event * option exn :=
  let codes := parse_codes isdigit_cp codes_text in
  if run then
    match codes with
    | [] => ([StError; StStop], None)
    | _ =>
        let (evs, r) := screen_loop (length codes) 1 codes [] in
        match r with
        | inr e => (StInfo (length codes) :: evs, Some e)
        | inl [] => (StInfo (length codes) :: evs ++ [StWarning; StStop], None)
        | inl rows =>
            let (shown, e) := show_table rows in
            (StInfo (length codes) :: evs ++ shown, e)
        end
    end
  else ([Footer], None).

End Run.

(** ** Vocabulary of the statements

    The definitions of this part are not read off the script: they name
    what the properties below say about it. *)

(** The bars of [s] at the positions [lo], [lo + 1], ..., [lo + len - 1]. *)
Definition window (s : list float) (lo len : nat) : list float :=
  map (fun i => nth i s nan) (seq lo len).

(** The mean of a non-empty list: its sum, added up in the order NumPy
    adds it up, over its length. *)
Definition average (s : list float) : float :=
  (Pandas.sum s / PyFloat.of_int (Z.of_nat (length s)))%float.

(** The number of a guard in the order of the loop body. *)
Definition guard_no (g : skip) : nat :=
  match g with
  | ShortHistory => 1
  | UndefinedChange => 2
  | ChangeTooHigh => 3
  | UndefinedAverage => 4
  | BelowLiquidity => 5
  | LowRecentRatio => 6
  | UndefinedSpikeBase => 7
  | LowSpikeRatio => 8
  | NoContinuity => 9
  end.

(** The evaluation got past guard number [k]: it ended in a later guard or
    in a row. *)
Definition past (k : nat) (o : res row) : Prop :=
  match o with
  | Ret _ => True
  | Continue g => (k < guard_no g)%nat
  | Raise _ => False
  end.

(** The rows of the table of a trace: those handed to [st.dataframe] and
    to the download button. *)
Definition shown (tr : list event) : list row :=
  flat_map (fun e => match e with
                     | Dataframe out => out
                     | DownloadButton out => out
                     | _ => []
                     end) tr.

(** Where the parser cuts: commas and line boundaries. *)
Definition is_separator (c : N) : bool := (c =? 44)%N || PyStr.is_linebreak c.

(** The pieces of [s] between separators, empty ones included; [cur] is
    the piece being read, reversed. *)
Fixpoint pieces_from (cur : str) (s : str) : list str :=
  match s with
  | [] => [rev cur]
  | c :: rest =>
      if is_separator c then rev cur :: pieces_from [] rest
      else pieces_from (c :: cur) rest
  end.

Definition pieces (s : str) : list str := pieces_from [] s.

Definition nonempty (r : str) : bool :=
  match r with [] => false | _ => true end.

(** The pieces trimmed, the empty ones dropped. *)
Definition trimmed_entries (l : list str) : list str :=
  filter nonempty (map PyStr.strip l).

(** The trimmed, non-empty entries of a text. *)
Definition entries (text : str) : list str := trimmed_entries (pieces text).

(** What becomes of one entry. *)
Definition qualify (isdigit_cp : N -> bool) (r : str) : str :=
  if forallb isdigit_cp r && Nat.eqb (length r) 4 then r ++ suffix_T else r.


(** [reset_index] accepts the table: the label of its index is not the
    label of one of its data columns. *)
Definition resettable (p : provider_frame) : Prop :=
  ~ In (index_label p) (map fst (data p)).


(** The claim of a gapless series: every day the provider returned has its
    bar in the fetched frame. *)
Definition dates_of (df : Pandas.frame) : list (option Z) :=
  match Pandas.getitem df label_Date with
  | Ret (Pandas.DateCol ds) => ds
  | _ => []
  end.

Definition gapless : Prop :=
  forall download t period p df,
  download t period = Some p ->
  fetch_ohlcv download t period = Ret df -> Pandas.empty df = false ->
  forall d, In d (index p) -> In d (dates_of df).

(** A passing row: one the evaluator returned for some frame. *)
Definition passing (r : row) : Prop :=
  exists cfg t df, evaluate cfg t df = Ret r.

(** Rows whose sort keys are numbers. *)
Definition keys_defined (r : row) : Prop :=
  is_nan (today_ratio r) = false /\ is_nan (recent_ratio r) = false.

(** [a] may rank above [b]: a larger spike ratio, or the same spike ratio
    and a recent/base ratio that is not smaller. *)
Definition ranks_before (a b : row) : Prop :=
  (today_ratio b <? today_ratio a)%float = true \/
  ((today_ratio a =? today_ratio b)%float = true /\
   (recent_ratio b <=? recent_ratio a)%float = true).

(** What the evaluator has established when it hands out the row [r]:
    [vol] and [cl] are the volume and close series, [tc], [pc] the last two
    closes and [tv], [pv] the last two volumes. *)
Record accepted (cfg : config) (t : str) (df : Pandas.frame) (r : row)
    (vol cl : list float) (tc pc tv pv : float) : Prop := {
  acc_long :
    (Pandas.empty df || (Z.of_nat (Pandas.nrows df) <? min_bars cfg)) = false;
  acc_volume : Pandas.getitem df label_Volume = Ret (Pandas.NumCol vol);
  acc_close : Pandas.getitem df label_Close = Ret (Pandas.NumCol cl);
  acc_tc : Pandas.iloc cl (-1) = Ret tc;
  acc_pc : Pandas.iloc cl (-2) = Ret pc;
  acc_tv : Pandas.iloc vol (-1) = Ret tv;
  acc_pv : Pandas.iloc vol (-2) = Ret pv;
  acc_pc_pos : (pc <=? 0)%float = false;
  acc_pct_defined : is_nan ((tc - pc) / pc * 100)%float = false;
  acc_pct_max :
    (PyFloat.of_int (max_day_change cfg) <? (tc - pc) / pc * 100)%float = false;
  acc_recent_defined : is_nan (recent_avg cfg vol) = false;
  acc_base_defined : is_nan (base_avg cfg vol) = false;
  acc_base_pos : (base_avg cfg vol <=? 0)%float = false;
  acc_liquid :
    (base_avg cfg vol <? PyFloat.of_int (min_base_avg_vol cfg))%float = false;
  acc_recent_ratio :
    (recent_avg cfg vol / base_avg cfg vol <? min_recent_ratio cfg)%float = false;
  acc_spike_defined : is_nan (spike_base cfg vol) = false;
  acc_spike_pos : (spike_base cfg vol <=? 0)%float = false;
  acc_spike_ratio : (tv / spike_base cfg vol <? min_spike cfg)%float = false;
  acc_continuity : (pv <? spike_base cfg vol)%float = false;
  acc_ticker : Ticker r = t;
  acc_row_close : close r = tc;
  acc_row_pct : day_change_pct r = ((tc - pc) / pc * 100)%float;
  acc_row_today : PyFloat.to_int tv = Ret (today_volume r);
  acc_row_today_ratio : today_ratio r = (tv / spike_base cfg vol)%float;
  acc_row_recent : PyFloat.to_int (recent_avg cfg vol) = Ret (recent_avg_volume r);
  acc_row_base : PyFloat.to_int (base_avg cfg vol) = Ret (base_avg_volume r);
  acc_row_ratio : recent_ratio r = (recent_avg cfg vol / base_avg cfg vol)%float
}.

(** The ticker [t] has a row in the table of a run. *)
Definition included (isdigit_cp : N -> bool)
    (download : str -> Z -> option provider_frame)
    (st_df st_dl : list row -> option exn) (cfg : config)
    (codes_text : str) (t : str) : Prop :=
  exists r, In r (shown (fst (main isdigit_cp download st_df st_dl cfg
                                   codes_text true)))
            /\ Ticker r = t.

(** ** Sample runs *)

Module Sample.

Local Open Scope float_scope.

(** The defaults of the sidebar. *)
Definition cfg : config := {|
  lookback_days := 160; recent_days := 5; base_days := 20;
  min_recent_ratio := 1.5; spike_days := 20; min_spike := 3;
  max_day_change := 5; min_base_avg_vol := 100000; top_n := 50 |}.

Definition ticker : str := PyStr.of_string "7203.T".

(** A provider table with the usual labels. *)
Definition table (closes vols : list float) : provider_frame := {|
  index_name := Some label_Date;
  index := map (fun i => Some (Z.of_nat i)) (seq 0 (length vols));
  data := [(label_Open, closes); (PyStr.of_string "High", closes);
           (label_Close, closes); (label_Volume, vols)] |}.

Definition download_of (p : provider_frame) : str -> Z -> option provider_frame :=
  fun _ _ => Some p.

(** Widgets that refuse a table with an integer beyond 64 bits. *)
Definition fits_int64 (z : Z) : bool :=
  ((- 2 ^ 63 <=? z) && (z <? 2 ^ 63))%Z.

Definition st_widget (out : list row) : option exn :=
  if forallb (fun r => fits_int64 (today_volume r)
                       && fits_int64 (recent_avg_volume r)
                       && fits_int64 (base_avg_volume r)) out
  then None else Some StreamlitError.

Definition frame_of (p : provider_frame) : Pandas.frame :=
  match fetch_ohlcv (download_of p) ticker (lookback_days cfg) with
  | Ret df => df
  | _ => []
  end.

(** Thirty bars: quiet volume, a build-up over three days, a busy day and
    a spike, with the close up three percent on the last day. *)
Definition vols : list float :=
  repeat 100000 25 ++ [150000; 150000; 150000; 200000; 600000].
Definition closes : list float := repeat 100 29 ++ [103].
Definition response : provider_frame := table closes vols.
Definition frame : Pandas.frame := Eval vm_compute in frame_of response.

(** The same with a quiet day before the spike. *)
Definition quiet_vols : list float :=
  repeat 100000 25 ++ [200000; 200000; 200000; 100000; 600000].
Definition quiet_response : provider_frame := table closes quiet_vols.
Definition quiet_frame : Pandas.frame := Eval vm_compute in frame_of quiet_response.

(** The same with the close up seven percent. *)
Definition jump_closes : list float := repeat 100 29 ++ [107].
Definition jump_response : provider_frame := table jump_closes vols.
Definition jump_frame : Pandas.frame := Eval vm_compute in frame_of jump_response.

(** The same with the close down by half. *)
Definition drop_closes : list float := repeat 100 29 ++ [50].
Definition drop_response : provider_frame := table drop_closes vols.
Definition drop_frame : Pandas.frame := Eval vm_compute in frame_of drop_response.

(** Ten bars only. *)
Definition short_response : provider_frame :=
  table (repeat 100 10) (repeat 100000 10).
Definition short_frame : Pandas.frame := Eval vm_compute in frame_of short_response.

(** Three days, the close of the middle one missing. *)
Definition gap_response : provider_frame :=
  table [100; nan; 102] [100000; 100000; 100000].
Definition gap_frame : Pandas.frame := Eval vm_compute in frame_of gap_response.


Definition text : str := PyStr.of_string "7203".

(** The first series with a busier start of the base window: the same
    spike ratio, a smaller recent/base ratio. *)
Definition busy_vols : list float :=
  repeat 100000 5 ++ repeat 200000 4 ++ repeat 100000 16
  ++ [150000; 150000; 150000; 200000; 600000].
Definition busy_response : provider_frame := table closes busy_vols.
Definition busy_frame : Pandas.frame := Eval vm_compute in frame_of busy_response.

Definition row_of (t : str) (df : Pandas.frame) : row :=
  match evaluate cfg t df with
  | Ret r => r
  | _ => {| Ticker := t; Code := t; last_date := None; close := nan;
            day_change_pct := nan; today_volume := 0; today_ratio := nan;
            recent_avg_volume := 0; base_avg_volume := 0; recent_ratio := nan |}
  end.
Definition row_1 : row := Eval vm_compute in row_of (PyStr.of_string "6758.T") busy_frame.
Definition row_2 : row := Eval vm_compute in row_of ticker frame.

(** Two rows with the same spike ratio. *)
Definition row_with (t : str) (spike ratio : float) : row := {|
  Ticker := t; Code := PyStr.replace suffix_T [] t; last_date := Some 29%Z;
  close := 103; day_change_pct := 3; today_volume := 600000;
  today_ratio := spike; recent_avg_volume := 250000;
  base_avg_volume := 100000; recent_ratio := ratio |}.
Definition row_A : row := row_with (PyStr.of_string "1111.T") 5 2.
Definition row_B : row := row_with (PyStr.of_string "2222.T") 5 3.

End Sample.

(** ** Further vocabulary *)

(** The last entry of a series and the one before it. *)
Definition last_of (s : list float) : float := nth (length s - 1) s nan.
Definition prev_of (s : list float) : float := nth (length s - 2) s nan.

(** A float [int()] accepts: neither NaN nor infinite. *)
Definition finite (x : float) : Prop := exists z, PyFloat.to_int x = Ret z.

(** Every threshold of the sidebar is met by the volume series [vol] and
    the close series [cl]. *)
Definition thresholds_met (cfg : config) (vol cl : list float) : Prop :=
  let pc := prev_of cl in
  let pct := ((last_of cl - pc) / pc * 100)%float in
  (0 <? pc)%float = true /\
  is_nan pct = false /\
  (pct <=? PyFloat.of_int (max_day_change cfg))%float = true /\
  (0 <? base_avg cfg vol)%float = true /\
  (PyFloat.of_int (min_base_avg_vol cfg) <=? base_avg cfg vol)%float = true /\
  (min_recent_ratio cfg <=? recent_avg cfg vol / base_avg cfg vol)%float = true /\
  (0 <? spike_base cfg vol)%float = true /\
  (min_spike cfg <=? last_of vol / spike_base cfg vol)%float = true /\
  (spike_base cfg vol <=? prev_of vol)%float = true.

(** What fetching and evaluating ticker [t] comes to in a run. *)
Definition outcome (download : str -> Z -> option provider_frame)
    (cfg : config) (t : str) : res row :=
  df <- fetch_ohlcv download t (lookback_days cfg) ;; evaluate cfg t df.

(** The row of ticker [t] in a run, if the evaluator returns one. *)
Definition row_for (download : str -> Z -> option provider_frame)
    (cfg : config) (t : str) : list row :=
  match outcome download cfg t with
  | Ret r => [r]
  | _ => []
  end.

(** No ticker of [codes] ends in an exception. *)
Definition quiet (download : str -> Z -> option provider_frame)
    (cfg : config) (codes : list str) : Prop :=
  forall t e, In t codes -> outcome download cfg t <> Raise e.

(** The events of the loop over [codes] when it runs to the end: for each
    code its fetch and the progress [i / n], counting from [i]. *)
Fixpoint loop_events (cfg : config) (n i : nat) (codes : list str)
  : list event :=
  match codes with
  | [] => []
  | t :: codes' =>
      Fetch t (lookback_days cfg) :: Progress i n
        :: loop_events cfg n (S i) codes'
  end.

(** The events of the pass through the loop that raises, for ticker [t]
    as number [i]: the fetch, and the progress unless it is the fetcher
    that raises. *)
Definition last_events (download : str -> Z -> option provider_frame)
    (cfg : config) (n i : nat) (t : str) : list event :=
  match fetch_ohlcv download t (lookback_days cfg) with
  | Raise _ => [Fetch t (lookback_days cfg)]
  | _ => [Fetch t (lookback_days cfg); Progress i n]
  end.

(** The rows of the codes that pass, in the order of the codes. *)
Definition passing_rows (download : str -> Z -> option provider_frame)
    (cfg : config) (codes : list str) : list row :=
  flat_map (row_for download cfg) codes.

(** The calls of the fetcher a trace records, in order. *)
Definition fetches (tr : list event) : list (str * Z) :=
  flat_map (fun e => match e with Fetch t p => [(t, p)] | _ => [] end) tr.

(** ["\n".join(l)] *)
Fixpoint join_lines (l : list str) : str :=
  match l with
  | [] => []
  | [x] => x
  | x :: l' => x ++ 10%N :: join_lines l'
  end.

(** A symbol as the parser hands it out: not empty, no separator inside,
    no white space at either end. *)
Definition clean (s : str) : Prop :=
  s <> [] /\ forallb (fun c => negb (is_separator c)) s = true /\
  PyStr.strip s = s.

(** The first sample series with an infinite volume on the last day. *)
Definition overflow_vols : list float :=
  (repeat 100000 25 ++ [150000; 150000; 150000; 200000; infinity])%float.
Definition overflow_response : provider_frame :=
  Sample.table Sample.closes overflow_vols.

(** The first sample series with volumes beyond 64 bits, all finite. *)
Definition huge_vols : list float :=
  map (fun v => (v * 35184372088832)%float) Sample.vols.
Definition huge_response : provider_frame :=
  Sample.table Sample.closes huge_vols.

(** A provider that knows one ticker only. *)
Definition download_only (t : str) (p : provider_frame)
  : str -> Z -> option provider_frame :=
  fun t' _ => if PyStr.eqb t' t then Some p else None.

(** What the script does after the loop with the rows it gathered
    (lines 188-217), and the exception that ends it, if any. *)
Definition after_loop (st_df st_dl : list row -> option exn) (cfg : config)
    (rows : list row) : list event * option exn :=
  match rows with
  | [] => ([StWarning; StStop], None)
  | _ => show_table st_df st_dl cfg rows
  end.

(** A float [int()] refuses with an overflow. *)
Definition infinite (x : float) : Prop := x = infinity \/ x = neg_infinity.

(** No table of the provider carries a data column labelled [Date] beside
    its index. *)
Definition dated_by_index (download : str -> Z -> option provider_frame)
    (cfg : config) : Prop :=
  forall t p, download t (lookback_days cfg) = Some p ->
              ~ In label_Date (map fst (data p)).

(** [reset_index] accepts every table of the provider: none has the label
    of its index among the labels of its data columns. *)
Definition resets (download : str -> Z -> option provider_frame)
    (cfg : config) : Prop :=
  forall t p, download t (lookback_days cfg) = Some p -> resettable p.

(** No code point of [s] is a full stop. *)
Definition dotless (s : str) : bool := forallb (fun c => negb (c =? 46)%N) s.

(** No code point of [s] is a separator. *)
Definition plain (s : str) : bool := forallb (fun c => negb (is_separator c)) s.

(** White space or a comma: what a text without entries is made of. *)
Definition blank (c : N) : bool := PyStr.isspace c || (c =? 44)%N.

(** The provider returns at most one bar for each day of the period asked
    for. *)
Definition daily (download : str -> Z -> option provider_frame)
    (cfg : config) : Prop :=
  forall t p, download t (lookback_days cfg) = Some p ->
              (Z.of_nat (length (index p)) <= lookback_days cfg)%Z.

(** Settings with a look-back of sixty days against a base window of
    sixty bars. *)
Definition short_lookback_cfg : config := {|
  lookback_days := 60; recent_days := 5; base_days := 60;
  min_recent_ratio := 1.5; spike_days := 20; min_spike := 3;
  max_day_change := 5; min_base_avg_vol := 100000; top_n := 50 |}.

(** [a] stands above [b] by the sort keys, ties going to the row that
    came first, which is the one with the smaller ticker. *)
Definition above (a b : row) : Prop :=
  row_compare a b = Lt \/
  (row_compare a b = Eq /\ PyStr.lt (Ticker a) (Ticker b)).

(** The same in terms of the figures of the two rows. *)
Definition stands_above (a b : row) : Prop :=
  (today_ratio b <? today_ratio a)%float = true \/
  ((today_ratio a =? today_ratio b)%float = true /\
   ((recent_ratio b <? recent_ratio a)%float = true \/
    ((recent_ratio a =? recent_ratio b)%float = true /\
     PyStr.lt (Ticker a) (Ticker b)))).

(** Two codes for the sample runs. *)
Definition text_two : str := PyStr.of_string "7203,6758".

(** The table [p] with the values of every column labelled [Open]
    replaced by [o']. *)
Definition with_open (o' : list float) (p : provider_frame) : provider_frame :=
  {| index_name := index_name p;
     index := index p;
     data := map (fun '(l, xs) =>
                    (l, if PyStr.eqb l label_Open then o' else xs)) (data p) |}.

(** The first sample series with other opening prices. *)
Definition other_opens : list float := repeat 7%float 30.

(** Eleven codes against a table of ten rows. *)
Definition eleven_text : str :=
  PyStr.of_string "1001,1002,1003,1004,1005,1006,1007,1008,1009,1010,1011".

Definition ten_cfg : config := {|
  lookback_days := 160; recent_days := 5; base_days := 20;
  min_recent_ratio := 1.5; spike_days := 20; min_spike := 3;
  max_day_change := 5; min_base_avg_vol := 100000; top_n := 10 |}.

(** The settings [lax] ask for no more than the settings [cfg]: the same
    windows, and thresholds that are met whenever those of [cfg] are. *)
Definition laxer (lax cfg : config) : Prop :=
  lookback_days lax = lookback_days cfg /\
  recent_days lax = recent_days cfg /\
  base_days lax = base_days cfg /\
  spike_days lax = spike_days cfg /\
  (min_recent_ratio lax <=? min_recent_ratio cfg)%float = true /\
  (min_spike lax <=? min_spike cfg)%float = true /\
  (PyFloat.of_int (max_day_change cfg)
   <=? PyFloat.of_int (max_day_change lax))%float = true /\
  (PyFloat.of_int (min_base_avg_vol lax)
   <=? PyFloat.of_int (min_base_avg_vol cfg))%float = true.

(** The defaults with every threshold loosened. *)
Definition lax_cfg : config := {|
  lookback_days := 160; recent_days := 5; base_days := 20;
  min_recent_ratio := 1.25; spike_days := 20; min_spike := 2;
  max_day_change := 8; min_base_avg_vol := 50000; top_n := 50 |}.

(** ** Comparisons of binary64 floats *)

Module FloatFacts.

Local Open Scope float_scope.

Ltac cmp_norm :=
  repeat match goal with
  | |- context [Pos.compare_cont Eq ?a ?b] =>
      change (Pos.compare_cont Eq a b) with (Pos.compare a b)
  | H : context [Pos.compare_cont Eq ?a ?b] |- _ =>
      change (Pos.compare_cont Eq a b) with (Pos.compare a b) in H
  end.

Ltac cmp_cases :=
  repeat match goal with
  | |- context [Z.compare ?a ?b] => destruct (Z.compare_spec a b)
  | H : context [Z.compare ?a ?b] |- _ => destruct (Z.compare_spec a b)
  | |- context [Pos.compare ?a ?b] => destruct (Pos.compare_spec a b)
  | H : context [Pos.compare ?a ?b] |- _ => destruct (Pos.compare_spec a b)
  end.

Lemma SFcompare_None x y :
  SFcompare x y = None <-> x = S754_nan \/ y = S754_nan.
Proof.
  destruct x, y; simpl; split; intros H; try discriminate; auto;
    destruct H; discriminate.
Qed.

Lemma SFcompare_antisym x y :
  SFcompare y x = option_map CompOpp (SFcompare x y).
Proof.
  destruct x as [sx|sx| |sx mx ex], y as [sy|sy| |sy my ey]; simpl;
    try (destruct sx); try (destruct sy); simpl; try reflexivity;
    cmp_norm; cmp_cases; simpl; try reflexivity; try lia.
Qed.

Lemma SFcompare_refl x : x <> S754_nan -> SFcompare x x = Some Eq.
Proof.
  destruct x as [s|s| |s m e]; simpl; intros H; try congruence;
    try (destruct s; reflexivity).
  destruct s; rewrite Z.compare_refl; cmp_norm; rewrite Pos.compare_refl;
    reflexivity.
Qed.

(** Chains of comparisons that never go up. *)
Lemma SFcompare_trans x y z c1 c2 :
  SFcompare x y = Some c1 -> SFcompare y z = Some c2 ->
  c1 <> Gt -> c2 <> Gt ->
  SFcompare x z = Some (match c1 with Eq => c2 | _ => Lt end).
Proof.
  destruct x as [sx|sx| |sx mx ex], y as [sy|sy| |sy my ey],
           z as [sz|sz| |sz mz ez]; simpl;
    try discriminate;
    try (destruct sx); try (destruct sy); try (destruct sz); simpl;
    intros H1 H2 N1 N2; injection H1 as <-; injection H2 as <-;
    try congruence;
    cmp_norm; cmp_cases; simpl in *; try congruence; try lia.
Qed.

Lemma is_nan_spec x : is_nan x = true <-> Prim2SF x = S754_nan.
Proof.
  unfold is_nan. rewrite FloatAxioms.eqb_spec. unfold SFeqb. split.
  - intros H. destruct (Prim2SF x) eqn:E; try reflexivity;
      rewrite SFcompare_refl in H by discriminate; discriminate.
  - intros ->. reflexivity.
Qed.

Lemma is_nan_false x : is_nan x = false <-> Prim2SF x <> S754_nan.
Proof.
  rewrite <- is_nan_spec. destruct (is_nan x); split; congruence.
Qed.

(** The comparison of two floats neither of which is NaN. *)
Lemma compare_defined x y :
  is_nan x = false -> is_nan y = false ->
  exists c, SFcompare (Prim2SF x) (Prim2SF y) = Some c.
Proof.
  rewrite !is_nan_false. intros Hx Hy.
  destruct (SFcompare (Prim2SF x) (Prim2SF y)) eqn:E; eauto.
  apply SFcompare_None in E. tauto.
Qed.

Lemma ltb_true_nan_l x y : (x <? y) = true -> is_nan x = false.
Proof.
  rewrite ltb_spec. unfold SFltb. intros H. apply is_nan_false. intros E.
  rewrite E in H. discriminate.
Qed.

Lemma ltb_true_nan_r x y : (x <? y) = true -> is_nan y = false.
Proof.
  rewrite ltb_spec. unfold SFltb. intros H. apply is_nan_false. intros E.
  rewrite E in H. destruct (Prim2SF x); discriminate.
Qed.

Lemma leb_true_nan_l x y : (x <=? y) = true -> is_nan x = false.
Proof.
  rewrite leb_spec. unfold SFleb. intros H. apply is_nan_false. intros E.
  rewrite E in H. discriminate.
Qed.

Lemma leb_true_nan_r x y : (x <=? y) = true -> is_nan y = false.
Proof.
  rewrite leb_spec. unfold SFleb. intros H. apply is_nan_false. intros E.
  rewrite E in H. destruct (Prim2SF x); discriminate.
Qed.

(** Not below means at least, once NaN is out of the way. *)
Lemma ltb_false_leb x y :
  is_nan x = false -> is_nan y = false -> (x <? y) = false -> (y <=? x) = true.
Proof.
  intros Hx Hy. destruct (compare_defined x y Hx Hy) as [c E].
  rewrite ltb_spec, leb_spec. unfold SFltb, SFleb.
  rewrite (SFcompare_antisym (Prim2SF x) (Prim2SF y)), E.
  destruct c; simpl; congruence.
Qed.

Lemma leb_false_ltb x y :
  is_nan x = false -> is_nan y = false -> (x <=? y) = false -> (y <? x) = true.
Proof.
  intros Hx Hy. destruct (compare_defined x y Hx Hy) as [c E].
  rewrite ltb_spec, leb_spec. unfold SFltb, SFleb.
  rewrite (SFcompare_antisym (Prim2SF x) (Prim2SF y)), E.
  destruct c; simpl; congruence.
Qed.

Lemma ltb_true_leb_false x y : (x <? y) = true -> (y <=? x) = false.
Proof.
  rewrite ltb_spec, leb_spec. unfold SFltb, SFleb.
  rewrite (SFcompare_antisym (Prim2SF x) (Prim2SF y)).
  destruct (SFcompare (Prim2SF x) (Prim2SF y)) as [[]|]; simpl; congruence.
Qed.

Lemma leb_true_ltb_false x y : (x <=? y) = true -> (y <? x) = false.
Proof.
  rewrite ltb_spec, leb_spec. unfold SFltb, SFleb.
  rewrite (SFcompare_antisym (Prim2SF x) (Prim2SF y)).
  destruct (SFcompare (Prim2SF x) (Prim2SF y)) as [[]|]; simpl; congruence.
Qed.

Lemma ltb_irrefl x : (x <? x) = false.
Proof.
  destruct (x <? x) eqn:E; [|reflexivity].
  pose proof (ltb_true_leb_false _ _ E) as H.
  rewrite ltb_spec in E. rewrite leb_spec in H. unfold SFltb, SFleb in *.
  destruct (SFcompare (Prim2SF x) (Prim2SF x)) as [[]|]; congruence.
Qed.

Lemma eqb_true_leb x y : (x =? y) = true -> (x <=? y) = true.
Proof.
  rewrite FloatAxioms.eqb_spec, leb_spec. unfold SFeqb, SFleb.
  destruct (SFcompare (Prim2SF x) (Prim2SF y)) as [[]|]; congruence.
Qed.

Lemma eqb_true_ltb_false x y : (x =? y) = true -> (x <? y) = false.
Proof.
  rewrite FloatAxioms.eqb_spec, ltb_spec. unfold SFeqb, SFltb.
  destruct (SFcompare (Prim2SF x) (Prim2SF y)) as [[]|]; congruence.
Qed.

Lemma eqb_sym x y : (x =? y) = (y =? x).
Proof.
  rewrite !FloatAxioms.eqb_spec. unfold SFeqb.
  rewrite (SFcompare_antisym (Prim2SF x) (Prim2SF y)).
  destruct (SFcompare (Prim2SF x) (Prim2SF y)) as [[]|]; reflexivity.
Qed.

Lemma ltb_leb_trans x y z :
  (x <? y) = true -> (y <=? z) = true -> (x <? z) = true.
Proof.
  rewrite !ltb_spec, leb_spec. unfold SFltb, SFleb.
  destruct (SFcompare (Prim2SF x) (Prim2SF y)) as [c1|] eqn:E1; try discriminate.
  destruct (SFcompare (Prim2SF y) (Prim2SF z)) as [c2|] eqn:E2; try discriminate.
  intros H1 H2.
  rewrite (SFcompare_trans _ _ _ c1 c2 E1 E2); destruct c1, c2; congruence.
Qed.

Lemma leb_trans x y z :
  (x <=? y) = true -> (y <=? z) = true -> (x <=? z) = true.
Proof.
  rewrite !leb_spec. unfold SFleb.
  destruct (SFcompare (Prim2SF x) (Prim2SF y)) as [c1|] eqn:E1; try discriminate.
  destruct (SFcompare (Prim2SF y) (Prim2SF z)) as [c2|] eqn:E2; try discriminate.
  intros H1 H2.
  rewrite (SFcompare_trans _ _ _ c1 c2 E1 E2); destruct c1, c2; congruence.
Qed.

(** A divisor that passed the test [y <= 0] of [safe_pct_change] is not
    zero. *)
Lemma leb_false_eqb_false x y : (x <=? y) = false -> (x =? y) = false.
Proof.
  intros H. destruct (x =? y) eqn:E; [|reflexivity].
  apply eqb_true_leb in E. congruence.
Qed.

Lemma ltb_true_leb x y : (x <? y) = true -> (x <=? y) = true.
Proof.
  rewrite ltb_spec, leb_spec. unfold SFltb, SFleb.
  destruct (SFcompare (Prim2SF x) (Prim2SF y)) as [[]|]; congruence.
Qed.

(** A number that is not at most zero is positive. *)
Lemma positive x : is_nan x = false -> (x <=? 0) = false -> (0 <? x) = true.
Proof. intros Hx. now apply leb_false_ltb. Qed.

(** Chains of comparisons that never go down. *)
Lemma SFcompare_trans_ge x y z c1 c2 :
  SFcompare x y = Some c1 -> SFcompare y z = Some c2 ->
  c1 <> Lt -> c2 <> Lt ->
  SFcompare x z = Some (match c1 with Eq => c2 | _ => Gt end).
Proof.
  destruct x as [sx|sx| |sx mx ex], y as [sy|sy| |sy my ey],
           z as [sz|sz| |sz mz ez]; simpl;
    try discriminate;
    try (destruct sx); try (destruct sy); try (destruct sz); simpl;
    intros H1 H2 N1 N2; injection H1 as <-; injection H2 as <-;
    try congruence;
    cmp_norm; cmp_cases; simpl in *; try congruence; try lia.
Qed.

Lemma compare_Eq_eqb x y :
  SFcompare (Prim2SF x) (Prim2SF y) = Some Eq -> (x =? y) = true.
Proof. rewrite FloatAxioms.eqb_spec. unfold SFeqb. now intros ->. Qed.

(** Two numbers neither of which is below the other are equal. *)
Lemma ltb_false_eqb x y :
  is_nan x = false -> is_nan y = false ->
  (x <? y) = false -> (y <? x) = false -> (x =? y) = true.
Proof.
  intros Hx Hy. destruct (compare_defined x y Hx Hy) as [c E].
  rewrite !ltb_spec, FloatAxioms.eqb_spec. unfold SFltb, SFeqb.
  rewrite (SFcompare_antisym (Prim2SF x) (Prim2SF y)), E.
  destruct c; simpl; congruence.
Qed.

(** *** Quotients that are numbers

    Rounding keeps a mantissa that is not negative, so the quotient of two
    finite numbers is a number. *)

Lemma shr_1_nonneg mrs : (0 <= shr_m mrs)%Z -> (0 <= shr_m (shr_1 mrs))%Z.
Proof.
  destruct mrs as [m r s]. destruct m as [|p|p]; simpl; try lia;
    destruct p; simpl; lia.
Qed.

Lemma iter_shr_1_nonneg p :
  forall mrs, (0 <= shr_m mrs)%Z -> (0 <= shr_m (iter_pos shr_1 p mrs))%Z.
Proof.
  induction p as [p IH|p IH|]; intros mrs H; simpl.
  - apply IH, IH. now apply shr_1_nonneg.
  - now apply IH, IH.
  - now apply shr_1_nonneg.
Qed.

Lemma shr_fexp_nonneg m e l :
  (0 <= m)%Z -> (0 <= shr_m (fst (shr_fexp prec emax m e l)))%Z.
Proof.
  intros H. unfold shr_fexp, shr.
  assert (K : (0 <= shr_m (shr_record_of_loc m l))%Z)
    by (destruct l as [|[]]; exact H).
  destruct (fexp prec emax (Zdigits2 m + e) - e)%Z; simpl; auto.
  now apply iter_shr_1_nonneg.
Qed.

Lemma round_nearest_even_nonneg m l :
  (0 <= m)%Z -> (0 <= round_nearest_even m l)%Z.
Proof.
  intros H. destruct l as [|[]]; simpl; try lia. destruct (Z.even m); lia.
Qed.

Lemma binary_round_aux_defined sx mx ex lx :
  (0 <= mx)%Z -> binary_round_aux prec emax sx mx ex lx <> S754_nan.
Proof.
  intros H. unfold binary_round_aux.
  pose proof (shr_fexp_nonneg mx ex lx H) as H1.
  destruct (shr_fexp prec emax mx ex lx) as [mrs' e']. simpl in H1.
  pose proof (shr_fexp_nonneg _ e' loc_Exact
                (round_nearest_even_nonneg _ (loc_of_shr_record mrs') H1)) as H2.
  destruct (shr_fexp prec emax _ e' loc_Exact) as [mrs'' e'']. simpl in H2.
  destruct (shr_m mrs''); [discriminate| |lia].
  destruct (e'' <=? emax - prec)%Z; discriminate.
Qed.

Lemma SFdiv_finite_defined sx mx ex sy my ey :
  SF64div (S754_finite sx mx ex) (S754_finite sy my ey) <> S754_nan.
Proof.
  unfold SF64div, SFdiv, SFdiv_core_binary.
  set (s := (ex - ey - _)%Z).
  set (m' := match s with Z0 => Zpos mx | Zpos _ => Z.shiftl (Zpos mx) s
                        | Zneg _ => 0%Z end).
  assert (Hm : (0 <= m')%Z).
  { unfold m'. destruct s; try lia. apply Z.shiftl_nonneg. lia. }
  pose proof (Z.div_pos m' (Zpos my) Hm eq_refl) as Hq.
  unfold Z.div in Hq. destruct (Z.div_eucl m' (Zpos my)) as [q r].
  now apply binary_round_aux_defined.
Qed.

(** A finite number over a positive number is a number. *)
Lemma div_defined x y :
  (Prim2SF x <> S754_nan /\ forall s, Prim2SF x <> S754_infinity s) ->
  is_nan y = false -> (y <=? 0) = false ->
  is_nan (x / y) = false.
Proof.
  intros [Hx1 Hx2] Hy Hpos. apply is_nan_false. rewrite div_spec.
  apply is_nan_false in Hy. rewrite leb_spec in Hpos.
  change (Prim2SF 0) with (S754_zero false) in Hpos.
  destruct (Prim2SF x) as [sx|sx| |sx mx ex]; try congruence;
    try (exfalso; apply (Hx2 sx); reflexivity);
    destruct (Prim2SF y) as [sy|sy| |sy my ey]; try congruence;
    try discriminate; try apply SFdiv_finite_defined.
Qed.

Lemma to_int_finite x z :
  PyFloat.to_int x = Ret z ->
  Prim2SF x <> S754_nan /\ forall s, Prim2SF x <> S754_infinity s.
Proof.
  unfold PyFloat.to_int. destruct (Prim2SF x); try discriminate;
    intros _; split; try discriminate; intros; discriminate.
Qed.

End FloatFacts.

(** ** The order of strings *)

Module StrFacts.

Lemma compare_eq (a : str) : forall b, PyStr.compare a b = Eq <-> a = b.
Proof.
  induction a as [|x a IH]; intros [|y b]; simpl; split; intros H;
    try reflexivity; try discriminate.
  - destruct (N.compare_spec x y); try discriminate.
    subst. f_equal. now apply IH.
  - injection H as -> ->. rewrite N.compare_refl. now apply IH.
Qed.

Lemma compare_refl (a : str) : PyStr.compare a a = Eq.
Proof. now apply compare_eq. Qed.

Lemma compare_antisym (a : str) :
  forall b, PyStr.compare b a = CompOpp (PyStr.compare a b).
Proof.
  induction a as [|x a IH]; intros [|y b]; simpl; try reflexivity.
  rewrite (N.compare_antisym x y).
  destruct (x ?= y)%N; simpl; auto.
Qed.

Lemma lt_trans (a : str) :
  forall b c, PyStr.lt a b -> PyStr.lt b c -> PyStr.lt a c.
Proof.
  unfold PyStr.lt.
  induction a as [|x a IH]; intros [|y b] [|z c]; simpl; try discriminate; auto.
  destruct (N.compare_spec x y), (N.compare_spec y z), (N.compare_spec x z);
    try discriminate; try lia; auto.
  intros; eapply IH; eauto.
Qed.

Lemma lt_irrefl (a : str) : ~ PyStr.lt a a.
Proof. unfold PyStr.lt. rewrite compare_refl. discriminate. Qed.

Lemma eqb_eq (a b : str) : PyStr.eqb a b = true <-> a = b.
Proof.
  unfold PyStr.eqb. rewrite <- compare_eq.
  destruct (PyStr.compare a b); split; congruence.
Qed.

Lemma eqb_refl (a : str) : PyStr.eqb a a = true.
Proof. now apply eqb_eq. Qed.

Lemma eqb_neq (a b : str) : PyStr.eqb a b = false <-> a <> b.
Proof.
  rewrite <- eqb_eq. destruct (PyStr.eqb a b); split; congruence.
Qed.

End StrFacts.

(** ** Trailing windows of a series *)

Module SeriesFacts.

Lemma firstn_skipn_window (s : list float) :
  forall lo len, (lo + len <= length s)%nat ->
  firstn len (skipn lo s) = window s lo len.
Proof.
  unfold window. induction s as [|x s IH]; intros lo len H; simpl in H.
  - assert (lo = 0%nat) by lia. assert (len = 0%nat) by lia. subst. reflexivity.
  - destruct lo as [|lo].
    + simpl skipn. destruct len as [|len]; [reflexivity|].
      simpl. f_equal. rewrite <- seq_shift, map_map.
      specialize (IH 0%nat len). simpl skipn in IH. apply IH. lia.
    + simpl skipn. rewrite IH by lia.
      rewrite <- seq_shift, map_map. reflexivity.
Qed.

Lemma skipn_window (s : list float) (lo : nat) :
  (lo <= length s)%nat -> skipn lo s = window s lo (length s - lo).
Proof.
  intros H. rewrite <- firstn_skipn_window by lia.
  symmetry. apply firstn_all2. rewrite length_skipn. lia.
Qed.

Lemma window_length s lo len : length (window s lo len) = len.
Proof. unfold window. now rewrite length_map, length_seq. Qed.

(** [tail(n)] of a series with at least [n] entries. *)
Lemma tail_window (s : list float) (n : Z) :
  0 < n <= Z.of_nat (length s) ->
  Pandas.tail n s = window s (length s - Z.to_nat n) (Z.to_nat n).
Proof.
  intros H. unfold Pandas.tail.
  destruct (Z.eqb_spec n 0); [lia|].
  destruct (Z.ltb_spec 0 n); [|lia].
  rewrite skipn_window by lia. f_equal. lia.
Qed.

(** [tail(n + 1).head(n)] and the like: the first [m] of the last [n]. *)
Lemma head_tail_window (s : list float) (m n : Z) :
  0 <= m <= n -> 0 < n <= Z.of_nat (length s) ->
  Pandas.head m (Pandas.tail n s) = window s (length s - Z.to_nat n) (Z.to_nat m).
Proof.
  intros Hm Hn. unfold Pandas.head, Pandas.tail.
  destruct (Z.eqb_spec n 0); [lia|].
  destruct (Z.ltb_spec 0 n); [|lia].
  destruct (Z.leb_spec 0 m); [|lia].
  apply firstn_skipn_window. lia.
Qed.

Lemma iloc_map {A B} (f : A -> B) (s : list A) (i : Z) :
  Pandas.iloc (map f s) i = bind (Pandas.iloc s i) (fun a => Ret (f a)).
Proof.
  unfold Pandas.iloc. rewrite length_map.
  destruct ((_ <? 0) || _)%Z; [reflexivity|].
  rewrite nth_error_map. destruct (nth_error s _); reflexivity.
Qed.

(** Positions counted from the end are in range when the series is long
    enough. *)
Lemma iloc_from_end {A} (s : list A) (k : Z) (d : A) :
  0 < k <= Z.of_nat (length s) ->
  Pandas.iloc s (- k) = Ret (nth (length s - Z.to_nat k) s d).
Proof.
  intros H. unfold Pandas.iloc.
  destruct (Z.ltb_spec (- k) 0); [|lia].
  destruct (Z.ltb_spec (Z.of_nat (length s) + - k) 0); [lia|].
  destruct (Z.leb_spec (Z.of_nat (length s)) (Z.of_nat (length s) + - k)); [lia|].
  simpl orb. cbv iota.
  replace (Z.to_nat (Z.of_nat (length s) + - k)) with (length s - Z.to_nat k)%nat by lia.
  destruct (nth_error s (length s - Z.to_nat k)) eqn:E.
  - now rewrite (nth_error_nth _ _ d E).
  - apply nth_error_None in E. lia.
Qed.

Lemma iloc_Ret_length {A} (s : list A) (i : Z) (a : A) :
  Pandas.iloc s i = Ret a ->
  (if i <? 0 then - i <= Z.of_nat (length s) else i < Z.of_nat (length s)).
Proof.
  unfold Pandas.iloc. destruct (Z.ltb_spec i 0).
  - destruct (Z.ltb_spec (Z.of_nat (length s) + i) 0); simpl; [discriminate|].
    intros _. lia.
  - destruct (Z.ltb_spec i 0); [lia|].
    destruct (Z.leb_spec (Z.of_nat (length s)) i); simpl; [discriminate|].
    intros _. lia.
Qed.

Lemma iloc_not_Continue {A} (s : list A) (i : Z) g : Pandas.iloc s i <> Continue g.
Proof.
  unfold Pandas.iloc. destruct (_ || _)%bool; [discriminate|].
  destruct (nth_error _ _); discriminate.
Qed.

Lemma iloc_In {A} (s : list A) (i : Z) (a : A) : Pandas.iloc s i = Ret a -> In a s.
Proof.
  unfold Pandas.iloc. destruct (_ || _)%bool; [discriminate|].
  destruct (nth_error _ _) eqn:E; [|discriminate].
  intros [= <-]. eapply nth_error_In; eauto.
Qed.

Lemma window_In s lo len x :
  (lo + len <= length s)%nat -> In x (window s lo len) -> In x s.
Proof.
  intros H Hx. unfold window in Hx. apply in_map_iff in Hx as (i & <- & Hi).
  apply in_seq in Hi. apply nth_In. lia.
Qed.

(** Where nothing is missing, pandas' mean is the arithmetic mean. *)
Lemma mean_average (s : list float) :
  Forall (fun x => is_nan x = false) s -> s <> [] ->
  Pandas.mean s = average s.
Proof.
  intros Hs Hn. unfold Pandas.mean, average.
  assert (E : filter (fun x => negb (is_nan x)) s = s).
  { clear Hn. induction Hs as [|x s Hx Hs IH]; simpl; [reflexivity|].
    rewrite Hx. simpl. now f_equal. }
  assert (F : map (fun x => if is_nan x then 0%float else x) s = s).
  { clear Hn E. induction Hs as [|x s Hx Hs IH]; simpl; [reflexivity|].
    rewrite Hx. now f_equal. }
  rewrite E, F. destruct s; [congruence|reflexivity].
Qed.

End SeriesFacts.
(** ** NumPy's summation *)

Module SumFacts.

Import Pandas.
Local Open Scope float_scope.

(** Where an array is cut, both parts are shorter. *)
Lemma cut_shorter n :
  (128 < n)%nat ->
  (0 < n / 2 - (n / 2) mod 8 < n)%nat.
Proof.
  intros H.
  pose proof (Nat.Div0.mod_le (n / 2) 8).
  pose proof (Nat.mod_upper_bound (n / 2) 8).
  pose proof (Nat.Div0.div_le_upper_bound n 2 n).
  assert (64 <= n / 2)%nat by (apply Nat.div_le_lower_bound; lia).
  assert (n / 2 < n)%nat by (apply Nat.div_lt; lia).
  lia.
Qed.

(** The depth of the cuts never exceeds the length: more fuel changes
    nothing. *)
Lemma pairwise_sum_fuel f1 :
  forall f2 s, (length s <= f1)%nat -> (length s <= f2)%nat ->
  pairwise_sum_from f1 s = pairwise_sum_from f2 s.
Proof.
  induction f1 as [|f1 IH]; intros f2 s H1 H2.
  - destruct s; [|simpl in H1; lia]. now destruct f2.
  - destruct f2 as [|f2].
    + destruct s; [reflexivity|simpl in H2; lia].
    + cbn [pairwise_sum_from].
      destruct (length s <? 8)%nat; [reflexivity|].
      destruct (Nat.leb_spec (length s) 128); [reflexivity|].
      pose proof (cut_shorter (length s) ltac:(lia)) as Hc.
      set (n2 := (length s / 2 - (length s / 2) mod 8)%nat) in *.
      rewrite (IH f2 (firstn n2 s)), (IH f2 (skipn n2 s)); try reflexivity;
        rewrite ?length_firstn, ?length_skipn; lia.
Qed.

(** Where the array is cut. *)
Lemma pairwise_sum_cut s :
  (128 < length s)%nat ->
  let n2 := (length s / 2 - (length s / 2) mod 8)%nat in
  pairwise_sum s = pairwise_sum (firstn n2 s) + pairwise_sum (skipn n2 s).
Proof.
  intros H n2. unfold pairwise_sum.
  pose proof (cut_shorter (length s) H) as Hc. fold n2 in Hc.
  destruct (length s) as [|n] eqn:E; [lia|].
  cbn [pairwise_sum_from]. rewrite E.
  destruct (Nat.ltb_spec (S n) 8); [lia|].
  destruct (Nat.leb_spec (S n) 128); [lia|].
  fold n2.
  rewrite (pairwise_sum_fuel n (length (firstn n2 s)) (firstn n2 s)),
          (pairwise_sum_fuel n (length (skipn n2 s)) (skipn n2 s));
    try reflexivity; rewrite ?length_firstn, ?length_skipn; lia.
Qed.

(** Ten tenths: added pairwise they are 1, added from left to right they
    are not. *)
Example ten_tenths :
  sum (repeat 0x1.999999999999ap-4 10) = 1 /\
  fold_left add (repeat 0x1.999999999999ap-4 10) 0 = 0x1.fffffffffffffp-1.
Proof. split; reflexivity. Qed.

End SumFacts.


(** ** Frames and the fetcher *)

Module FrameFacts.

Import Pandas.

Lemma getitem_not_Continue df c g : getitem df c <> Continue g.
Proof.
  induction df as [|[l col] df IH]; simpl; [discriminate|].
  destruct (PyStr.eqb c l); [discriminate|exact IH].
Qed.

Lemma getitem_In df c col : getitem df c = Ret col -> In (c, col) df.
Proof.
  induction df as [|[l col'] df IH]; simpl; [discriminate|].
  destruct (PyStr.eqb c l) eqn:E.
  - apply StrFacts.eqb_eq in E. intros [= ->]. subst. now left.
  - intros H. right. auto.
Qed.

Lemma has_column_In c df : has_column c df = true <-> In c (columns df).
Proof.
  unfold has_column. rewrite existsb_exists. split.
  - intros (l & Hl & E). apply StrFacts.eqb_eq in E. now subst.
  - intros H. exists c. split; [exact H|apply StrFacts.eqb_refl].
Qed.

Lemma has_column_getitem c df :
  has_column c df = true -> exists col, getitem df c = Ret col.
Proof.
  unfold has_column, columns.
  induction df as [|[l col] df IH]; simpl; [discriminate|].
  destruct (PyStr.eqb c l); simpl; eauto.
Qed.

Lemma getitem_has_column c df col :
  getitem df c = Ret col -> has_column c df = true.
Proof.
  intros H. apply has_column_In. apply getitem_In in H.
  unfold columns. change c with (fst (c, col)). now apply in_map.
Qed.

Lemma getitem_KeyError c df e :
  getitem df c = Raise e -> has_column c df = false.
Proof.
  intros H. destruct (has_column c df) eqn:E; [|reflexivity].
  apply has_column_getitem in E as [col E]. congruence.
Qed.

(** The four columns of [df[keep_cols]]. *)
Lemma select_keep_cols df src :
  select df keep_cols = Ret src ->
  exists c1 c2 c3 c4,
    getitem df label_Date = Ret c1 /\ getitem df label_Open = Ret c2 /\
    getitem df label_Close = Ret c3 /\ getitem df label_Volume = Ret c4 /\
    src = [(label_Date, c1); (label_Open, c2); (label_Close, c3); (label_Volume, c4)].
Proof.
  unfold keep_cols. simpl.
  destruct (getitem df label_Date) as [c1| |]; simpl; try discriminate.
  destruct (getitem df label_Open) as [c2| |]; simpl; try discriminate.
  destruct (getitem df label_Close) as [c3| |]; simpl; try discriminate.
  destruct (getitem df label_Volume) as [c4| |]; simpl; try discriminate.
  intros [= <-]. exists c1, c2, c3, c4. auto.
Qed.

Lemma select_total df :
  forallb (fun c => has_column c df) keep_cols = true ->
  exists src, select df keep_cols = Ret src.
Proof.
  unfold keep_cols. simpl. rewrite !andb_true_iff.
  intros (H1 & H2 & H3 & H4 & _).
  apply has_column_getitem in H1 as [c1 ->], H2 as [c2 ->],
    H3 as [c3 ->], H4 as [c4 ->].
  simpl. eauto.
Qed.

Lemma col_take_len keep c : col_len (col_take keep c) = length keep.
Proof. destruct c; simpl; now rewrite length_map. Qed.

Lemma getitem_map_cols (f : column -> column) df c :
  getitem (map (fun '(l, col) => (l, f col)) df) c
  = bind (getitem df c) (fun col => Ret (f col)).
Proof.
  induction df as [|[l col] df IH]; simpl; [reflexivity|].
  destruct (PyStr.eqb c l); [reflexivity|exact IH].
Qed.

Lemma getitem_dropna df c :
  getitem (dropna df) c
  = bind (getitem df c) (fun col => Ret (col_take (complete_rows df) col)).
Proof. unfold dropna. apply getitem_map_cols. Qed.

Lemma nrows_dropna df : df <> [] -> nrows (dropna df) = length (complete_rows df).
Proof.
  destruct df as [|[l c] df]; [congruence|]. intros _.
  unfold dropna. simpl map. unfold nrows. apply col_take_len.
Qed.

(** In a kept row no column has a missing entry. *)
Lemma complete_rows_spec df i :
  In i (complete_rows df) <->
  (i < nrows df)%nat /\ forall l c, In (l, c) df -> col_isna_at c i = false.
Proof.
  unfold complete_rows. rewrite filter_In, in_seq, negb_true_iff. split.
  - intros [Hi H]. split; [lia|]. intros l c Hin.
    destruct (col_isna_at c i) eqn:E; [|reflexivity].
    assert (existsb (fun lc => col_isna_at (snd lc) i) df = true).
    { apply existsb_exists. exists (l, c). auto. }
    congruence.
  - intros [Hi H]. split; [lia|].
    destruct (existsb _ df) eqn:E; [|reflexivity].
    apply existsb_exists in E as ([l c] & Hin & E). simpl in E.
    rewrite (H l c Hin) in E. discriminate.
Qed.

Lemma complete_rows_increasing df : StronglySorted lt (complete_rows df).
Proof.
  unfold complete_rows. generalize 0%nat, (nrows df).
  intros a n. revert a. induction n as [|n IH]; intros a; simpl; [constructor|].
  destruct (negb _).
  - constructor; [apply IH|].
    apply Forall_forall. intros j Hj. apply filter_In in Hj as [Hj _].
    apply in_seq in Hj. lia.
  - apply IH.
Qed.

(** The entries of a column after [dropna]: none is missing. *)
Lemma col_take_cells df l c v :
  In (l, c) df -> In v (col_cells (col_take (complete_rows df) c)) ->
  cell_isna v = false.
Proof.
  intros Hin Hv.
  assert (K : forall i, In i (complete_rows df) -> col_isna_at c i = false).
  { intros i Hi. apply complete_rows_spec in Hi as [_ Hi]. eauto. }
  unfold col_isna_at in K.
  destruct c as [ds|xs]; simpl in *; apply in_map_iff in Hv as (x & <- & Hx);
    apply in_map_iff in Hx as (i & <- & Hi); specialize (K i Hi);
    rewrite nth_error_map in K.
  - destruct (nth_error ds i) eqn:E; simpl in K; [|discriminate].
    now rewrite (nth_error_nth _ _ _ E).
  - destruct (nth_error xs i) eqn:E; simpl in K; [|discriminate].
    now rewrite (nth_error_nth _ _ _ E).
Qed.

Lemma data_columns_labels p : columns (data_columns p) = map fst (data p).
Proof.
  unfold columns, data_columns. rewrite map_map. apply map_ext.
  now intros [l xs].
Qed.

Lemma resettable_spec p :
  has_column (index_label p) (data_columns p) = false <-> resettable p.
Proof.
  unfold resettable. rewrite <- data_columns_labels, <- has_column_In.
  destruct (has_column _ _); split; congruence.
Qed.

(** [reset_index] accepts a table whose index label is new to it. *)
Lemma reset_index_cases p :
  (has_column (index_label p) (data_columns p) = true /\
   reset_index p = Raise ValueError) \/
  (has_column (index_label p) (data_columns p) = false /\
   reset_index p
   = Ret ((index_label p, DateCol (index p)) :: data_columns p)).
Proof.
  unfold reset_index.
  destruct (has_column (index_label p) (data_columns p)); auto.
Qed.

Lemma reset_index_Ret p df :
  reset_index p = Ret df ->
  has_column (index_label p) (data_columns p) = false /\
  name_date df = normalize_columns p.
Proof.
  destruct (reset_index_cases p) as [[_ ->]|[H ->]]; [discriminate|].
  intros [= <-]. split; [exact H|reflexivity].
Qed.

(** The fetcher returns a frame, or [reset_index] raises. *)
Lemma fetch_cases download t d :
  (exists df, fetch_ohlcv download t d = Ret df) \/
  (fetch_ohlcv download t d = Raise ValueError /\
   exists p, download t d = Some p /\ provider_empty p = false /\
             has_column (index_label p) (data_columns p) = true).
Proof.
  unfold fetch_ohlcv. destruct (download t d) as [p|]; [|eauto].
  destruct (provider_empty p) eqn:Ep; [eauto|].
  destruct (reset_index_cases p) as [[H ->]|[H ->]]; cbn [bind].
  - right. split; [reflexivity|]. exists p. auto.
  - left. destruct (forallb _ keep_cols) eqn:E; [|eauto].
    apply select_total in E as [src ->]. simpl. eauto.
Qed.

Lemma fetch_Raise download t d e :
  fetch_ohlcv download t d = Raise e ->
  e = ValueError /\
  exists p, download t d = Some p /\ provider_empty p = false /\
            has_column (index_label p) (data_columns p) = true.
Proof.
  intros H. destruct (fetch_cases download t d) as [[df E]|[E K]];
    rewrite E in H; [discriminate|]. now injection H as <-.
Qed.

Lemma fetch_not_Continue download t d g :
  fetch_ohlcv download t d <> Continue g.
Proof.
  intros H. destruct (fetch_cases download t d) as [[df E]|[E _]];
    rewrite E in H; discriminate.
Qed.

(** It returns whenever the label of the index is no label of a data
    column. *)
Lemma fetch_total download t d :
  (forall p, download t d = Some p ->
     has_column (index_label p) (data_columns p) = false) ->
  exists df, fetch_ohlcv download t d = Ret df.
Proof.
  intros H. destruct (fetch_cases download t d)
    as [K|[_ (p & Hd & _ & Hc)]]; [exact K|].
  rewrite (H p Hd) in Hc. discriminate.
Qed.

(** A frame the fetcher returns is the empty frame or the complete rows of
    the four columns. *)
Lemma fetch_inv download t d df :
  fetch_ohlcv download t d = Ret df ->
  df = empty_frame \/
  exists p src, download t d = Some p /\ provider_empty p = false /\
    select (normalize_columns p) keep_cols = Ret src /\ df = dropna src.
Proof.
  unfold fetch_ohlcv.
  destruct (download t d) as [p|]; [|intros [= <-]; now left].
  destruct (provider_empty p) eqn:Ep; [intros [= <-]; now left|].
  destruct (reset_index p) as [df0| |] eqn:Er; cbn [bind]; try discriminate.
  apply reset_index_Ret in Er as [_ ->].
  destruct (forallb _ keep_cols) eqn:E; [|intros [= <-]; now left].
  destruct (select_total _ E) as [src Hs]. rewrite Hs. simpl.
  intros [= <-]. right. exists p, src. auto.
Qed.

(** A table the fetcher made a frame of was accepted by [reset_index]. *)
Lemma fetch_Ret_label download t d df p :
  fetch_ohlcv download t d = Ret df -> download t d = Some p ->
  provider_empty p = false ->
  has_column (index_label p) (data_columns p) = false.
Proof.
  unfold fetch_ohlcv. intros H Hd Ep. rewrite Hd, Ep in H.
  destruct (reset_index p) as [df0| |] eqn:Er; cbn [bind] in H;
    try discriminate H.
  now apply reset_index_Ret in Er as [K _].
Qed.

(** Every column of a fetched frame has the frame's number of rows and no
    missing entry. *)
Lemma fetched_column download t d df l c :
  fetch_ohlcv download t d = Ret df -> getitem df l = Ret c ->
  col_len c = nrows df /\ forall v, In v (col_cells c) -> cell_isna v = false.
Proof.
  intros Hf Hg. apply fetch_inv in Hf as [->|(p & src & _ & _ & Hs & ->)].
  - discriminate.
  - rewrite getitem_dropna in Hg.
    destruct (getitem src l) as [c0| |] eqn:E; simpl in Hg; try discriminate.
    injection Hg as <-.
    assert (src <> []).
    { apply select_keep_cols in Hs as (? & ? & ? & ? & _ & _ & _ & _ & ->).
      discriminate. }
    split.
    + rewrite col_take_len, nrows_dropna; auto.
    + intros v Hv. eapply col_take_cells; eauto. eapply getitem_In; eauto.
Qed.

Lemma fetched_floats download t d df l xs :
  fetch_ohlcv download t d = Ret df -> getitem df l = Ret (NumCol xs) ->
  length xs = nrows df /\ Forall (fun x => is_nan x = false) xs.
Proof.
  intros Hf Hg. destruct (fetched_column _ _ _ _ _ _ Hf Hg) as [H1 H2].
  split; [exact H1|]. apply Forall_forall. intros x Hx.
  apply (H2 (CNum x)). simpl. now apply in_map.
Qed.

(** A fetched frame with rows has the four columns. *)
Lemma fetched_columns download t d df :
  fetch_ohlcv download t d = Ret df -> empty df = false ->
  forall l, In l keep_cols -> exists c, getitem df l = Ret c.
Proof.
  intros Hf He. apply fetch_inv in Hf as [->|(p & src & _ & _ & Hs & ->)].
  - discriminate.
  - apply select_keep_cols in Hs as (c1 & c2 & c3 & c4 & _ & _ & _ & _ & ->).
    intros l Hl. rewrite getitem_dropna.
    unfold keep_cols in Hl. simpl in Hl.
    destruct Hl as [<-|[<-|[<-|[<-|[]]]]]; vm_compute getitem at 1;
      simpl; eauto.
Qed.

End FrameFacts.

(** ** The evaluator, guard by guard *)

Module EvalFacts.

Import Pandas.
Local Open Scope float_scope.

(** One statement of the loop body: split on its outcome. *)
Ltac ev_step :=
  match goal with
  | |- bind (continue_if ?c ?g) _ = _ -> _ =>
      let G := fresh "G" in destruct c eqn:G; cbn [bind continue_if]; cbv zeta
  | |- bind ?m _ = _ -> _ =>
      let E := fresh "E" in destruct m eqn:E; cbn [bind]; cbv zeta
  end.

Lemma safe_pct_change_eq tc pc :
  safe_pct_change tc pc
  = Ret (if pc <=? 0 then nan else (tc - pc) / pc * 100).
Proof.
  unfold safe_pct_change, PyFloat.truediv.
  destruct (pc <=? 0) eqn:E; [reflexivity|].
  now rewrite (FloatFacts.leb_false_eqb_false _ _ E).
Qed.

Lemma astype_float_Ret c xs : astype_float c = Ret xs -> c = NumCol xs.
Proof. destruct c; simpl; congruence. Qed.

Lemma float_of_Ret v x : float_of v = Ret x -> v = CNum x.
Proof. destruct v; simpl; congruence. Qed.

Lemma iloc_cells_num c i x :
  iloc (col_cells c) i = Ret (CNum x) ->
  exists xs, c = NumCol xs /\ iloc xs i = Ret x.
Proof.
  destruct c as [ds|xs]; simpl; rewrite SeriesFacts.iloc_map.
  - destruct (iloc ds i); simpl; congruence.
  - destruct (iloc xs i) eqn:E; simpl; try congruence.
    intros [= ->]. eauto.
Qed.

Lemma getitem_Raise df c e : getitem df c = Raise e -> e = KeyError.
Proof.
  induction df as [|[l col] df IH]; simpl; [congruence|].
  destruct (PyStr.eqb c l); [discriminate|exact IH].
Qed.

Lemma iloc_Raise {A} (s : list A) i e : iloc s i = Raise e -> e = IndexError.
Proof.
  unfold iloc. destruct (_ || _)%bool; [congruence|].
  destruct (nth_error _ _); congruence.
Qed.

Lemma float_of_Raise v e : float_of v = Raise e -> e = TypeError.
Proof. destruct v; simpl; congruence. Qed.

Lemma astype_float_Raise c e : astype_float c = Raise e -> e = TypeError.
Proof. destruct c; simpl; congruence. Qed.

Lemma date_of_Raise v e : date_of v = Raise e -> e = AttributeError.
Proof. destruct v; simpl; congruence. Qed.

Lemma to_int_Raise x e :
  PyFloat.to_int x = Raise e -> e = ValueError \/ e = OverflowError.
Proof.
  unfold PyFloat.to_int. destruct (Prim2SF x); intros [= <-]; auto.
Qed.

(** The accessors and conversions never [continue]. *)
Ltac no_continue :=
  match goal with
  | E : getitem _ _ = Continue _ |- _ =>
      exfalso; exact (FrameFacts.getitem_not_Continue _ _ _ E)
  | E : iloc _ _ = Continue _ |- _ =>
      exfalso; exact (SeriesFacts.iloc_not_Continue _ _ _ E)
  | E : astype_float ?c = Continue _ |- _ => destruct c; discriminate E
  | E : float_of ?c = Continue _ |- _ => destruct c; discriminate E
  | E : date_of ?c = Continue _ |- _ => destruct c; discriminate E
  | E : PyFloat.to_int ?c = Continue _ |- _ =>
      unfold PyFloat.to_int in E; destruct (Prim2SF c); discriminate E
  | E : safe_pct_change _ _ = Continue _ |- _ =>
      rewrite safe_pct_change_eq in E; discriminate E
  end.

(** The first guard fires exactly on an empty or short frame. *)
Lemma evaluate_ShortHistory cfg t df :
  evaluate cfg t df = Continue ShortHistory <->
  (empty df || (Z.of_nat (nrows df) <? min_bars cfg)%Z) = true.
Proof.
  split.
  - destruct (empty df || _)%bool eqn:G; [reflexivity|].
    unfold evaluate. rewrite G. cbn [bind continue_if].
    repeat ev_step; intros H; try discriminate H; no_continue.
  - intros G. unfold evaluate. rewrite G. reflexivity.
Qed.

(** From the outcomes of the accessors to the series they read. *)
Ltac read_series :=
  repeat match goal with
  | E : astype_float _ = Ret _ |- _ => apply astype_float_Ret in E; subst
  | E : float_of _ = Ret _ |- _ => apply float_of_Ret in E; subst
  | E : safe_pct_change _ _ = Ret _ |- _ =>
      rewrite safe_pct_change_eq in E; injection E as E; subst
  | E : iloc (col_cells ?c) _ = Ret (CNum _) |- _ =>
      let xs := fresh "xs" in let K := fresh "K" in
      apply iloc_cells_num in E as (xs & K & E);
      first [ subst c | injection K as K; subst ]
  end.

Lemma orb3_false a b c : (a || b || c)%bool = false -> a = false /\ b = false /\ c = false.
Proof. destruct a, b, c; simpl; auto; discriminate. Qed.

Lemma orb2_false a b : (a || b)%bool = false -> a = false /\ b = false.
Proof. destruct a, b; simpl; auto; discriminate. Qed.

(** A row comes only out of a frame that passed every guard. *)
Lemma evaluate_accepted cfg t df r :
  evaluate cfg t df = Ret r ->
  exists vol cl tc pc tv pv, accepted cfg t df r vol cl tc pc tv pv.
Proof.
  unfold evaluate. repeat ev_step; intros H; try discriminate H.
  injection H as <-. read_series.
  match goal with
  | K : PyFloat.isna (if ?p <=? 0 then _ else _) = false |- _ =>
      destruct (p <=? 0) eqn:Hpc; [vm_compute in K; discriminate|]
  end.
  apply orb3_false in G2 as (? & ? & ?). apply orb2_false in G5 as (? & ?).
  eexists _, _, _, _, _, _. econstructor; simpl; eauto.
Qed.

(** Which exception an accessor or a conversion can raise. *)
Ltac raise_kind :=
  match goal with
  | E : getitem _ _ = Raise ?e |- _ => pose proof (getitem_Raise _ _ _ E); subst e
  | E : iloc _ _ = Raise ?e |- _ => pose proof (iloc_Raise _ _ _ E); subst e
  | E : astype_float _ = Raise ?e |- _ =>
      pose proof (astype_float_Raise _ _ E); subst e
  | E : float_of _ = Raise ?e |- _ => pose proof (float_of_Raise _ _ E); subst e
  | E : date_of _ = Raise ?e |- _ => pose proof (date_of_Raise _ _ E); subst e
  | E : PyFloat.to_int _ = Raise ?e |- _ =>
      destruct (to_int_Raise _ _ E); subst e
  | E : safe_pct_change _ _ = Raise _ |- _ =>
      rewrite safe_pct_change_eq in E; discriminate E
  end.

Lemma col_cells_length c : length (col_cells c) = col_len c.
Proof. destruct c; simpl; apply length_map. Qed.

Lemma iloc_Raise_short {A} (s : list A) (k : Z) e :
  (0 < k)%Z -> iloc s (- k) = Raise e -> (Z.of_nat (length s) < k)%Z.
Proof.
  intros Hk H. destruct (Z.ltb_spec (Z.of_nat (length s)) k) as [|L]; [assumption|].
  destruct s as [|d s]; [simpl in L; lia|].
  rewrite (SeriesFacts.iloc_from_end _ k d) in H by lia. discriminate.
Qed.

(** The exceptions of the evaluator: none is a division by zero, and a
    position is out of range only in a column with fewer than two
    entries. *)
Lemma evaluate_Raise cfg t df e :
  evaluate cfg t df = Raise e ->
  e <> ZeroDivisionError /\
  (e = IndexError -> exists l c, getitem df l = Ret c /\ (col_len c < 2)%nat).
Proof.
  unfold evaluate. repeat ev_step; intros H; try discriminate H;
    injection H as <-; raise_kind; (split; [discriminate|]);
    intros K; try discriminate K.
  all: repeat match goal with
       | E : astype_float _ = Ret _ |- _ => apply astype_float_Ret in E; subst
       end.
  all: match goal with
       | E : iloc (col_cells ?c) ?i = Raise _, G : getitem _ ?l = Ret ?c |- _ =>
           exists l, c; split; [exact G|];
           apply (iloc_Raise_short _ (- i)) in E; [|lia];
           rewrite col_cells_length in E; lia
       | E : iloc ?xs ?i = Raise _, G : getitem _ ?l = Ret (NumCol ?xs) |- _ =>
           exists l, (NumCol xs); split; [exact G|];
           apply (iloc_Raise_short _ (- i)) in E; [|lia]; simpl; lia
       end.
Qed.

(** Past the guard on the averages, the base average is a positive
    number. *)
Lemma evaluate_past_4 cfg t df :
  past 4 (evaluate cfg t df) ->
  exists vol, getitem df label_Volume = Ret (NumCol vol) /\
    is_nan (base_avg cfg vol) = false /\ (base_avg cfg vol <=? 0) = false.
Proof.
  remember (evaluate cfg t df) as o eqn:H. symmetry in H. revert H.
  unfold evaluate. repeat ev_step; intros H P; subst o; simpl in P;
    try lia; try contradiction; try no_continue; read_series;
    match goal with
    | K : (_ || _ || _)%bool = false |- _ => apply orb3_false in K as (? & ? & ?)
    end; eauto.
Qed.

(** Past the guard on the spike base, the spike base is a positive
    number. *)
Lemma evaluate_past_7 cfg t df :
  past 7 (evaluate cfg t df) ->
  exists vol, getitem df label_Volume = Ret (NumCol vol) /\
    is_nan (spike_base cfg vol) = false /\ (spike_base cfg vol <=? 0) = false.
Proof.
  remember (evaluate cfg t df) as o eqn:H. symmetry in H. revert H.
  unfold evaluate. repeat ev_step; intros H P; subst o; simpl in P;
    try lia; try contradiction; try no_continue; read_series;
    match goal with
    | K : (PyFloat.isna (spike_base _ _) || _)%bool = false |- _ =>
        apply orb2_false in K as (? & ?)
    end; eauto.
Qed.

(** The guard on the day change fires only above the maximum. *)
Lemma evaluate_ChangeTooHigh cfg t df :
  evaluate cfg t df = Continue ChangeTooHigh ->
  exists cl tc pc,
    getitem df label_Close = Ret (NumCol cl) /\
    iloc cl (-1) = Ret tc /\ iloc cl (-2) = Ret pc /\
    (pc <=? 0) = false /\
    (PyFloat.of_int (max_day_change cfg) <? (tc - pc) / pc * 100) = true.
Proof.
  unfold evaluate. repeat ev_step; intros H; try discriminate H;
    try no_continue.
  read_series.
  match goal with
  | K : PyFloat.isna (if ?p <=? 0 then _ else _) = false |- _ =>
      destruct (p <=? 0) eqn:Hpc; [vm_compute in K; discriminate|]
  end.
  eexists _, _, _. eauto.
Qed.

(** The two ratios of a row are numbers. *)
Lemma evaluate_keys_defined cfg t df r :
  evaluate cfg t df = Ret r -> keys_defined r.
Proof.
  intros H. destruct (evaluate_accepted _ _ _ _ H)
    as (vol & cl & tc & pc & tv & pv & A).
  split.
  - rewrite (acc_row_today_ratio _ _ _ _ _ _ _ _ _ _ A).
    apply FloatFacts.div_defined.
    + eapply FloatFacts.to_int_finite. apply (acc_row_today _ _ _ _ _ _ _ _ _ _ A).
    + apply (acc_spike_defined _ _ _ _ _ _ _ _ _ _ A).
    + apply (acc_spike_pos _ _ _ _ _ _ _ _ _ _ A).
  - rewrite (acc_row_ratio _ _ _ _ _ _ _ _ _ _ A).
    apply FloatFacts.div_defined.
    + eapply FloatFacts.to_int_finite. apply (acc_row_recent _ _ _ _ _ _ _ _ _ _ A).
    + apply (acc_base_defined _ _ _ _ _ _ _ _ _ _ A).
    + apply (acc_base_pos _ _ _ _ _ _ _ _ _ _ A).
Qed.

End EvalFacts.

(** ** The ranker keeps the rows; the loop collects them *)

Module RunFacts.

Lemma insert_row_In a l x : In x (insert_row a l) <-> x = a \/ In x l.
Proof.
  induction l as [|b l IH]; simpl.
  - intuition congruence.
  - destruct (row_leb a b); simpl; rewrite ?IH; intuition congruence.
Qed.

Lemma sort_values_In rows x : In x (sort_values rows) <-> In x rows.
Proof.
  induction rows as [|a rows IH]; simpl; [tauto|].
  rewrite insert_row_In, IH. intuition congruence.
Qed.

Lemma firstn_In {A} k (s : list A) x : In x (firstn k s) -> In x s.
Proof.
  intros H. rewrite <- (firstn_skipn k s). apply in_or_app. now left.
Qed.

Lemma head_In {A} n (s : list A) x : In x (Pandas.head n s) -> In x s.
Proof.
  unfold Pandas.head. destruct (0 <=? n); intros H; eapply firstn_In; eauto.
Qed.

Lemma rank_In n rows x : In x (rank n rows) -> In x rows.
Proof. unfold rank. intros H. apply head_In in H. now apply sort_values_In. Qed.

Section Loop.

Variable isdigit_cp : N -> bool.
Variable download : str -> Z -> option provider_frame.
Variable st_df st_dl : list row -> option exn.
Variable cfg : config.

(** The loop shows no table, and every row it adds is the evaluator's row
    for one of the codes. *)
Lemma screen_loop_spec todo :
  forall n i rows evs out,
  screen_loop download cfg n i todo rows = (evs, out) ->
  shown evs = [] /\
  forall rows', out = inl rows' ->
  forall r, In r rows' ->
    In r rows \/
    exists t df, In t todo /\ fetched download cfg t = Ret df /\
                 evaluate cfg t df = Ret r.
Proof.
  induction todo as [|t todo IH]; intros n i rows evs out; simpl.
  - intros [= <- <-]. split; [reflexivity|]. intros rows' [= <-] r Hr. now left.
  - unfold loop_body.
    destruct (fetched download cfg t) as [df| |] eqn:Ef; cbn [bind].
    + destruct (evaluate cfg t df) as [r0| |] eqn:Ee; cbn [bind].
      * destruct (screen_loop download cfg n (S i) todo (rows ++ [r0]))
          as [evs' out'] eqn:El.
        intros [= <- <-]. destruct (IH _ _ _ _ _ El) as [Hs Hr].
        split; [simpl; exact Hs|].
        intros rows' -> r Hin. destruct (Hr _ eq_refl _ Hin) as [H|(t' & df' & H)].
        -- apply in_app_or in H as [H|[<-|[]]]; [now left|].
           right. exists t, df. auto.
        -- right. exists t', df'. intuition.
      * destruct (screen_loop download cfg n (S i) todo rows)
          as [evs' out'] eqn:El.
        intros [= <- <-]. destruct (IH _ _ _ _ _ El) as [Hs Hr].
        split; [simpl; exact Hs|].
        intros rows' -> r Hin. destruct (Hr _ eq_refl _ Hin) as [H|(t' & df' & H)].
        -- now left.
        -- right. exists t', df'. intuition.
      * intros [= <- <-]. split; [reflexivity|]. discriminate.
    + exfalso. exact (FrameFacts.fetch_not_Continue _ _ _ _ Ef).
    + intros [= <- <-]. split; [reflexivity|]. discriminate.
Qed.

Lemma shown_app a b : shown (a ++ b) = shown a ++ shown b.
Proof. unfold shown. apply flat_map_app. Qed.

(** The events of the two widgets carry the ranked table and nothing
    else. *)
Lemma show_table_events rows :
  exists k, fst (show_table st_df st_dl cfg rows)
            = firstn k [Dataframe (rank (top_n cfg) rows);
                        DownloadButton (rank (top_n cfg) rows); Footer].
Proof.
  unfold show_table. destruct (st_df _); [now exists 1%nat|].
  destruct (st_dl _); [now exists 2%nat|now exists 3%nat].
Qed.

Lemma shown_show_table rows r :
  In r (shown (fst (show_table st_df st_dl cfg rows))) ->
  In r (rank (top_n cfg) rows).
Proof.
  unfold show_table. destruct (st_df _); [|destruct (st_dl _)];
    cbn [fst shown flat_map]; rewrite ?app_nil_r; intros H;
    repeat (apply in_app_or in H as [H|H]); try exact H; destruct H.
Qed.

(** Every row of the table is the evaluator's row for its ticker. *)
Lemma shown_rows text run r :
  In r (shown (fst (main isdigit_cp download st_df st_dl cfg text run))) ->
  exists df, fetched download cfg (Ticker r) = Ret df /\
             evaluate cfg (Ticker r) df = Ret r.
Proof.
  unfold main. destruct run; [|simpl; tauto].
  destruct (parse_codes isdigit_cp text) as [|c codes] eqn:Ec; [simpl; tauto|].
  destruct (screen_loop download cfg (length (c :: codes)) 1 (c :: codes) [])
    as [evs out] eqn:El.
  destruct (screen_loop_spec _ _ _ _ _ _ El) as [Hs Hr].
  destruct out as [rows|e].
  - assert (K : forall x, In x rows ->
      exists df, fetched download cfg (Ticker x) = Ret df /\
                 evaluate cfg (Ticker x) df = Ret x).
    { intros x Hx. destruct (Hr _ eq_refl _ Hx) as [[]|(t & df & _ & Hf & He)].
      destruct (EvalFacts.evaluate_accepted _ _ _ _ He)
        as (vol & cl & tc & pc & tv & pv & A).
      rewrite (acc_ticker _ _ _ _ _ _ _ _ _ _ A). eauto. }
    destruct rows as [|r0 rows].
    + cbn [fst]. change (StInfo ?n :: ?l) with ([StInfo n] ++ l).
      rewrite !shown_app, Hs. simpl. tauto.
    + destruct (show_table st_df st_dl cfg (r0 :: rows)) as [tl e] eqn:Et.
      cbn [fst]. change (StInfo ?n :: ?l) with ([StInfo n] ++ l).
      rewrite !shown_app, Hs. simpl.
      intros H. apply K. eapply rank_In. apply shown_show_table.
      now rewrite Et.
  - cbn [fst]. change (StInfo ?n :: ?l) with ([StInfo n] ++ l).
    rewrite shown_app, Hs. simpl. tauto.
Qed.

(** A ticker is in the table only if the evaluator returned its row. *)
Lemma included_evaluate text t df :
  included isdigit_cp download st_df st_dl cfg text t ->
  fetched download cfg t = Ret df ->
  exists r, evaluate cfg t df = Ret r /\ Ticker r = t.
Proof.
  intros (r & Hr & Ht) Hf. apply shown_rows in Hr as (df' & Hf' & He).
  rewrite Ht in *. exists r. split; congruence.
Qed.

End Loop.

End RunFacts.

(** ** The order of the ranking *)

Module SortFacts.

Local Open Scope float_scope.

(** On numbers, [desc_compare] is the comparison of the floats turned
    round. *)
Lemma desc_compare_num x y c :
  is_nan x = false -> is_nan y = false ->
  SFcompare (Prim2SF x) (Prim2SF y) = Some c ->
  desc_compare x y = CompOpp c.
Proof.
  intros Hx Hy E. unfold desc_compare. rewrite Hx, Hy.
  rewrite !ltb_spec. unfold SFltb.
  rewrite (FloatFacts.SFcompare_antisym (Prim2SF x) (Prim2SF y)), E.
  destruct c; reflexivity.
Qed.

Lemma desc_compare_antisym x y :
  desc_compare y x = CompOpp (desc_compare x y).
Proof.
  destruct (is_nan x) eqn:Hx, (is_nan y) eqn:Hy;
    try (unfold desc_compare; rewrite Hx, Hy; reflexivity).
  destruct (FloatFacts.compare_defined x y Hx Hy) as [c E].
  rewrite (desc_compare_num x y c), (desc_compare_num y x (CompOpp c)); auto.
  rewrite FloatFacts.SFcompare_antisym, E. reflexivity.
Qed.

Lemma desc_compare_trans x y z :
  desc_compare x y <> Gt -> desc_compare y z <> Gt ->
  desc_compare x z
  = match desc_compare x y with Eq => desc_compare y z | _ => Lt end.
Proof.
  destruct (is_nan x) eqn:Hx, (is_nan y) eqn:Hy, (is_nan z) eqn:Hz;
    try (unfold desc_compare; rewrite ?Hx, ?Hy, ?Hz; congruence).
  - (* only z is missing *)
    assert (Exz : desc_compare x z = Lt)
      by (unfold desc_compare; rewrite Hx, Hz; reflexivity).
    assert (Eyz : desc_compare y z = Lt)
      by (unfold desc_compare; rewrite Hy, Hz; reflexivity).
    rewrite Exz, Eyz. intros _ _. destruct (desc_compare x y); reflexivity.
  - destruct (FloatFacts.compare_defined x y Hx Hy) as [c1 E1].
    destruct (FloatFacts.compare_defined y z Hy Hz) as [c2 E2].
    rewrite (desc_compare_num x y c1), (desc_compare_num y z c2); auto.
    intros N1 N2.
    rewrite (desc_compare_num x z (match c1 with Eq => c2 | _ => Gt end)); auto.
    + destruct c1, c2; simpl in *; congruence.
    + apply (FloatFacts.SFcompare_trans_ge _ (Prim2SF y)); auto;
        destruct c1, c2; simpl in *; congruence.
Qed.

Lemma row_compare_antisym a b : row_compare b a = CompOpp (row_compare a b).
Proof.
  unfold row_compare.
  rewrite (desc_compare_antisym (today_ratio a) (today_ratio b)).
  rewrite (desc_compare_antisym (recent_ratio a) (recent_ratio b)).
  destruct (desc_compare (today_ratio a) (today_ratio b)); reflexivity.
Qed.

Lemma row_leb_total a b : row_leb a b = true \/ row_leb b a = true.
Proof.
  unfold row_leb. rewrite (row_compare_antisym a b).
  destruct (row_compare a b); simpl; auto.
Qed.

Lemma row_leb_trans a b c :
  row_leb a b = true -> row_leb b c = true -> row_leb a c = true.
Proof.
  unfold row_leb, row_compare.
  pose proof (desc_compare_trans (today_ratio a) (today_ratio b) (today_ratio c)) as T.
  pose proof (desc_compare_trans (recent_ratio a) (recent_ratio b) (recent_ratio c)) as R.
  destruct (desc_compare (today_ratio a) (today_ratio b)) eqn:E1;
    destruct (desc_compare (today_ratio b) (today_ratio c)) eqn:E2;
    try discriminate; try (rewrite T by discriminate; reflexivity);
    rewrite T by discriminate.
  destruct (desc_compare (recent_ratio a) (recent_ratio b)) eqn:E3;
    destruct (desc_compare (recent_ratio b) (recent_ratio c)) eqn:E4;
    try discriminate; rewrite R by discriminate; reflexivity.
Qed.

Lemma insert_row_Permutation a l : Permutation (insert_row a l) (a :: l).
Proof.
  induction l as [|b l IH]; simpl; [reflexivity|].
  destruct (row_leb a b); [reflexivity|].
  rewrite IH. apply perm_swap.
Qed.

Lemma sort_values_Permutation rows : Permutation (sort_values rows) rows.
Proof.
  induction rows as [|a rows IH]; simpl; [reflexivity|].
  rewrite insert_row_Permutation. now constructor.
Qed.

Lemma insert_row_sorted a l :
  StronglySorted (fun x y => row_leb x y = true) l ->
  StronglySorted (fun x y => row_leb x y = true) (insert_row a l).
Proof.
  induction 1 as [|b l Hs IH Hb]; simpl; [repeat constructor|].
  destruct (row_leb a b) eqn:E.
  - constructor; [now constructor|]. constructor; [exact E|].
    eapply Forall_impl; [|exact Hb]. intros x Hx.
    eapply row_leb_trans; eauto.
  - constructor; [exact IH|].
    apply Forall_forall. intros x Hx.
    apply RunFacts.insert_row_In in Hx as [->|Hx].
    + destruct (row_leb_total a b); congruence.
    + rewrite Forall_forall in Hb. auto.
Qed.

Lemma sort_values_sorted rows :
  StronglySorted (fun x y => row_leb x y = true) (sort_values rows).
Proof.
  induction rows as [|a rows IH]; simpl; [constructor|].
  now apply insert_row_sorted.
Qed.

(** On rows whose keys are numbers the comparison is the order of the
    claim. *)
Lemma row_leb_ranks_before a b :
  keys_defined a -> keys_defined b ->
  row_leb a b = true -> ranks_before a b.
Proof.
  intros [Ha1 Ha2] [Hb1 Hb2]. unfold row_leb, row_compare, ranks_before.
  unfold desc_compare. rewrite Ha1, Ha2, Hb1, Hb2.
  destruct (today_ratio b <? today_ratio a) eqn:E1; [auto|].
  destruct (today_ratio a <? today_ratio b) eqn:E2; [discriminate|].
  destruct (recent_ratio b <? recent_ratio a) eqn:E3.
  - intros _. right. split.
    + apply FloatFacts.ltb_false_eqb; auto.
    + now apply FloatFacts.ltb_true_leb.
  - destruct (recent_ratio a <? recent_ratio b) eqn:E4; [discriminate|].
    intros _. right. split.
    + apply FloatFacts.ltb_false_eqb; auto.
    + apply FloatFacts.ltb_false_leb; auto.
Qed.

Lemma StronglySorted_weaken {A} (R R' : A -> A -> Prop) l :
  (forall a b, In a l -> In b l -> R a b -> R' a b) ->
  StronglySorted R l -> StronglySorted R' l.
Proof.
  intros H Hs. induction Hs as [|a l Hs IH Ha]; constructor.
  - apply IH. intros x y Hx Hy. apply H; now right.
  - rewrite Forall_forall in *. intros x Hx.
    apply H; [now left|now right|auto].
Qed.

Lemma StronglySorted_nth {A} (R : A -> A -> Prop) l :
  StronglySorted R l ->
  forall i j a b, (i < j)%nat ->
  nth_error l i = Some a -> nth_error l j = Some b -> R a b.
Proof.
  induction 1 as [|x l Hs IH Hx]; intros i j a b Hij Hi Hj.
  - destruct i; discriminate.
  - destruct j as [|j]; [lia|]. simpl in Hj. destruct i as [|i]; simpl in Hi.
    + injection Hi as <-. rewrite Forall_forall in Hx. apply Hx.
      eapply nth_error_In; eauto.
    + eapply (IH i j); eauto. lia.
Qed.

Lemma nth_error_firstn_Some {A} k (l : list A) i a :
  nth_error (firstn k l) i = Some a -> nth_error l i = Some a.
Proof.
  revert k l. induction i as [|i IH]; intros [|k] [|x l]; simpl;
    try discriminate; auto. apply IH.
Qed.

End SortFacts.

(** ** The parser: lines, entries and the sorted set *)

Module ParserFacts.

Lemma trimmed_cons_nil l : trimmed_entries ([] :: l) = trimmed_entries l.
Proof. reflexivity. Qed.

Lemma trimmed_cons r l :
  trimmed_entries (r :: l) = trimmed_entries [r] ++ trimmed_entries l.
Proof. unfold trimmed_entries. simpl. destruct (nonempty (PyStr.strip r)); reflexivity. Qed.

Lemma trimmed_cons_eq r l1 l2 :
  trimmed_entries l1 = trimmed_entries l2 ->
  trimmed_entries (r :: l1) = trimmed_entries (r :: l2).
Proof. intros H. rewrite (trimmed_cons r l1), (trimmed_cons r l2). now f_equal. Qed.

Lemma comma_not_linebreak : PyStr.is_linebreak 44 = false.
Proof. reflexivity. Qed.

Lemma separator_cases c :
  is_separator c = true ->
  PyStr.is_linebreak (if (c =? 44)%N then 10%N else c) = true.
Proof.
  unfold is_separator. destruct (N.eqb_spec c 44); [reflexivity|].
  simpl. auto.
Qed.

Lemma not_separator c :
  is_separator c = false ->
  (c =? 44)%N = false /\ PyStr.is_linebreak c = false.
Proof. unfold is_separator. apply orb_false_iff. Qed.

(** The lines of the text with its commas turned into line feeds and the
    pieces between separators differ in empty entries only. *)
Lemma lines_pieces n :
  forall s cur, (length s <= n)%nat ->
  trimmed_entries (PyStr.splitlines_from cur (PyStr.replace_char 44 10 s))
  = trimmed_entries (pieces_from cur s).
Proof.
  induction n as [|n IH]; intros s cur Hn.
  - destruct s; [|simpl in Hn; lia]. simpl. destruct cur; reflexivity.
  - destruct s as [|c rest]; [simpl; destruct cur; reflexivity|].
    simpl in Hn. cbn [PyStr.replace_char map pieces_from PyStr.splitlines_from].
    fold (PyStr.replace_char 44 10 rest).
    destruct (is_separator c) eqn:Hc.
    + rewrite (separator_cases c Hc). cbv iota.
      apply trimmed_cons_eq.
      destruct ((if (c =? 44)%N then 10%N else c) =? 13)%N; [|apply IH; lia].
      destruct rest as [|d rest2]; [apply (IH [] []); simpl; lia|].
      cbn [PyStr.replace_char map]. fold (PyStr.replace_char 44 10 rest2).
      destruct ((if (d =? 44)%N then 10%N else d) =? 10)%N eqn:Hd.
      * assert (Hs : is_separator d = true).
        { unfold is_separator. destruct (N.eqb_spec d 44); [reflexivity|].
          apply N.eqb_eq in Hd. subst d. reflexivity. }
        cbn [pieces_from]. rewrite Hs, trimmed_cons_nil.
        apply IH. simpl in Hn. lia.
      * change ((if (d =? 44)%N then 10%N else d) :: PyStr.replace_char 44 10 rest2)
          with (PyStr.replace_char 44 10 (d :: rest2)).
        apply IH. lia.
    + destruct (not_separator c Hc) as [H1 H2]. rewrite H1, H2. cbv iota.
      apply IH. lia.
Qed.

Lemma pieces_from_app cur a sep b :
  is_separator sep = true ->
  pieces_from cur (a ++ sep :: b) = pieces_from cur a ++ pieces_from [] b.
Proof.
  intros Hs. revert cur. induction a as [|c a IH]; intros cur; simpl.
  - now rewrite Hs.
  - destruct (is_separator c); simpl; now rewrite IH.
Qed.

Lemma pieces_from_plain cur s :
  forallb (fun c => negb (is_separator c)) s = true ->
  pieces_from cur s = [rev cur ++ s].
Proof.
  revert cur. induction s as [|c s IH]; intros cur; simpl.
  - now rewrite app_nil_r.
  - rewrite andb_true_iff, negb_true_iff. intros [-> H].
    rewrite IH by exact H. simpl. now rewrite <- app_assoc.
Qed.

Lemma trimmed_app a b : trimmed_entries (a ++ b) = trimmed_entries a ++ trimmed_entries b.
Proof. unfold trimmed_entries. now rewrite map_app, filter_app. Qed.

Section Digits.

Variable isdigit_cp : N -> bool.

Lemma parse_step_qualify codes r :
  parse_step isdigit_cp codes r
  = codes ++ map (qualify isdigit_cp) (trimmed_entries [r]).
Proof.
  unfold parse_step, trimmed_entries, qualify, isdigit. simpl.
  destruct (PyStr.strip r) as [|c r'] eqn:E; simpl; [now rewrite app_nil_r|].
  destruct (isdigit_cp c && forallb isdigit_cp r');
    destruct (length r') as [|[|[|[|k]]]]; reflexivity.
Qed.

Lemma fold_parse_step raw codes :
  fold_left (parse_step isdigit_cp) raw codes
  = codes ++ map (qualify isdigit_cp) (trimmed_entries raw).
Proof.
  revert codes. induction raw as [|r raw IH]; intros codes; simpl.
  - now rewrite app_nil_r.
  - rewrite IH, parse_step_qualify, (trimmed_cons r raw), map_app, app_assoc.
    reflexivity.
Qed.

Lemma parse_codes_entries text :
  parse_codes isdigit_cp text
  = PyStr.sorted_set (map (qualify isdigit_cp) (entries text)).
Proof.
  unfold parse_codes, entries, PyStr.splitlines, pieces.
  rewrite fold_parse_step. simpl.
  fold (trimmed_entries (pieces_from [] text)).
  now rewrite (lines_pieces (length text) text []).
Qed.

End Digits.

(** [sorted(set(l))] *)

Lemma insert_In x l z : In z (PyStr.insert x l) <-> z = x \/ In z l.
Proof.
  induction l as [|y l IH]; simpl; [intuition congruence|].
  destruct (PyStr.compare x y) eqn:E; simpl.
  - apply StrFacts.compare_eq in E. subst. intuition congruence.
  - intuition congruence.
  - rewrite IH. intuition congruence.
Qed.

Lemma insert_sorted x l :
  StronglySorted PyStr.lt l -> StronglySorted PyStr.lt (PyStr.insert x l).
Proof.
  induction 1 as [|y l Hs IH Hy]; simpl; [repeat constructor|].
  destruct (PyStr.compare x y) eqn:E.
  - now constructor.
  - constructor; [now constructor|]. constructor; [exact E|].
    eapply Forall_impl; [|exact Hy]. intros z Hz.
    eapply StrFacts.lt_trans; eauto.
  - constructor; [exact IH|]. apply Forall_forall. intros z Hz.
    apply insert_In in Hz as [->|Hz].
    + unfold PyStr.lt. rewrite StrFacts.compare_antisym, E. reflexivity.
    + rewrite Forall_forall in Hy. auto.
Qed.

Lemma sorted_set_In l z : In z (PyStr.sorted_set l) <-> In z l.
Proof.
  induction l as [|x l IH]; simpl; [tauto|].
  rewrite insert_In, IH. intuition congruence.
Qed.

Lemma sorted_set_sorted l : StronglySorted PyStr.lt (PyStr.sorted_set l).
Proof.
  induction l as [|x l IH]; simpl; [constructor|]. now apply insert_sorted.
Qed.

(** A strictly increasing list is determined by its elements. *)
Lemma sorted_unique l1 :
  forall l2, StronglySorted PyStr.lt l1 -> StronglySorted PyStr.lt l2 ->
  (forall z, In z l1 <-> In z l2) -> l1 = l2.
Proof.
  induction l1 as [|x l1 IH]; intros [|y l2] H1 H2 H.
  - reflexivity.
  - exfalso. apply (H y). now left.
  - exfalso. apply (H x). now left.
  - inversion H1 as [|? ? S1 F1]; inversion H2 as [|? ? S2 F2]; subst.
    rewrite Forall_forall in F1, F2.
    assert (x = y).
    { destruct (proj1 (H x) (or_introl eq_refl)) as [E|Hx]; [now symmetry|].
      destruct (proj2 (H y) (or_introl eq_refl)) as [E|Hy]; [exact E|].
      exfalso. apply (StrFacts.lt_irrefl x).
      eapply StrFacts.lt_trans; [apply F1, Hy|apply F2, Hx]. }
    subst y. f_equal. apply IH; auto.
    intros z. split; intros Hz.
    + destruct (proj1 (H z) (or_intror Hz)) as [E|K]; [|exact K].
      subst z. exfalso. apply (StrFacts.lt_irrefl x). now apply F1.
    + destruct (proj2 (H z) (or_intror Hz)) as [E|K]; [|exact K].
      subst z. exfalso. apply (StrFacts.lt_irrefl x). now apply F2.
Qed.

End ParserFacts.

(** * Properties of the screener *)

Import Pandas.
Local Open Scope float_scope.

Lemma valid_min_bars cfg : valid_config cfg -> (20 <= min_bars cfg)%Z.
Proof. unfold valid_config, min_bars. lia. Qed.

Lemma valid_max_day_change cfg :
  valid_config cfg -> (0 <=? PyFloat.of_int (max_day_change cfg)) = true.
Proof.
  intros (_ & _ & _ & _ & _ & _ & _ & _ & H & _).
  assert (K : exists k, (k < 15)%nat /\ max_day_change cfg = (1 + Z.of_nat k)%Z).
  { exists (Z.to_nat (max_day_change cfg - 1)). lia. }
  destruct K as (k & Hk & ->). clear H.
  do 15 (destruct k as [|k]; [vm_compute; reflexivity|]). lia.
Qed.

Lemma sample_valid : valid_config Sample.cfg.
Proof. unfold valid_config. simpl. repeat split; try lia; reflexivity. Qed.

(** A frame that got past the first guard has the evaluator's minimum of
    rows. *)
Lemma long_enough cfg t df :
  evaluate cfg t df <> Continue ShortHistory ->
  (min_bars cfg <= Z.of_nat (nrows df))%Z.
Proof.
  intros H. destruct (Z.ltb_spec (Z.of_nat (nrows df)) (min_bars cfg)) as [L|L];
    [|exact L].
  exfalso. apply H. apply EvalFacts.evaluate_ShortHistory.
  destruct (Z.ltb_spec (Z.of_nat (nrows df)) (min_bars cfg)); [|lia].
  apply orb_true_r.
Qed.

(** C1. For every series the evaluator works on, the recent average is the
    mean of the last [recent_days] volumes, the base average the mean of
    the [base_days] volumes just before them, and the spike-base average
    the mean of the [spike_days] volumes that end with yesterday's; the
    row the evaluator returns is computed from these three means. *)
Theorem C1_window_averages download cfg t df vol :
  valid_config cfg ->
  fetch_ohlcv download t (lookback_days cfg) = Ret df ->
  getitem df label_Volume = Ret (NumCol vol) ->
  evaluate cfg t df <> Continue ShortHistory ->
  let n := length vol in
  let recent := Z.to_nat (recent_days cfg) in
  let base := Z.to_nat (base_days cfg) in
  let spike := Z.to_nat (spike_days cfg) in
  (recent + base <= n)%nat /\ (spike + 1 <= n)%nat /\
  recent_avg cfg vol = average (window vol (n - recent) recent) /\
  base_avg cfg vol = average (window vol (n - recent - base) base) /\
  spike_base cfg vol = average (window vol (n - 1 - spike) spike) /\
  forall r, evaluate cfg t df = Ret r ->
    PyFloat.to_int (average (window vol (n - recent) recent))
      = Ret (recent_avg_volume r) /\
    PyFloat.to_int (average (window vol (n - recent - base) base))
      = Ret (base_avg_volume r) /\
    recent_ratio r = average (window vol (n - recent) recent)
                     / average (window vol (n - recent - base) base) /\
    today_ratio r = nth (n - 1) vol nan
                    / average (window vol (n - 1 - spike) spike).
Proof.
  intros Hv Hf Hg Hs n recent base spike.
  pose proof (long_enough _ _ _ Hs) as Hl.
  destruct (FrameFacts.fetched_floats _ _ _ _ _ _ Hf Hg) as [Hn Hall].
  fold n in Hn. rewrite <- Hn in Hl.
  pose proof Hv as (_ & Hr & Hb & _ & _ & Hsp & _).
  assert (Hm : (recent_days cfg + base_days cfg + 5 <= min_bars cfg
                /\ spike_days cfg + 5 <= min_bars cfg)%Z)
    by (unfold min_bars; lia).
  assert (Hw : forall lo len, (lo + len <= n)%nat -> (0 < len)%nat ->
            mean (window vol lo len) = average (window vol lo len)).
  { intros lo len Hlo Hlen. apply SeriesFacts.mean_average.
    - apply Forall_forall. intros x Hx. rewrite Forall_forall in Hall.
      apply Hall. eapply SeriesFacts.window_In; eauto.
    - intros E. apply (f_equal (@length _)) in E.
      rewrite SeriesFacts.window_length in E. simpl in E. lia. }
  assert (E1 : recent_avg cfg vol = average (window vol (n - recent) recent)).
  { unfold recent_avg. rewrite SeriesFacts.tail_window by (fold n; lia).
    apply Hw; subst recent; lia. }
  assert (E2 : base_avg cfg vol = average (window vol (n - recent - base) base)).
  { unfold base_avg, base_window.
    rewrite SeriesFacts.head_tail_window by (fold n; lia).
    fold n. replace (n - Z.to_nat (recent_days cfg + base_days cfg))%nat
      with (n - recent - base)%nat by (subst recent base; lia).
    apply Hw; subst recent base; lia. }
  assert (E3 : spike_base cfg vol = average (window vol (n - 1 - spike) spike)).
  { unfold spike_base, spike_base_window.
    rewrite SeriesFacts.head_tail_window by (fold n; lia).
    fold n. replace (n - Z.to_nat (spike_days cfg + 1))%nat
      with (n - 1 - spike)%nat by (subst spike; lia).
    apply Hw; subst spike; lia. }
  repeat split; try (subst recent base spike; lia); auto.
  all: destruct (EvalFacts.evaluate_accepted _ _ _ _ H)
         as (vol' & cl & tc & pc & tv & pv & A);
       pose proof (acc_volume _ _ _ _ _ _ _ _ _ _ A) as Hg';
       rewrite Hg in Hg'; injection Hg' as <-.
  - rewrite <- E1. apply (acc_row_recent _ _ _ _ _ _ _ _ _ _ A).
  - rewrite <- E2. apply (acc_row_base _ _ _ _ _ _ _ _ _ _ A).
  - rewrite <- E1, <- E2. apply (acc_row_ratio _ _ _ _ _ _ _ _ _ _ A).
  - rewrite <- E3, (acc_row_today_ratio _ _ _ _ _ _ _ _ _ _ A). f_equal.
    pose proof (acc_tv _ _ _ _ _ _ _ _ _ _ A) as Htv.
    change (-1)%Z with (Z.opp 1) in Htv.
    rewrite (SeriesFacts.iloc_from_end vol 1 nan) in Htv by (fold n; lia).
    injection Htv as <-. reflexivity.
Qed.

Lemma C1_witness :
  recent_avg Sample.cfg Sample.vols = average (window Sample.vols 25 5) /\
  base_avg Sample.cfg Sample.vols = average (window Sample.vols 5 20) /\
  spike_base Sample.cfg Sample.vols = average (window Sample.vols 9 20).
Proof.
  assert (Hf : fetch_ohlcv (Sample.download_of Sample.response) Sample.ticker
                 (lookback_days Sample.cfg) = Ret Sample.frame)
    by (vm_compute; reflexivity).
  assert (Hg : getitem Sample.frame label_Volume = Ret (NumCol Sample.vols))
    by (vm_compute; reflexivity).
  assert (Hs : evaluate Sample.cfg Sample.ticker Sample.frame
               <> Continue ShortHistory) by (vm_compute; discriminate).
  pose proof (C1_window_averages _ Sample.cfg Sample.ticker _ _
                sample_valid Hf Hg Hs) as (_ & _ & H1 & H2 & H3 & _).
  exact (conj H1 (conj H2 H3)).
Defined.

(** What a row in the table tells about the frame of its ticker. *)
Lemma included_accepted isdigit_cp download st_df st_dl cfg text t df :
  included isdigit_cp download st_df st_dl cfg text t ->
  fetch_ohlcv download t (lookback_days cfg) = Ret df ->
  exists r vol cl tc pc tv pv, accepted cfg t df r vol cl tc pc tv pv.
Proof.
  intros Hi Hf.
  destruct (RunFacts.included_evaluate _ _ _ _ _ _ _ _ Hi Hf) as (r & He & _).
  exists r. now apply EvalFacts.evaluate_accepted.
Qed.

(** C2. A symbol has a row in the output only if the volume of the day
    before is at least the spike-base average; when that volume is strictly
    below the spike-base average the symbol has no row, whatever the other
    conditions say. *)
Theorem C2_continuity isdigit_cp download st_df st_dl cfg text t df vol pv :
  fetch_ohlcv download t (lookback_days cfg) = Ret df ->
  getitem df label_Volume = Ret (NumCol vol) ->
  iloc vol (-2) = Ret pv ->
  (included isdigit_cp download st_df st_dl cfg text t ->
     (spike_base cfg vol <=? pv) = true) /\
  ((pv <? spike_base cfg vol) = true ->
     ~ included isdigit_cp download st_df st_dl cfg text t).
Proof.
  intros Hf Hg Hp.
  assert (K : included isdigit_cp download st_df st_dl cfg text t ->
              is_nan (spike_base cfg vol) = false /\
              (pv <? spike_base cfg vol) = false).
  { intros Hi.
    destruct (included_accepted _ _ _ _ _ _ _ _ Hi Hf)
      as (r & vol' & cl & tc & pc & tv & pv' & A).
    pose proof (acc_volume _ _ _ _ _ _ _ _ _ _ A) as Hg'.
    rewrite Hg in Hg'. injection Hg' as <-.
    pose proof (acc_pv _ _ _ _ _ _ _ _ _ _ A) as Hp'.
    rewrite Hp in Hp'. injection Hp' as <-.
    split; [apply (acc_spike_defined _ _ _ _ _ _ _ _ _ _ A)
           |apply (acc_continuity _ _ _ _ _ _ _ _ _ _ A)]. }
  split.
  - intros Hi. destruct (K Hi) as [Hn Hc].
    apply FloatFacts.ltb_false_leb; auto.
    destruct (FrameFacts.fetched_floats _ _ _ _ _ _ Hf Hg) as [_ Hall].
    rewrite Forall_forall in Hall. apply Hall.
    eapply SeriesFacts.iloc_In; eauto.
  - intros Hlt Hi. destruct (K Hi) as [_ Hc]. congruence.
Qed.

Lemma C2_witness :
  (spike_base Sample.cfg Sample.vols <=? 200000) = true /\
  ~ included ascii_digit (Sample.download_of Sample.quiet_response)
      Sample.st_widget Sample.st_widget
      Sample.cfg Sample.text Sample.ticker.
Proof.
  split.
  - refine (proj1 (C2_continuity ascii_digit (Sample.download_of Sample.response)
                     Sample.st_widget Sample.st_widget
                     Sample.cfg Sample.text Sample.ticker Sample.frame
                     Sample.vols 200000 _ _ _) _);
      try (vm_compute; reflexivity).
    eexists. split; [vm_compute; left; reflexivity|reflexivity].
  - refine (proj2 (C2_continuity ascii_digit
                     (Sample.download_of Sample.quiet_response)
                     Sample.st_widget Sample.st_widget
                     Sample.cfg Sample.text Sample.ticker Sample.quiet_frame
                     Sample.quiet_vols 100000 _ _ _) _);
      vm_compute; reflexivity.
Defined.

(** C3. The day change of a row is (today's close - previous close) /
    previous close * 100; a symbol whose day change is strictly above the
    maximum has no row; the guard on the day change fires only above the
    maximum, so a negative day change never makes it fire. *)
Theorem C3_day_change isdigit_cp download st_df st_dl cfg text t df cl tc pc :
  valid_config cfg ->
  fetch_ohlcv download t (lookback_days cfg) = Ret df ->
  getitem df label_Close = Ret (NumCol cl) ->
  iloc cl (-1) = Ret tc ->
  iloc cl (-2) = Ret pc ->
  let pct := (tc - pc) / pc * 100 in
  (forall r, In r (shown (fst (main isdigit_cp download st_df st_dl cfg text true))) ->
     Ticker r = t -> day_change_pct r = pct) /\
  ((PyFloat.of_int (max_day_change cfg) <? pct) = true ->
     ~ included isdigit_cp download st_df st_dl cfg text t) /\
  (evaluate cfg t df = Continue ChangeTooHigh ->
     (PyFloat.of_int (max_day_change cfg) <? pct) = true) /\
  ((pct <? 0) = true -> evaluate cfg t df <> Continue ChangeTooHigh).
Proof.
  intros Hv Hf Hg Htc Hpc pct.
  assert (K : forall r, evaluate cfg t df = Ret r ->
              day_change_pct r = pct /\
              (PyFloat.of_int (max_day_change cfg) <? pct) = false).
  { intros r He.
    destruct (EvalFacts.evaluate_accepted _ _ _ _ He)
      as (vol & cl' & tc' & pc' & tv & pv & A).
    pose proof (acc_close _ _ _ _ _ _ _ _ _ _ A) as Hg'.
    rewrite Hg in Hg'. injection Hg' as <-.
    pose proof (acc_tc _ _ _ _ _ _ _ _ _ _ A) as H1.
    rewrite Htc in H1. injection H1 as <-.
    pose proof (acc_pc _ _ _ _ _ _ _ _ _ _ A) as H2.
    rewrite Hpc in H2. injection H2 as <-.
    split; [apply (acc_row_pct _ _ _ _ _ _ _ _ _ _ A)
           |apply (acc_pct_max _ _ _ _ _ _ _ _ _ _ A)]. }
  assert (L : evaluate cfg t df = Continue ChangeTooHigh ->
              (PyFloat.of_int (max_day_change cfg) <? pct) = true).
  { intros He.
    destruct (EvalFacts.evaluate_ChangeTooHigh _ _ _ He)
      as (cl' & tc' & pc' & Hg' & H1 & H2 & _ & H).
    rewrite Hg in Hg'. injection Hg' as <-.
    rewrite Htc in H1. injection H1 as <-.
    rewrite Hpc in H2. injection H2 as <-. exact H. }
  repeat split.
  - intros r Hr Ht. apply RunFacts.shown_rows in Hr as (df' & Hf' & He).
    rewrite Ht in *. unfold fetched in Hf'. rewrite Hf in Hf'.
    injection Hf' as <-.
    apply (K r He).
  - intros Hgt Hi.
    destruct (RunFacts.included_evaluate _ _ _ _ _ _ _ _ Hi Hf) as (r & He & _).
    destruct (K r He) as [_ H]. congruence.
  - exact L.
  - intros Hneg He. specialize (L He).
    pose proof (FloatFacts.ltb_leb_trans _ _ _ Hneg (valid_max_day_change _ Hv)) as H.
    apply FloatFacts.ltb_true_leb in H.
    apply FloatFacts.ltb_true_leb_false in L. congruence.
Qed.

Lemma C3_witness :
  ~ included ascii_digit (Sample.download_of Sample.jump_response)
      Sample.st_widget Sample.st_widget
      Sample.cfg Sample.text Sample.ticker.
Proof.
  refine (proj1 (proj2 (C3_day_change ascii_digit
            (Sample.download_of Sample.jump_response) Sample.st_widget Sample.st_widget
            Sample.cfg Sample.text Sample.ticker Sample.jump_frame
            Sample.jump_closes 107 100 sample_valid _ _ _ _)) _);
    vm_compute; reflexivity.
Defined.

(** A fall by half does not keep a symbol out of the table. *)
Example falling_symbol_included :
  included ascii_digit (Sample.download_of Sample.drop_response)
    Sample.st_widget Sample.st_widget
    Sample.cfg Sample.text Sample.ticker.
Proof.
  eexists. split; [vm_compute; left; reflexivity|reflexivity].
Qed.

(** C4. A symbol whose fetched series has fewer than
    max(recent + base + 5, spike + 5, base + 10) bars is skipped by the
    evaluator and has no row in the output. *)
Theorem C4_short_history isdigit_cp download st_df st_dl cfg text t df :
  fetch_ohlcv download t (lookback_days cfg) = Ret df ->
  (Z.of_nat (nrows df)
   < Z.max (Z.max (recent_days cfg + base_days cfg + 5) (spike_days cfg + 5))
           (base_days cfg + 10))%Z ->
  evaluate cfg t df = Continue ShortHistory /\
  ~ included isdigit_cp download st_df st_dl cfg text t.
Proof.
  intros Hf Hs.
  assert (He : evaluate cfg t df = Continue ShortHistory).
  { apply EvalFacts.evaluate_ShortHistory. unfold min_bars.
    destruct (Z.ltb_spec (Z.of_nat (nrows df))
      (Z.max (Z.max (recent_days cfg + base_days cfg + 5) (spike_days cfg + 5))
             (base_days cfg + 10))); [|lia].
    apply orb_true_r. }
  split; [exact He|].
  intros Hi.
  destruct (RunFacts.included_evaluate _ _ _ _ _ _ _ _ Hi Hf) as (r & He' & _).
  congruence.
Qed.

Lemma C4_witness :
  evaluate Sample.cfg Sample.ticker Sample.short_frame = Continue ShortHistory /\
  ~ included ascii_digit (Sample.download_of Sample.short_response)
      Sample.st_widget Sample.st_widget
      Sample.cfg Sample.text Sample.ticker.
Proof.
  apply (C4_short_history ascii_digit (Sample.download_of Sample.short_response)
           Sample.st_widget Sample.st_widget
           Sample.cfg Sample.text Sample.ticker Sample.short_frame).
  - vm_compute. reflexivity.
  - vm_compute. reflexivity.
Defined.




(** After lines 82-84 the frame always has a column labelled [Date]: a
    provider table without that label has its first column, the index,
    renamed. *)
Lemma normalize_columns_has_Date p :
  has_column label_Date (normalize_columns p) = true.
Proof.
  unfold normalize_columns, name_date.
  destruct (has_column label_Date
              ((index_label p, DateCol (index p)) :: data_columns p)) eqn:E;
    [exact E|].
  cbn [negb columns map fst]. unfold rename.
  cbn [map]. unfold has_column. cbn [columns map fst existsb].
  rewrite StrFacts.eqb_refl, StrFacts.eqb_refl. reflexivity.
Qed.




(** C8. With an empty list of codes a run reports the input error and
    stops: the trace holds the error and the stop, and no fetch. *)
Theorem C8_empty_codes isdigit_cp download st_df st_dl cfg text :
  parse_codes isdigit_cp text = [] ->
  main isdigit_cp download st_df st_dl cfg text true = ([StError; StStop], None) /\
  forall t period,
    ~ In (Fetch t period) (fst (main isdigit_cp download st_df st_dl cfg text true)).
Proof.
  intros H. unfold main. rewrite H. split; [reflexivity|].
  intros t period [K|[K|[]]]; discriminate K.
Qed.

Lemma C8_witness :
  main ascii_digit (Sample.download_of Sample.response)
      Sample.st_widget Sample.st_widget Sample.cfg
       (PyStr.of_string " , ") true = ([StError; StStop], None).
Proof.
  refine (proj1 (C8_empty_codes ascii_digit (Sample.download_of Sample.response)
                   Sample.st_widget Sample.st_widget
                   Sample.cfg (PyStr.of_string " , ") _)).
  vm_compute. reflexivity.
Defined.

(** C10. On a fetched series with the minimum number of bars the evaluator
    reads the last and the last but one entry of every column inside the
    column, raises neither an index error nor a division by zero, and
    divides by the previous close, the base average and the spike-base
    average only after a guard has found them strictly positive. *)
Theorem C10_evaluator_total download cfg t df :
  valid_config cfg ->
  fetch_ohlcv download t (lookback_days cfg) = Ret df ->
  (min_bars cfg <= Z.of_nat (nrows df))%Z ->
  (forall l c, getitem df l = Ret c ->
     exists a b, iloc (col_cells c) (-1) = Ret a /\
                 iloc (col_cells c) (-2) = Ret b) /\
  evaluate cfg t df <> Raise IndexError /\
  evaluate cfg t df <> Raise ZeroDivisionError /\
  (forall cl tc pc,
     getitem df label_Close = Ret (NumCol cl) -> iloc cl (-2) = Ret pc ->
     ((pc <=? 0) = true /\ safe_pct_change tc pc = Ret nan) \/
     ((0 <? pc) = true /\
      safe_pct_change tc pc = Ret ((tc - pc) / pc * 100))) /\
  (forall vol, getitem df label_Volume = Ret (NumCol vol) ->
     past 4 (evaluate cfg t df) -> (0 <? base_avg cfg vol) = true) /\
  (forall vol, getitem df label_Volume = Ret (NumCol vol) ->
     past 7 (evaluate cfg t df) -> (0 <? spike_base cfg vol) = true).
Proof.
  intros Hv Hf Hl. pose proof (valid_min_bars _ Hv) as Hm.
  repeat split.
  - intros l c Hg.
    destruct (FrameFacts.fetched_column _ _ _ _ _ _ Hf Hg) as [Hn _].
    rewrite <- EvalFacts.col_cells_length in Hn.
    destruct (col_cells c) as [|d cells] eqn:E; [simpl in Hn; lia|].
    rewrite <- E in *.
    exists (nth (length (col_cells c) - Z.to_nat 1) (col_cells c) d),
           (nth (length (col_cells c) - Z.to_nat 2) (col_cells c) d).
    split.
    + change (-1)%Z with (Z.opp 1). apply SeriesFacts.iloc_from_end. lia.
    + change (-2)%Z with (Z.opp 2). apply SeriesFacts.iloc_from_end. lia.
  - intros He. destruct (EvalFacts.evaluate_Raise _ _ _ _ He) as [_ K].
    destruct (K eq_refl) as (l & c & Hg & Hc).
    destruct (FrameFacts.fetched_column _ _ _ _ _ _ Hf Hg) as [Hn _]. lia.
  - intros He. destruct (EvalFacts.evaluate_Raise _ _ _ _ He) as [K _].
    now apply K.
  - intros cl tc pc Hg Hp. rewrite EvalFacts.safe_pct_change_eq.
    destruct (pc <=? 0) eqn:E; [left; auto|right].
    split; [|reflexivity]. apply FloatFacts.positive; [|exact E].
    destruct (FrameFacts.fetched_floats _ _ _ _ _ _ Hf Hg) as [_ Hall].
    rewrite Forall_forall in Hall. apply Hall.
    eapply SeriesFacts.iloc_In; eauto.
  - intros vol Hg Hp.
    destruct (EvalFacts.evaluate_past_4 _ _ _ Hp) as (vol' & Hg' & Hn & Hpos).
    rewrite Hg in Hg'. injection Hg' as <-. now apply FloatFacts.positive.
  - intros vol Hg Hp.
    destruct (EvalFacts.evaluate_past_7 _ _ _ Hp) as (vol' & Hg' & Hn & Hpos).
    rewrite Hg in Hg'. injection Hg' as <-. now apply FloatFacts.positive.
Qed.

Lemma C10_witness :
  evaluate Sample.cfg Sample.ticker Sample.frame <> Raise IndexError /\
  evaluate Sample.cfg Sample.ticker Sample.frame <> Raise ZeroDivisionError /\
  (0 <? base_avg Sample.cfg Sample.vols) = true /\
  (0 <? spike_base Sample.cfg Sample.vols) = true.
Proof.
  assert (Hf : fetch_ohlcv (Sample.download_of Sample.response) Sample.ticker
                 (lookback_days Sample.cfg) = Ret Sample.frame)
    by (vm_compute; reflexivity).
  assert (Hl : (min_bars Sample.cfg <= Z.of_nat (nrows Sample.frame))%Z)
    by (vm_compute; discriminate).
  assert (Hg : getitem Sample.frame label_Volume = Ret (NumCol Sample.vols))
    by (vm_compute; reflexivity).
  assert (Hp : forall k, past k (evaluate Sample.cfg Sample.ticker Sample.frame))
    by (intros k; vm_compute; exact I).
  pose proof (C10_evaluator_total _ Sample.cfg Sample.ticker _
                sample_valid Hf Hl) as (_ & H1 & H2 & _ & H3 & H4).
  exact (conj H1 (conj H2 (conj (H3 _ Hg (Hp _)) (H4 _ Hg (Hp _))))).
Defined.

(** C5. For passing rows the ranker returns the first N rows of the table
    sorted by descending spike ratio, rows with the same spike ratio by
    descending recent/base ratio; of two rows with equal spike ratio the
    one with the larger recent/base ratio stands higher. *)
Theorem C5_ranking n rows :
  (0 <= n)%Z ->
  Forall passing rows ->
  Permutation (sort_values rows) rows /\
  StronglySorted ranks_before (sort_values rows) /\
  rank n rows = firstn (Z.to_nat n) (sort_values rows) /\
  forall i j a b,
    nth_error (rank n rows) i = Some a ->
    nth_error (rank n rows) j = Some b ->
    (today_ratio a =? today_ratio b) = true ->
    (recent_ratio a <? recent_ratio b) = true ->
    (j < i)%nat.
Proof.
  intros Hn Hpass.
  assert (Hk : Forall keys_defined rows).
  { eapply Forall_impl; [|exact Hpass].
    intros r (cfg & t & df & He). eapply EvalFacts.evaluate_keys_defined; eauto. }
  assert (Hp : Permutation (sort_values rows) rows)
    by apply SortFacts.sort_values_Permutation.
  assert (Hs : StronglySorted ranks_before (sort_values rows)).
  { apply (SortFacts.StronglySorted_weaken (fun x y => row_leb x y = true));
      [|apply SortFacts.sort_values_sorted].
    rewrite Forall_forall in Hk.
    intros a b Ha Hb. apply SortFacts.row_leb_ranks_before;
      apply Hk; eapply Permutation_in; eauto. }
  assert (Hr : rank n rows = firstn (Z.to_nat n) (sort_values rows)).
  { unfold rank, head. destruct (Z.leb_spec 0 n); [reflexivity|lia]. }
  repeat split; auto.
  intros i j a b Hi Hj He Hl. rewrite Hr in Hi, Hj.
  apply SortFacts.nth_error_firstn_Some in Hi, Hj.
  destruct (Nat.lt_trichotomy i j) as [L|[L|L]]; [| |exact L]; exfalso.
  - destruct (SortFacts.StronglySorted_nth _ _ Hs i j a b L Hi Hj) as [H|[_ H]].
    + rewrite FloatFacts.eqb_sym in He.
      apply FloatFacts.eqb_true_ltb_false in He. congruence.
    + apply FloatFacts.ltb_true_leb_false in Hl. congruence.
  - subst j. rewrite Hi in Hj. injection Hj as <-.
    rewrite FloatFacts.ltb_irrefl in Hl. discriminate.
Qed.

Lemma C5_witness :
  StronglySorted ranks_before (sort_values [Sample.row_1; Sample.row_2]) /\
  rank 50 [Sample.row_1; Sample.row_2]
  = firstn 50 (sort_values [Sample.row_1; Sample.row_2]).
Proof.
  assert (Hk : Forall passing [Sample.row_1; Sample.row_2]).
  { repeat constructor.
    - exists Sample.cfg, (PyStr.of_string "6758.T"), Sample.busy_frame.
      vm_compute. reflexivity.
    - exists Sample.cfg, Sample.ticker, Sample.frame. vm_compute. reflexivity. }
  assert (Hn : (0 <= 50)%Z) by lia.
  pose proof (C5_ranking 50 [Sample.row_1; Sample.row_2] Hn Hk)
    as (_ & H1 & H2 & _).
  exact (conj H1 H2).
Defined.

(** The two passing rows have the same spike ratio; the second one, with
    the larger recent/base ratio, comes first. *)
Example rank_passing_rows :
  rank 50 [Sample.row_1; Sample.row_2] = [Sample.row_2; Sample.row_1] /\
  (today_ratio Sample.row_1 =? today_ratio Sample.row_2) = true /\
  (recent_ratio Sample.row_1 <? recent_ratio Sample.row_2) = true.
Proof. vm_compute. auto. Qed.

(** Row B, with the larger recent/base ratio, ranks above row A. *)
Example rank_B_above_A :
  rank 50 [Sample.row_A; Sample.row_B] = [Sample.row_B; Sample.row_A].
Proof. vm_compute. reflexivity. Qed.


Lemma StronglySorted_take {A} (R : A -> A -> Prop) (l : list A) (d : A) keep :
  StronglySorted R l -> StronglySorted lt keep ->
  (forall i, In i keep -> (i < length l)%nat) ->
  StronglySorted R (map (fun i => nth i l d) keep).
Proof.
  intros Hl Hk. induction Hk as [|i keep Hk IH Hi]; intros Hb; simpl;
    constructor.
  - apply IH. intros j Hj. apply Hb. now right.
  - apply Forall_forall. intros x Hx.
    apply in_map_iff in Hx as (j & <- & Hj).
    rewrite Forall_forall in Hi.
    assert (Li : (i < length l)%nat) by (apply Hb; now left).
    assert (Lj : (j < length l)%nat) by (apply Hb; now right).
    apply (SortFacts.StronglySorted_nth R l Hl i j); auto;
      apply nth_error_nth'; assumption.
Qed.

(** Without a data column labelled [Date], the date column the fetcher
    keeps is the provider's index. *)
Lemma normalize_columns_Date p :
  ~ In label_Date (map fst (data p)) ->
  getitem (normalize_columns p) label_Date = Ret (DateCol (index p)).
Proof.
  intros Hn. unfold normalize_columns, name_date.
  set (body := data_columns p).
  assert (Hb : has_column label_Date body = false).
  { destruct (has_column label_Date body) eqn:E; [|reflexivity].
    exfalso. apply Hn. apply FrameFacts.has_column_In in E.
    unfold body in E. now rewrite FrameFacts.data_columns_labels in E. }
  generalize (index_label p).
  intros name. unfold has_column in *. cbn [columns map fst existsb].
  fold (columns body). rewrite Hb, orb_false_r.
  destruct (PyStr.eqb label_Date name) eqn:E; cbn [negb].
  - cbn [getitem]. now rewrite E.
  - cbn [rename map getitem]. rewrite StrFacts.eqb_refl.
    now rewrite StrFacts.eqb_refl.
Qed.

(** C9 as the code has it: a fetched series holds, in the provider's
    order, exactly the provider's rows in which none of date, open, close
    and volume is missing; it is ordered as the provider's index is. *)
Theorem C9_complete_rows download t period p df :
  download t period = Some p ->
  fetch_ohlcv download t period = Ret df ->
  empty df = false ->
  ~ In label_Date (map fst (data p)) ->
  exists keep,
    StronglySorted lt keep /\
    (forall i, In i keep <->
       (i < length (index p))%nat /\
       forall l c, In l keep_cols ->
         getitem (normalize_columns p) l = Ret c -> col_isna_at c i = false) /\
    dates_of df = map (fun i => nth i (index p) None) keep /\
    (forall l xs, In l keep_cols ->
       getitem (normalize_columns p) l = Ret (NumCol xs) ->
       getitem df l = Ret (NumCol (map (fun i => nth i xs nan) keep))) /\
    (forall R, StronglySorted R (index p) -> StronglySorted R (dates_of df)).
Proof.
  intros Hd Hf He Hn.
  apply FrameFacts.fetch_inv in Hf as [->|(p' & src & Hd' & _ & Hs & ->)];
    [discriminate|].
  rewrite Hd in Hd'. injection Hd' as <-.
  pose proof Hs as Hsel.
  apply FrameFacts.select_keep_cols in Hs as (c1 & c2 & c3 & c4 & H1 & H2 & H3 & H4 & Hsrc).
  rewrite (normalize_columns_Date p Hn) in H1. injection H1 as <-.
  set (keep := complete_rows src).
  assert (Hkeep : forall i, In i keep <->
            (i < length (index p))%nat /\
            forall l c, In l keep_cols ->
              getitem (normalize_columns p) l = Ret c -> col_isna_at c i = false).
  { intros i. unfold keep. rewrite FrameFacts.complete_rows_spec.
    rewrite Hsrc at 1. cbn [nrows col_len].
    split; intros [Hi Hc]; (split; [exact Hi|]).
    - intros l c Hl Hg. apply (Hc l). rewrite Hsrc.
      unfold keep_cols in Hl. simpl in Hl.
      destruct Hl as [<-|[<-|[<-|[<-|[]]]]].
      + rewrite (normalize_columns_Date p Hn) in Hg. injection Hg as <-.
        now left.
      + rewrite H2 in Hg. injection Hg as <-. right. now left.
      + rewrite H3 in Hg. injection Hg as <-. right. right. now left.
      + rewrite H4 in Hg. injection Hg as <-. right. right. right. now left.
    - intros l c Hin. rewrite Hsrc in Hin. simpl in Hin.
      destruct Hin as [[= <- <-]|[[= <- <-]|[[= <- <-]|[[= <- <-]|[]]]]].
      + apply (Hc label_Date); [simpl; auto|]. now apply normalize_columns_Date.
      + apply (Hc label_Open); [simpl; auto|exact H2].
      + apply (Hc label_Close); [simpl; auto|exact H3].
      + apply (Hc label_Volume); [simpl; auto|exact H4]. }
  assert (Hdates : dates_of (dropna src)
                   = map (fun i => nth i (index p) None) keep).
  { unfold dates_of. rewrite FrameFacts.getitem_dropna.
    replace (getitem src label_Date) with (Ret (DateCol (index p)))
      by (rewrite Hsrc; reflexivity).
    reflexivity. }
  exists keep.
  split; [apply FrameFacts.complete_rows_increasing|].
  split; [exact Hkeep|]. split; [exact Hdates|]. split.
  - intros l xs Hl Hg. rewrite FrameFacts.getitem_dropna.
    assert (Hg' : getitem src l = Ret (NumCol xs)).
    { rewrite Hsrc. unfold keep_cols in Hl. simpl in Hl.
      destruct Hl as [<-|[<-|[<-|[<-|[]]]]].
      - rewrite (normalize_columns_Date p Hn) in Hg. discriminate.
      - rewrite H2 in Hg. injection Hg as ->. reflexivity.
      - rewrite H3 in Hg. injection Hg as ->. reflexivity.
      - rewrite H4 in Hg. injection Hg as ->. reflexivity. }
    rewrite Hg'. reflexivity.
  - intros R HR. rewrite Hdates. apply StronglySorted_take; auto.
    + apply FrameFacts.complete_rows_increasing.
    + intros i Hi. now apply Hkeep.
Qed.

Lemma C9_witness :
  exists keep,
    dates_of Sample.gap_frame
    = map (fun i => nth i (index Sample.gap_response) None) keep.
Proof.
  assert (Hf : fetch_ohlcv (Sample.download_of Sample.gap_response)
                 Sample.ticker 160 = Ret Sample.gap_frame)
    by (vm_compute; reflexivity).
  assert (He : empty Sample.gap_frame = false) by (vm_compute; reflexivity).
  assert (Hn : ~ In label_Date (map fst (data Sample.gap_response))).
  { simpl. intros [H|[H|[H|[H|[]]]]]; discriminate H. }
  destruct (C9_complete_rows _ _ _ _ _ eq_refl Hf He Hn)
    as (keep & _ & _ & H & _).
  exists keep. exact H.
Defined.

(** C9 as stated fails: the provider returned three days, the close of
    the second one is missing, and the fetched series has no bar for that
    day, which lies inside the range. *)
Lemma C9_counterexample : ~ gapless.
Proof.
  intros H.
  assert (Hf : fetch_ohlcv (Sample.download_of Sample.gap_response)
                 Sample.ticker 160 = Ret Sample.gap_frame)
    by (vm_compute; reflexivity).
  assert (He : empty Sample.gap_frame = false) by (vm_compute; reflexivity).
  specialize (H _ _ _ _ _ eq_refl Hf He (Some 1%Z)).
  assert (Hi : In (Some 1%Z) (index Sample.gap_response))
    by (vm_compute; auto).
  apply H in Hi. vm_compute in Hi.
  destruct Hi as [K|[K|[]]]; discriminate K.
Qed.

(** C6. The parser cuts the text at every comma and line boundary, trims
    the pieces and drops the empty ones, appends [.T] to an entry of
    exactly four digits and leaves every other entry as it is; the result
    holds each symbol once, in increasing order, and depends on the set of
    entries only, not on their order or on which separators were used. *)
Theorem C6_parse_codes isdigit_cp text :
  parse_codes isdigit_cp text
    = PyStr.sorted_set (map (qualify isdigit_cp) (entries text)) /\
  StronglySorted PyStr.lt (parse_codes isdigit_cp text) /\
  (forall s, In s (parse_codes isdigit_cp text) <->
             In s (map (qualify isdigit_cp) (entries text))) /\
  (forall text',
     (forall s, In s (map (qualify isdigit_cp) (entries text)) <->
                In s (map (qualify isdigit_cp) (entries text'))) ->
     parse_codes isdigit_cp text = parse_codes isdigit_cp text') /\
  (forall a b sep, is_separator sep = true ->
     entries (a ++ sep :: b) = entries a ++ entries b) /\
  (forall s, forallb (fun c => negb (is_separator c)) s = true ->
     entries s = match PyStr.strip s with [] => [] | r => [r] end) /\
  (forall r, forallb isdigit_cp r = true -> length r = 4%nat ->
     qualify isdigit_cp r = r ++ PyStr.of_string ".T") /\
  (forall r, forallb isdigit_cp r = false \/ length r <> 4%nat ->
     qualify isdigit_cp r = r).
Proof.
  assert (E : forall t, parse_codes isdigit_cp t
                = PyStr.sorted_set (map (qualify isdigit_cp) (entries t)))
    by apply ParserFacts.parse_codes_entries.
  split; [apply E|]. split; [|split; [|split; [|split; [|split; [|split]]]]].
  - rewrite E. apply ParserFacts.sorted_set_sorted.
  - intros s. rewrite E. apply ParserFacts.sorted_set_In.
  - intros text' H. apply ParserFacts.sorted_unique.
    + rewrite E. apply ParserFacts.sorted_set_sorted.
    + rewrite E. apply ParserFacts.sorted_set_sorted.
    + intros z. rewrite !E, !ParserFacts.sorted_set_In. apply H.
  - intros a b sep Hs. unfold entries, pieces.
    rewrite (ParserFacts.pieces_from_app [] a sep b Hs).
    apply ParserFacts.trimmed_app.
  - intros s Hs. unfold entries, pieces.
    rewrite (ParserFacts.pieces_from_plain [] s Hs). simpl.
    unfold trimmed_entries. simpl. destruct (PyStr.strip s); reflexivity.
  - intros r H1 H2. unfold qualify. rewrite H1, H2. reflexivity.
  - intros r H. unfold qualify. destruct H as [->|H]; [reflexivity|].
    apply Nat.eqb_neq in H. rewrite H, andb_false_r. reflexivity.
Qed.

(** The text of the sidebar's example, with mixed separators, blanks and a
    repeated code. *)
Example parse_codes_example :
  parse_codes ascii_digit (PyStr.of_string "7203, 6758,,7203.T ,abc,12345")
  = [PyStr.of_string "12345"; PyStr.of_string "6758.T";
     PyStr.of_string "7203.T"; PyStr.of_string "abc"].
Proof. vm_compute. reflexivity. Qed.

(** * Further properties of the code *)

(** ** Conversions between ints and floats *)

Module ConvFacts.

Local Open Scope float_scope.

Lemma binary_round_defined s m e : binary_round prec emax s m e <> S754_nan.
Proof.
  unfold binary_round. destruct (shl_align _ _ _) as [mz ez].
  apply FloatFacts.binary_round_aux_defined. lia.
Qed.

Lemma binary_normalize_defined z e s :
  binary_normalize prec emax z e s <> S754_nan.
Proof.
  destruct z; simpl; [discriminate| |]; apply binary_round_defined.
Qed.

Lemma SF2Prim_defined x : x <> S754_nan -> is_nan (SF2Prim x) = false.
Proof.
  intros H. destruct x as [[]|[]| |s m e]; try reflexivity; [congruence|].
  unfold SF2Prim.
  assert (K : Prim2SF (Z.ldexp (of_uint63 (Uint63.of_Z (Zpos m))) e) <> S754_nan).
  { rewrite FloatLemmas.Z_ldexp_spec, of_uint63_spec.
    destruct (binary_normalize prec emax _ 0 false) eqn:E; simpl; try discriminate.
    - exfalso. revert E. apply binary_normalize_defined.
    - apply binary_round_defined. }
  apply FloatFacts.is_nan_false.
  destruct s; [|exact K]. rewrite opp_spec.
  destruct (Prim2SF (Z.ldexp _ e)); simpl; congruence.
Qed.

(** [float(z)] is a number. *)
Lemma of_int_defined z : is_nan (PyFloat.of_int z) = false.
Proof. apply SF2Prim_defined, binary_normalize_defined. Qed.

End ConvFacts.

(** ** The evaluator: what a row needs and what it reports *)

Module PassFacts.

Import Pandas.
Local Open Scope float_scope.

(** The evaluation of a frame whose reads succeed and that trips no
    guard. *)
Lemma evaluate_pass cfg t df vol cl ds tc pc tv pv d ti ri bi :
  (empty df || (Z.of_nat (nrows df) <? min_bars cfg)%Z) = false ->
  getitem df label_Volume = Ret (NumCol vol) ->
  getitem df label_Close = Ret (NumCol cl) ->
  getitem df label_Date = Ret (DateCol ds) ->
  iloc cl (-1) = Ret tc -> iloc cl (-2) = Ret pc ->
  iloc vol (-1) = Ret tv -> iloc vol (-2) = Ret pv ->
  iloc ds (-1) = Ret d ->
  (pc <=? 0) = false ->
  is_nan ((tc - pc) / pc * 100) = false ->
  (PyFloat.of_int (max_day_change cfg) <? (tc - pc) / pc * 100) = false ->
  is_nan (recent_avg cfg vol) = false ->
  is_nan (base_avg cfg vol) = false ->
  (base_avg cfg vol <=? 0) = false ->
  (base_avg cfg vol <? PyFloat.of_int (min_base_avg_vol cfg)) = false ->
  (recent_avg cfg vol / base_avg cfg vol <? min_recent_ratio cfg) = false ->
  is_nan (spike_base cfg vol) = false ->
  (spike_base cfg vol <=? 0) = false ->
  (tv / spike_base cfg vol <? min_spike cfg) = false ->
  (pv <? spike_base cfg vol) = false ->
  PyFloat.to_int tv = Ret ti ->
  PyFloat.to_int (recent_avg cfg vol) = Ret ri ->
  PyFloat.to_int (base_avg cfg vol) = Ret bi ->
  evaluate cfg t df
  = Ret {| Ticker := t;
           Code := PyStr.replace suffix_T [] t;
           last_date := d;
           close := tc;
           day_change_pct := (tc - pc) / pc * 100;
           today_volume := ti;
           today_ratio := tv / spike_base cfg vol;
           recent_avg_volume := ri;
           base_avg_volume := bi;
           recent_ratio := recent_avg cfg vol / base_avg cfg vol |}.
Proof.
  intros G Hv Hc Hd Htc Hpc Htv Hpv Hdl
         P1 P2 P3 P4 P5 P6 P7 P8 P9 P10 P11 P12 T1 T2 T3.
  unfold evaluate. rewrite G, Hv, Hc, Hd. cbn [bind continue_if astype_float col_cells].
  rewrite !SeriesFacts.iloc_map, Htc, Hpc, Hdl. cbn [bind float_of date_of].
  rewrite EvalFacts.safe_pct_change_eq, P1. cbn [bind].
  unfold PyFloat.isna. rewrite P2, P3. cbn [bind continue_if].
  rewrite P4, P5, P6, P7, P8. cbn [bind continue_if orb].
  rewrite Htv. cbn [bind]. rewrite P9, P10, P11. cbn [bind continue_if orb].
  rewrite Hpv. cbn [bind]. rewrite P12. cbn [bind continue_if].
  rewrite T1, T2, T3. reflexivity.
Qed.

(** What every row carries besides the figures: the ticker, the code
    without the suffix, and the date of the last bar. *)
Lemma evaluate_row_labels cfg t df r :
  evaluate cfg t df = Ret r ->
  Ticker r = t /\ Code r = PyStr.replace suffix_T [] t /\
  exists c, getitem df label_Date = Ret c /\
            iloc (col_cells c) (-1) = Ret (CDate (last_date r)).
Proof.
  unfold evaluate. repeat EvalFacts.ev_step; intros H; try discriminate H.
  injection H as <-. cbn [Ticker Code last_date].
  split; [reflexivity|]. split; [reflexivity|].
  match goal with
  | E : date_of ?v = Ret ?d, K : iloc (col_cells ?c) _ = Ret ?v |- _ =>
      exists c; split; [reflexivity|];
      destruct v as [d'|x]; simpl in E; [|discriminate E];
      injection E as E; subst d'; exact K
  end.
Qed.

Lemma finite_defined x : finite x -> is_nan x = false.
Proof.
  intros [z H]. apply FloatFacts.is_nan_false.
  apply (FloatFacts.to_int_finite _ _ H).
Qed.

Lemma valid_thresholds_defined cfg :
  valid_config cfg ->
  is_nan (min_recent_ratio cfg) = false /\ is_nan (min_spike cfg) = false /\
  is_nan (PyFloat.of_int (max_day_change cfg)) = false.
Proof.
  intros Hv. pose proof Hv as (_ & _ & _ & H1 & _ & _ & H2 & _).
  repeat split.
  - eapply FloatFacts.leb_true_nan_r; eauto.
  - eapply FloatFacts.leb_true_nan_r; eauto.
  - apply ConvFacts.of_int_defined.
Qed.

(** Without a data column labelled [Date], the date column of a fetched
    frame with rows holds dates. *)
Lemma fetched_dates download t d p df :
  download t d = Some p -> ~ In label_Date (map fst (data p)) ->
  fetch_ohlcv download t d = Ret df -> empty df = false ->
  exists ds, getitem df label_Date = Ret (DateCol ds).
Proof.
  intros Hd Hn Hf He.
  apply FrameFacts.fetch_inv in Hf as [->|(p' & src & Hd' & _ & Hs & ->)];
    [discriminate|].
  rewrite Hd in Hd'. injection Hd' as <-.
  apply FrameFacts.select_keep_cols in Hs as (c1 & c2 & c3 & c4 & H1 & _ & _ & _ & ->).
  rewrite (normalize_columns_Date p Hn) in H1. injection H1 as <-.
  rewrite FrameFacts.getitem_dropna. simpl. eauto.
Qed.

(** The last two entries of a series with at least two. *)
Lemma iloc_last_prev (xs : list float) :
  (2 <= length xs)%nat ->
  iloc xs (-1) = Ret (last_of xs) /\ iloc xs (-2) = Ret (prev_of xs) /\
  In (last_of xs) xs /\ In (prev_of xs) xs.
Proof.
  intros H. unfold last_of, prev_of. repeat split.
  - change (-1)%Z with (Z.opp 1). apply SeriesFacts.iloc_from_end. lia.
  - change (-2)%Z with (Z.opp 2). apply SeriesFacts.iloc_from_end. lia.
  - apply nth_In. lia.
  - apply nth_In. lia.
Qed.

Lemma iloc_dates_last (ds : list (option Z)) :
  (1 <= length ds)%nat -> exists d, iloc ds (-1) = Ret d.
Proof.
  intros H. exists (nth (length ds - Z.to_nat 1) ds None).
  change (-1)%Z with (Z.opp 1). apply SeriesFacts.iloc_from_end. lia.
Qed.

Lemma long_frame_not_empty cfg df :
  valid_config cfg -> (min_bars cfg <= Z.of_nat (nrows df))%Z ->
  empty df = false /\
  (empty df || (Z.of_nat (nrows df) <? min_bars cfg)%Z) = false.
Proof.
  intros Hv Hl. pose proof (valid_min_bars _ Hv) as Hm.
  assert (E : empty df = false).
  { destruct df as [|[l c] df]; [simpl in Hl; lia|].
    unfold empty. apply Nat.eqb_neq. lia. }
  split; [exact E|]. rewrite E. simpl.
  destruct (Z.ltb_spec (Z.of_nat (nrows df)) (min_bars cfg)); [lia|reflexivity].
Qed.

End PassFacts.

(** ** The loop as a whole *)

Module LoopFacts.

Section Loop.

Variable download : str -> Z -> option provider_frame.
Variable cfg : config.

Lemma loop_body_outcome t rows :
  loop_body download cfg t rows
  = match outcome download cfg t with
    | Ret r => Ret (rows ++ [r])
    | Continue g => Continue g
    | Raise e => Raise e
    end.
Proof.
  unfold loop_body, outcome, fetched.
  destruct (fetch_ohlcv download t (lookback_days cfg)); reflexivity.
Qed.

(** A ticker that does not raise was fetched. *)
Lemma fetched_Ret t :
  (forall e, outcome download cfg t <> Raise e) ->
  exists df, fetched download cfg t = Ret df.
Proof.
  intros H. unfold fetched.
  destruct (FrameFacts.fetch_cases download t (lookback_days cfg))
    as [K|[K _]]; [exact K|].
  exfalso. apply (H ValueError). unfold outcome. now rewrite K.
Qed.

(** A loop in which nothing raises: its events and its rows. *)
Lemma screen_loop_quiet todo :
  forall n i rows, quiet download cfg todo ->
  screen_loop download cfg n i todo rows
  = (loop_events cfg n i todo, inl (rows ++ passing_rows download cfg todo)).
Proof.
  induction todo as [|t todo IH]; intros n i rows Hq; simpl.
  - now rewrite app_nil_r.
  - assert (Hq' : quiet download cfg todo)
      by (intros t' e Ht'; apply Hq; now right).
    destruct (fetched_Ret t) as [df Ef];
      [intros e; apply Hq; now left|]. rewrite Ef.
    rewrite loop_body_outcome. unfold row_for.
    destruct (outcome download cfg t) as [r|g|e] eqn:Eo.
    + rewrite IH by exact Hq'. simpl. now rewrite <- app_assoc.
    + rewrite IH by exact Hq'. reflexivity.
    + exfalso. apply (Hq t e); [now left|exact Eo].
Qed.

(** A loop whose first exception comes at ticker [t]: it stops there. *)
Lemma screen_loop_raise todo1 :
  forall n i rows t todo2 e, quiet download cfg todo1 ->
  outcome download cfg t = Raise e ->
  screen_loop download cfg n i (todo1 ++ t :: todo2) rows
  = (loop_events cfg n i todo1
       ++ last_events download cfg n (i + length todo1) t, inr e).
Proof.
  induction todo1 as [|t1 todo1 IH]; intros n i rows t todo2 e Hq Ho; simpl.
  - rewrite Nat.add_0_r. unfold last_events. fold (fetched download cfg t).
    destruct (fetched download cfg t) as [df| |e'] eqn:Ef.
    + rewrite loop_body_outcome, Ho. reflexivity.
    + exfalso. exact (FrameFacts.fetch_not_Continue _ _ _ _ Ef).
    + unfold outcome in Ho. unfold fetched in Ef. rewrite Ef in Ho.
      now injection Ho as ->.
  - assert (Hq' : quiet download cfg todo1)
      by (intros t' e' Ht'; apply Hq; now right).
    destruct (fetched_Ret t1) as [df Ef];
      [intros e'; apply Hq; now left|]. rewrite Ef.
    rewrite loop_body_outcome.
    replace (i + S (length todo1))%nat with (S i + length todo1)%nat by lia.
    destruct (outcome download cfg t1) as [r|g|e1] eqn:Eo.
    + rewrite (IH _ _ _ _ _ _ Hq' Ho). reflexivity.
    + rewrite (IH _ _ _ _ _ _ Hq' Ho). reflexivity.
    + exfalso. apply (Hq t1 e1); [now left|exact Eo].
Qed.

(** The last pass of a loop that raises after the fetcher returned. *)
Lemma last_events_Ret n i t df :
  fetch_ohlcv download t (lookback_days cfg) = Ret df ->
  last_events download cfg n i t
  = [Fetch t (lookback_days cfg); Progress i n].
Proof. unfold last_events. now intros ->. Qed.

Lemma last_events_Raise n i t e :
  fetch_ohlcv download t (lookback_days cfg) = Raise e ->
  last_events download cfg n i t = [Fetch t (lookback_days cfg)].
Proof. unfold last_events. now intros ->. Qed.

Lemma loop_events_app n i a b :
  loop_events cfg n i (a ++ b)
  = loop_events cfg n i a ++ loop_events cfg n (i + length a) b.
Proof.
  revert i. induction a as [|t a IH]; intros i; simpl.
  - now rewrite Nat.add_0_r.
  - rewrite IH. now replace (S i + length a)%nat with (i + S (length a))%nat
      by lia.
Qed.

(** Either nothing raises, or there is a first ticker that does. *)
Lemma first_raise (codes : list str) :
  quiet download cfg codes \/
  exists todo1 t todo2 e, codes = todo1 ++ t :: todo2 /\
    quiet download cfg todo1 /\ outcome download cfg t = Raise e.
Proof.
  induction codes as [|t codes IH].
  - left. intros t e [].
  - destruct (outcome download cfg t) as [r|g|e] eqn:Eo.
    + destruct IH as [Hq|(todo1 & t' & todo2 & e & -> & Hq & Ho)].
      * left. intros t' e' [<-|Ht']; [congruence|now apply Hq].
      * right. exists (t :: todo1), t', todo2, e. repeat split; auto.
        intros t'' e' [<-|Ht'']; [congruence|now apply Hq].
    + destruct IH as [Hq|(todo1 & t' & todo2 & e & -> & Hq & Ho)].
      * left. intros t' e' [<-|Ht']; [congruence|now apply Hq].
      * right. exists (t :: todo1), t', todo2, e. repeat split; auto.
        intros t'' e' [<-|Ht'']; [congruence|now apply Hq].
    + right. exists [], t, codes, e. repeat split; auto. intros t' e' [].
Qed.

Lemma shown_loop_events n i codes : shown (loop_events cfg n i codes) = [].
Proof.
  revert i. induction codes as [|t codes IH]; intros i; simpl; auto.
Qed.

Lemma fetches_loop_events n i codes :
  fetches (loop_events cfg n i codes)
  = map (fun t => (t, lookback_days cfg)) codes.
Proof.
  revert i. induction codes as [|t codes IH]; intros i; simpl; [reflexivity|].
  now rewrite IH.
Qed.

Lemma fetches_app a b : fetches (a ++ b) = fetches a ++ fetches b.
Proof. unfold fetches. apply flat_map_app. Qed.

(** Every passing row is the evaluator's row for one of the codes. *)
Lemma passing_rows_In codes r :
  In r (passing_rows download cfg codes) <->
  exists t, In t codes /\ outcome download cfg t = Ret r.
Proof.
  unfold passing_rows. rewrite in_flat_map. unfold row_for. split.
  - intros (t & Ht & Hr). exists t. split; [exact Ht|].
    destruct (outcome download cfg t); simpl in Hr; try contradiction.
    destruct Hr as [<-|[]]. reflexivity.
  - intros (t & Ht & Ho). exists t. split; [exact Ht|]. rewrite Ho. now left.
Qed.

Lemma outcome_Ret t r :
  outcome download cfg t = Ret r ->
  exists df, fetch_ohlcv download t (lookback_days cfg) = Ret df /\
             evaluate cfg t df = Ret r.
Proof.
  unfold outcome.
  destruct (fetch_ohlcv download t (lookback_days cfg)) as [df| |];
    simpl; try discriminate. eauto.
Qed.

Lemma outcome_ticker t r : outcome download cfg t = Ret r -> Ticker r = t.
Proof.
  intros H. apply outcome_Ret in H as (df & _ & He).
  apply (PassFacts.evaluate_row_labels _ _ _ _ He).
Qed.

(** The tickers of the passing rows are the codes that pass, in order. *)
Lemma passing_rows_tickers codes :
  map Ticker (passing_rows download cfg codes)
  = filter (fun t => match outcome download cfg t with
                     | Ret _ => true | _ => false end) codes.
Proof.
  induction codes as [|t codes IH]; simpl; [reflexivity|].
  rewrite map_app, IH. unfold row_for.
  destruct (outcome download cfg t) eqn:E; simpl; auto.
  now rewrite (outcome_ticker _ _ E).
Qed.

End Loop.

End LoopFacts.

(** ** Which exceptions the evaluator can raise on a fetched frame *)

Module RaiseFacts.

Import Pandas.
Local Open Scope float_scope.

Lemma to_int_ValueError x :
  PyFloat.to_int x = Raise ValueError -> is_nan x = true.
Proof.
  unfold PyFloat.to_int. intros H. apply FloatFacts.is_nan_spec.
  destruct (Prim2SF x); try discriminate H. reflexivity.
Qed.

(** A missing column or a missing value is what [KeyError] and
    [ValueError] come from. *)
Lemma evaluate_Raise_source cfg t df e :
  evaluate cfg t df = Raise e ->
  (e = KeyError ->
     empty df = false /\ exists l, In l keep_cols /\ has_column l df = false) /\
  (e = ValueError ->
     exists vol x, getitem df label_Volume = Ret (NumCol vol) /\
                   In x vol /\ is_nan x = true).
Proof.
  unfold evaluate. repeat EvalFacts.ev_step; intros H; try discriminate H;
    injection H as <-; EvalFacts.raise_kind;
    (split; intros K; try discriminate K).
  all: try match goal with
    | G : (empty _ || _)%bool = false |- _ /\ _ =>
        apply EvalFacts.orb2_false in G as [G _]; split; [exact G|]
    end.
  all: try match goal with
    | E : getitem _ ?l = Raise _ |- exists _, _ =>
        exists l; split; [simpl; auto|];
        apply (FrameFacts.getitem_KeyError _ _ _ E)
    end.
  all: repeat match goal with
    | E : astype_float _ = Ret _ |- _ =>
        apply EvalFacts.astype_float_Ret in E; subst
    end.
  all: match goal with
    | E : PyFloat.to_int ?x = Raise _ |- _ => apply to_int_ValueError in E
    end.
  all: try match goal with
    | G : (PyFloat.isna ?a || PyFloat.isna ?b || _)%bool = false,
      E : is_nan _ = true |- _ =>
        let N1 := fresh "N" in let N2 := fresh "N" in
        apply EvalFacts.orb3_false in G as (N1 & N2 & _);
        unfold PyFloat.isna in N1, N2; congruence
    end.
  all: match goal with
    | E : is_nan ?x = true, I : iloc ?vol _ = Ret ?x,
      G : getitem _ label_Volume = Ret (NumCol ?vol) |- _ =>
        exists vol, x; repeat split; auto; eapply SeriesFacts.iloc_In; eauto
    end.
Qed.

(** The evaluator raises no exception of the widgets. *)
Lemma evaluate_Raise_own cfg t df e :
  evaluate cfg t df = Raise e -> e <> StreamlitError.
Proof.
  unfold evaluate. repeat EvalFacts.ev_step; intros H; try discriminate H;
    injection H as <-; EvalFacts.raise_kind; discriminate.
Qed.

(** On a fetched frame the evaluator raises nothing but a type error, an
    attribute error or an overflow. *)
Lemma evaluate_Raise_fetched download cfg t d df e :
  valid_config cfg ->
  fetch_ohlcv download t d = Ret df ->
  evaluate cfg t df = Raise e ->
  e = TypeError \/ e = AttributeError \/ e = OverflowError.
Proof.
  intros Hv Hf He.
  destruct (EvalFacts.evaluate_Raise _ _ _ _ He) as [Hz Hi].
  destruct (evaluate_Raise_source _ _ _ _ He) as [Hk Hx].
  destruct e; auto; exfalso.
  - destruct (Hk eq_refl) as (Hne & l & Hl & Hc).
    destruct (FrameFacts.fetched_columns _ _ _ _ Hf Hne l Hl) as [c Hg].
    apply FrameFacts.getitem_has_column in Hg. congruence.
  - destruct (Hi eq_refl) as (l & c & Hg & Hc).
    destruct (FrameFacts.fetched_column _ _ _ _ _ _ Hf Hg) as [Hn _].
    assert (Hs : evaluate cfg t df <> Continue ShortHistory) by congruence.
    pose proof (long_enough _ _ _ Hs). pose proof (valid_min_bars _ Hv). lia.
  - destruct (Hx eq_refl) as (vol & x & Hg & Hin & Hnan).
    destruct (FrameFacts.fetched_floats _ _ _ _ _ _ Hf Hg) as [_ Hall].
    rewrite Forall_forall in Hall. rewrite (Hall x Hin) in Hnan. discriminate.
  - now apply Hz.
  - now apply (evaluate_Raise_own _ _ _ _ He).
Qed.

Lemma iloc_cells_date ds i v :
  iloc (col_cells (DateCol ds)) i = Ret v -> exists d, v = CDate d.
Proof.
  simpl. rewrite SeriesFacts.iloc_map.
  destruct (iloc ds i); simpl; try discriminate. intros [= <-]. eauto.
Qed.

Lemma iloc_cells_float xs i v :
  iloc (col_cells (NumCol xs)) i = Ret v -> exists x, v = CNum x.
Proof.
  simpl. rewrite SeriesFacts.iloc_map.
  destruct (iloc xs i); simpl; try discriminate. intros [= <-]. eauto.
Qed.

(** A type error comes from a volume or close column that holds dates, an
    attribute error from a date column that holds floats. *)
Lemma evaluate_Raise_column cfg t df e :
  evaluate cfg t df = Raise e ->
  (e = TypeError ->
     exists l ds, (l = label_Volume \/ l = label_Close) /\
                  getitem df l = Ret (DateCol ds)) /\
  (e = AttributeError ->
     exists xs, getitem df label_Date = Ret (NumCol xs)).
Proof.
  unfold evaluate. repeat EvalFacts.ev_step; intros H; try discriminate H;
    injection H as <-; EvalFacts.raise_kind;
    (split; intros K; try discriminate K).
  all: match goal with
    | E : astype_float ?c = Raise _, G : getitem _ ?l = Ret ?c |- _ =>
        destruct c as [ds|xs]; [|discriminate E];
        exists l, ds; split; [now left|exact G]
    | E : float_of ?v = Raise _, I : iloc (col_cells ?c) _ = Ret ?v,
      G : getitem _ label_Close = Ret ?c |- _ =>
        destruct c as [ds|xs];
        [exists label_Close, ds; split; [now right|exact G]
        |apply iloc_cells_float in I as [x ->]; discriminate E]
    | E : date_of ?v = Raise _, I : iloc (col_cells ?c) _ = Ret ?v,
      G : getitem _ label_Date = Ret ?c |- _ =>
        destruct c as [ds|xs];
        [apply iloc_cells_date in I as [x ->]; discriminate E
        |exists xs; reflexivity]
    end.
Qed.

(** Without a data column labelled [Date], the frame the fetcher
    normalises starts with the index as its date column, and every other
    column holds floats. *)
Lemma normalize_columns_shape p :
  ~ In label_Date (map fst (data p)) ->
  exists body,
    normalize_columns p = (label_Date, DateCol (index p)) :: body /\
    forall l c, In (l, c) body -> exists xs, c = NumCol xs.
Proof.
  intros Hn. unfold normalize_columns, name_date.
  set (body := data_columns p).
  assert (Hb : forall l c, In (l, c) body -> exists xs, c = NumCol xs).
  { intros l c H. unfold body, data_columns in H.
    apply in_map_iff in H as ([l' xs] & E & _).
    injection E as _ <-. eauto. }
  assert (Hd : has_column label_Date body = false).
  { destruct (has_column label_Date body) eqn:E; [|reflexivity].
    exfalso. apply Hn. apply FrameFacts.has_column_In in E.
    unfold body in E. now rewrite FrameFacts.data_columns_labels in E. }
  generalize (index_label p).
  intros name. unfold has_column in *. cbn [columns map fst existsb].
  fold (columns body). rewrite Hd, orb_false_r.
  destruct (PyStr.eqb label_Date name) eqn:E; cbn [negb].
  - apply StrFacts.eqb_eq in E. subst name. exists body. auto.
  - cbn [rename map]. rewrite StrFacts.eqb_refl.
    eexists. split; [reflexivity|].
    intros l c H. apply in_map_iff in H as ([l' c'] & E' & Hin).
    injection E' as _ <-. eauto.
Qed.

(** So the volume and close columns of a fetched frame hold floats. *)
Lemma fetched_numeric download t d p df l c :
  download t d = Some p -> ~ In label_Date (map fst (data p)) ->
  fetch_ohlcv download t d = Ret df ->
  l <> label_Date -> getitem df l = Ret c -> exists xs, c = NumCol xs.
Proof.
  intros Hd Hn Hf Hl Hg.
  apply FrameFacts.fetch_inv in Hf as [->|(p' & src & Hd' & _ & Hs & ->)];
    [discriminate|].
  rewrite Hd in Hd'. injection Hd' as <-.
  rewrite FrameFacts.getitem_dropna in Hg.
  destruct (getitem src l) as [c0| |] eqn:E; simpl in Hg; try discriminate.
  injection Hg as <-.
  destruct (normalize_columns_shape p Hn) as (body & Hshape & Hbody).
  assert (K : exists xs, c0 = NumCol xs).
  { apply FrameFacts.select_keep_cols in Hs
      as (c1 & c2 & c3 & c4 & H1 & H2 & H3 & H4 & ->).
    assert (G : forall l' c', l' <> label_Date ->
                getitem (normalize_columns p) l' = Ret c' ->
                exists xs, c' = NumCol xs).
    { intros l' c' Hl' Hg'. rewrite Hshape in Hg'. cbn [getitem] in Hg'.
      apply StrFacts.eqb_neq in Hl'. rewrite Hl' in Hg'.
      apply FrameFacts.getitem_In in Hg'. eauto. }
    cbn [getitem] in E.
    apply StrFacts.eqb_neq in Hl. rewrite Hl in E.
    destruct (PyStr.eqb l label_Open) eqn:E2.
    { injection E as <-. apply (G label_Open); [discriminate|exact H2]. }
    destruct (PyStr.eqb l label_Close) eqn:E3.
    { injection E as <-. apply (G label_Close); [discriminate|exact H3]. }
    destruct (PyStr.eqb l label_Volume) eqn:E4; [|discriminate].
    injection E as <-. apply (G label_Volume); [discriminate|exact H4]. }
  destruct K as [xs ->]. simpl. eauto.
Qed.

End RaiseFacts.

(** ** Trimming *)

Module StripFacts.

Import PyStr.

Lemma lstrip_nil_iff s : lstrip s = [] <-> forallb isspace s = true.
Proof.
  induction s as [|c s IH]; simpl; [tauto|].
  destruct (isspace c); simpl; [exact IH|]. split; discriminate.
Qed.

Lemma lstrip_head s c r : lstrip s = c :: r -> isspace c = false.
Proof.
  induction s as [|x s IH]; simpl; [discriminate|].
  destruct (isspace x) eqn:E; [exact IH|]. now intros [= <- _].
Qed.

Lemma lstrip_fixed c r : isspace c = false -> lstrip (c :: r) = c :: r.
Proof. intros H. simpl. now rewrite H. Qed.

Lemma lstrip_idem s : lstrip (lstrip s) = lstrip s.
Proof.
  destruct (lstrip s) as [|c r] eqn:E; [reflexivity|].
  apply lstrip_fixed. exact (lstrip_head _ _ _ E).
Qed.

Lemma lstrip_In s c : In c (lstrip s) -> In c s.
Proof.
  induction s as [|x s IH]; simpl; [tauto|].
  destruct (isspace x); simpl; tauto.
Qed.

Lemma lstrip_length s : (length (lstrip s) <= length s)%nat.
Proof.
  induction s as [|x s IH]; simpl; [lia|].
  destruct (isspace x); simpl; lia.
Qed.

Lemma lstrip_app_nonspace a c b :
  isspace c = false -> lstrip (a ++ c :: b) = lstrip a ++ c :: b.
Proof.
  intros H. induction a as [|x a IH]; simpl; [now rewrite H|].
  destruct (isspace x); [exact IH|reflexivity].
Qed.

Lemma rstrip_cons_nonspace c r :
  isspace c = false -> rstrip (c :: r) = c :: rstrip r.
Proof.
  intros H. unfold rstrip. simpl rev.
  rewrite (lstrip_app_nonspace _ _ _ H), rev_app_distr. reflexivity.
Qed.

Lemma rstrip_snoc_nonspace a c :
  isspace c = false -> rstrip (a ++ [c]) = a ++ [c].
Proof.
  intros H. unfold rstrip. rewrite rev_app_distr. cbn [rev app].
  rewrite (lstrip_fixed _ _ H). cbn [rev]. now rewrite rev_involutive.
Qed.

Lemma rstrip_idem s : rstrip (rstrip s) = rstrip s.
Proof. unfold rstrip. now rewrite rev_involutive, lstrip_idem. Qed.

Lemma rstrip_In s c : In c (rstrip s) -> In c s.
Proof.
  unfold rstrip. rewrite <- in_rev. intros H. apply lstrip_In in H.
  now apply in_rev.
Qed.

Lemma rstrip_length s : (length (rstrip s) <= length s)%nat.
Proof.
  unfold rstrip. rewrite length_rev.
  pose proof (lstrip_length (rev s)) as H. now rewrite length_rev in H.
Qed.

(** [strip] by cases on what [lstrip] leaves. *)
Lemma strip_cases s :
  (forallb isspace s = true /\ strip s = []) \/
  (exists c r, lstrip s = c :: r /\ isspace c = false /\
               strip s = c :: rstrip r).
Proof.
  unfold strip. destruct (lstrip s) as [|c r] eqn:E.
  - left. split; [now apply lstrip_nil_iff|reflexivity].
  - right. exists c, r. pose proof (lstrip_head _ _ _ E) as H.
    split; [reflexivity|]. split; [exact H|]. now apply rstrip_cons_nonspace.
Qed.

Lemma strip_nil_iff s : strip s = [] <-> forallb isspace s = true.
Proof.
  destruct (strip_cases s) as [[H ->]|(c & r & E & Hc & ->)]; [tauto|].
  split; [discriminate|]. intros H. apply lstrip_nil_iff in H. congruence.
Qed.

Lemma strip_idem s : strip (strip s) = strip s.
Proof.
  destruct (strip_cases s) as [[_ ->]|(c & r & _ & Hc & ->)]; [reflexivity|].
  unfold strip. rewrite (lstrip_fixed _ _ Hc).
  now rewrite (rstrip_cons_nonspace _ _ Hc), rstrip_idem.
Qed.

Lemma strip_In s c : In c (strip s) -> In c s.
Proof. unfold strip. intros H. now apply lstrip_In, rstrip_In. Qed.

Lemma strip_length s : (length (strip s) <= length s)%nat.
Proof.
  unfold strip. pose proof (rstrip_length (lstrip s)).
  pose proof (lstrip_length s). lia.
Qed.

(** A trimmed string does not start with white space. *)
Lemma strip_fixed_head c r : strip (c :: r) = c :: r -> isspace c = false.
Proof.
  intros H. destruct (isspace c) eqn:E; [|reflexivity]. exfalso.
  unfold strip in H. simpl lstrip in H. rewrite E in H.
  pose proof (rstrip_length (lstrip r)) as H1.
  pose proof (lstrip_length r) as H2. rewrite H in H1. simpl in H1. lia.
Qed.

(** Appending a suffix that ends in no white space to a trimmed,
    non-empty string leaves it trimmed. *)
Lemma strip_app_suffix s a x :
  s <> [] -> strip s = s -> isspace x = false ->
  strip (s ++ a ++ [x]) = s ++ a ++ [x].
Proof.
  intros Hs H Hx. destruct s as [|c r]; [congruence|].
  pose proof (strip_fixed_head _ _ H) as Hc.
  unfold strip. simpl app. rewrite (lstrip_fixed _ _ Hc).
  rewrite (rstrip_cons_nonspace _ _ Hc). f_equal.
  rewrite app_assoc. now apply rstrip_snoc_nonspace.
Qed.

End StripFacts.

(** ** What the parser hands out *)

Module CleanFacts.

Lemma linebreak_isspace c : PyStr.is_linebreak c = true -> PyStr.isspace c = true.
Proof.
  unfold PyStr.is_linebreak, PyStr.isspace.
  repeat match goal with
  | |- context [(?a <=? ?b)%N] => destruct (N.leb_spec a b)
  | |- context [(?a =? ?b)%N] => destruct (N.eqb_spec a b)
  end; simpl; try reflexivity; try discriminate; lia.
Qed.

(** The pieces of a text hold no separator. *)
Lemma pieces_from_plain_all s :
  forall cur, plain cur = true -> Forall (fun p => plain p = true) (pieces_from cur s).
Proof.
  induction s as [|c s IH]; intros cur Hc; simpl.
  - constructor; [|constructor]. unfold plain in *.
    rewrite forallb_forall in Hc |- *. intros x Hx. apply Hc. now apply in_rev.
  - destruct (is_separator c) eqn:E.
    + constructor; [|now apply IH].
      unfold plain in *. rewrite forallb_forall in Hc |- *.
      intros x Hx. apply Hc. now apply in_rev.
    + apply IH. unfold plain in *. simpl. now rewrite E, Hc.
Qed.

Lemma plain_strip s : plain s = true -> plain (PyStr.strip s) = true.
Proof.
  unfold plain. rewrite !forallb_forall. intros H x Hx.
  apply H. now apply StripFacts.strip_In.
Qed.

Lemma trimmed_entries_In l e :
  In e (trimmed_entries l) <-> e <> [] /\ exists p, In p l /\ e = PyStr.strip p.
Proof.
  unfold trimmed_entries. rewrite filter_In, in_map_iff. split.
  - intros [(p & <- & Hp) Hn]. split; [|eauto].
    intros E. rewrite E in Hn. discriminate Hn.
  - intros (Hn & p & Hp & ->). split; [eauto|].
    destruct (PyStr.strip p); [congruence|reflexivity].
Qed.

(** Every entry is clean. *)
Lemma entries_clean text e : In e (entries text) -> clean e.
Proof.
  unfold entries. rewrite trimmed_entries_In. intros (Hn & p & Hp & ->).
  split; [exact Hn|]. split; [|apply StripFacts.strip_idem].
  apply plain_strip.
  pose proof (pieces_from_plain_all text [] eq_refl) as H.
  rewrite Forall_forall in H. now apply H.
Qed.

Section Digits.

Variable isdigit_cp : N -> bool.

Lemma qualify_clean e : clean e -> clean (qualify isdigit_cp e).
Proof.
  intros (Hn & Hp & Hs). unfold qualify.
  destruct (forallb isdigit_cp e && Nat.eqb (length e) 4); [|now repeat split].
  change suffix_T with ([46%N] ++ [84%N]).
  split; [destruct e; [congruence|discriminate]|]. split.
  - rewrite forallb_app, Hp. reflexivity.
  - now apply StripFacts.strip_app_suffix.
Qed.

Lemma qualify_idem e :
  qualify isdigit_cp (qualify isdigit_cp e) = qualify isdigit_cp e.
Proof.
  unfold qualify.
  destruct (forallb isdigit_cp e && Nat.eqb (length e) 4) eqn:E.
  - apply andb_true_iff in E as [_ E]. apply Nat.eqb_eq in E.
    rewrite length_app, E.
    change (Nat.eqb (4 + length suffix_T) 4) with false.
    now rewrite andb_false_r.
  - now rewrite E.
Qed.

Lemma parse_codes_In text c :
  In c (parse_codes isdigit_cp text) <->
  exists e, In e (entries text) /\ c = qualify isdigit_cp e.
Proof.
  rewrite ParserFacts.parse_codes_entries, ParserFacts.sorted_set_In, in_map_iff.
  split; intros (e & H1 & H2); exists e; auto.
Qed.

Lemma parse_codes_clean text : Forall clean (parse_codes isdigit_cp text).
Proof.
  rewrite Forall_forall. intros c Hc.
  apply parse_codes_In in Hc as (e & He & ->).
  apply qualify_clean. eapply entries_clean, He.
Qed.

End Digits.

(** Joining clean symbols with line feeds and cutting the text again gives
    the symbols back. *)
Lemma entries_join_lines l : Forall clean l -> entries (join_lines l) = l.
Proof.
  induction 1 as [|x l (Hn & Hp & Hs) Hl IH]; [reflexivity|].
  assert (Hx : entries x = [x]).
  { unfold entries, pieces. rewrite (ParserFacts.pieces_from_plain [] x Hp).
    unfold trimmed_entries. simpl. rewrite Hs.
    destruct x; [congruence|reflexivity]. }
  destruct l as [|y l]; [exact Hx|].
  change (join_lines (x :: y :: l)) with (x ++ 10%N :: join_lines (y :: l)).
  unfold entries, pieces in *.
  rewrite (ParserFacts.pieces_from_app [] x 10%N _ eq_refl).
  rewrite ParserFacts.trimmed_app, Hx, IH. reflexivity.
Qed.

Lemma sorted_set_sorted_id l :
  StronglySorted PyStr.lt l -> PyStr.sorted_set l = l.
Proof.
  intros H. apply ParserFacts.sorted_unique;
    [apply ParserFacts.sorted_set_sorted|exact H|].
  intros z. apply ParserFacts.sorted_set_In.
Qed.

End CleanFacts.

(** ** Texts without entries *)

Module BlankFacts.

Lemma separator_blank c : is_separator c = true -> blank c = true.
Proof.
  unfold is_separator, blank. intros H. apply orb_true_iff in H as [H|H].
  - rewrite H. apply orb_true_r.
  - now rewrite (CleanFacts.linebreak_isspace _ H).
Qed.

Lemma not_separator_blank c :
  is_separator c = false -> blank c = PyStr.isspace c.
Proof.
  unfold is_separator, blank. intros H. apply orb_false_iff in H as [H _].
  rewrite H. apply orb_false_r.
Qed.

Lemma forallb_rev {A} (f : A -> bool) l : forallb f (rev l) = forallb f l.
Proof.
  induction l as [|a l IH]; [reflexivity|].
  simpl. rewrite forallb_app, IH. simpl. rewrite andb_true_r. apply andb_comm.
Qed.

(** Every piece is white space exactly when the text is blank. *)
Lemma pieces_from_blank s :
  forall cur,
  forallb (fun p => forallb PyStr.isspace p) (pieces_from cur s)
  = forallb PyStr.isspace cur && forallb blank s.
Proof.
  induction s as [|c s IH]; intros cur; simpl.
  - now rewrite forallb_rev, andb_true_r.
  - destruct (is_separator c) eqn:E.
    + simpl. rewrite IH, forallb_rev, (separator_blank _ E). reflexivity.
    + rewrite IH, (not_separator_blank _ E). simpl.
      now rewrite andb_assoc, (andb_comm (PyStr.isspace c)).
Qed.

Lemma trimmed_entries_nil l :
  trimmed_entries l = [] <-> forallb (fun p => forallb PyStr.isspace p) l = true.
Proof.
  induction l as [|p l IH]; [simpl; tauto|].
  unfold trimmed_entries in *. simpl.
  destruct (PyStr.strip p) as [|c r] eqn:E.
  - apply StripFacts.strip_nil_iff in E. rewrite E. simpl. exact IH.
  - simpl. split; [discriminate|]. intros H. apply andb_true_iff in H as [H _].
    apply StripFacts.strip_nil_iff in H. congruence.
Qed.

Lemma entries_nil text : entries text = [] <-> forallb blank text = true.
Proof.
  unfold entries, pieces. rewrite trimmed_entries_nil, pieces_from_blank.
  reflexivity.
Qed.

Lemma sorted_set_nil l : PyStr.sorted_set l = [] <-> l = [].
Proof.
  split; [|now intros ->]. intros H. destruct l as [|x l]; [reflexivity|].
  assert (K : In x (PyStr.sorted_set (x :: l)))
    by (apply ParserFacts.sorted_set_In; now left).
  rewrite H in K. destruct K.
Qed.

Lemma parse_codes_nil isdigit_cp text :
  parse_codes isdigit_cp text = [] <-> forallb blank text = true.
Proof.
  rewrite ParserFacts.parse_codes_entries, sorted_set_nil, <- entries_nil.
  split; intros H; [now apply map_eq_nil in H|now rewrite H].
Qed.

End BlankFacts.

(** ** Removing [.T] from a ticker *)

Module CodeFacts.

Lemma replace_dotless_app a b :
  dotless a = true ->
  PyStr.replace suffix_T [] (a ++ b) = a ++ PyStr.replace suffix_T [] b.
Proof.
  unfold PyStr.replace. induction a as [|c a IH]; intros H; [reflexivity|].
  simpl in H. apply andb_true_iff in H as [Hc Ha].
  apply negb_true_iff in Hc.
  change suffix_T with [46%N; 84%N] in *.
  cbn [app PyStr.replace_from PyStr.startswith].
  rewrite N.eqb_sym, Hc. cbn [andb]. now rewrite IH.
Qed.

Lemma replace_suffix b :
  PyStr.replace suffix_T [] (suffix_T ++ b) = PyStr.replace suffix_T [] b.
Proof.
  unfold PyStr.replace. change suffix_T with [46%N; 84%N].
  destruct b; reflexivity.
Qed.

End CodeFacts.

(** ** Looser thresholds *)

Module LaxFacts.

Local Open Scope float_scope.

Lemma leb_ltb_trans x y z :
  (x <=? y) = true -> (y <? z) = true -> (x <? z) = true.
Proof.
  rewrite !ltb_spec, leb_spec. unfold SFltb, SFleb.
  destruct (SFcompare (Prim2SF x) (Prim2SF y)) as [c1|] eqn:E1; try discriminate.
  destruct (SFcompare (Prim2SF y) (Prim2SF z)) as [c2|] eqn:E2; try discriminate.
  intros H1 H2.
  rewrite (FloatFacts.SFcompare_trans _ _ _ c1 c2 E1 E2);
    destruct c1, c2; congruence.
Qed.

(** A lower bound that was reached is reached when it is lowered. *)
Lemma lower_bound x b b' :
  (b' <=? b) = true -> (x <? b) = false -> (x <? b') = false.
Proof.
  intros Hb H. destruct (x <? b') eqn:E; [|reflexivity].
  rewrite (FloatFacts.ltb_leb_trans _ _ _ E Hb) in H. discriminate H.
Qed.

(** An upper bound that was kept is kept when it is raised. *)
Lemma upper_bound x b b' :
  (b <=? b') = true -> (b <? x) = false -> (b' <? x) = false.
Proof.
  intros Hb H. destruct (b' <? x) eqn:E; [|reflexivity].
  rewrite (leb_ltb_trans _ _ _ Hb E) in H. discriminate H.
Qed.

Lemma laxer_windows lax cfg vol :
  laxer lax cfg ->
  min_bars lax = min_bars cfg /\
  recent_avg lax vol = recent_avg cfg vol /\
  base_avg lax vol = base_avg cfg vol /\
  spike_base lax vol = spike_base cfg vol.
Proof.
  intros (_ & H1 & H2 & H3 & _).
  unfold min_bars, recent_avg, base_avg, base_window, spike_base,
    spike_base_window. now rewrite H1, H2, H3.
Qed.

(** What passes the thresholds of [cfg] passes those of laxer settings,
    with the same row. *)
Lemma evaluate_laxer lax cfg t df r :
  laxer lax cfg -> evaluate cfg t df = Ret r -> evaluate lax t df = Ret r.
Proof.
  intros Hl He.
  destruct (EvalFacts.evaluate_accepted _ _ _ _ He)
    as (vol & cl & tc & pc & tv & pv & A).
  destruct (PassFacts.evaluate_row_labels _ _ _ _ He) as (Ht & Hc & c & Hg & Hi).
  destruct (laxer_windows lax cfg vol Hl) as (Wm & Wr & Wb & Ws).
  destruct Hl as (_ & _ & _ & _ & L1 & L2 & L3 & L4).
  assert (Hd : exists ds, c = DateCol ds /\ iloc ds (-1) = Ret (last_date r)).
  { destruct c as [ds|xs]; cbn [col_cells] in Hi;
      rewrite SeriesFacts.iloc_map in Hi.
    - exists ds. split; [reflexivity|].
      destruct (iloc ds (-1)); cbn [bind] in Hi; try discriminate Hi.
      now injection Hi as ->.
    - destruct (iloc xs (-1)); cbn [bind] in Hi; discriminate Hi. }
  destruct Hd as (ds & -> & Hlast).
  rewrite (PassFacts.evaluate_pass lax t df vol cl ds tc pc tv pv (last_date r)
             (today_volume r) (recent_avg_volume r) (base_avg_volume r)).
  - pose proof (acc_row_close _ _ _ _ _ _ _ _ _ _ A) as R1.
    pose proof (acc_row_pct _ _ _ _ _ _ _ _ _ _ A) as R2.
    pose proof (acc_row_today_ratio _ _ _ _ _ _ _ _ _ _ A) as R3.
    pose proof (acc_row_ratio _ _ _ _ _ _ _ _ _ _ A) as R4.
    rewrite Wr, Wb, Ws, <- R2, <- R3, <- R4, <- R1, <- Hc, <- Ht.
    now destruct r.
  - rewrite Wm. apply (acc_long _ _ _ _ _ _ _ _ _ _ A).
  - apply (acc_volume _ _ _ _ _ _ _ _ _ _ A).
  - apply (acc_close _ _ _ _ _ _ _ _ _ _ A).
  - exact Hg.
  - apply (acc_tc _ _ _ _ _ _ _ _ _ _ A).
  - apply (acc_pc _ _ _ _ _ _ _ _ _ _ A).
  - apply (acc_tv _ _ _ _ _ _ _ _ _ _ A).
  - apply (acc_pv _ _ _ _ _ _ _ _ _ _ A).
  - exact Hlast.
  - apply (acc_pc_pos _ _ _ _ _ _ _ _ _ _ A).
  - apply (acc_pct_defined _ _ _ _ _ _ _ _ _ _ A).
  - apply (upper_bound _ _ _ L3), (acc_pct_max _ _ _ _ _ _ _ _ _ _ A).
  - rewrite Wr. apply (acc_recent_defined _ _ _ _ _ _ _ _ _ _ A).
  - rewrite Wb. apply (acc_base_defined _ _ _ _ _ _ _ _ _ _ A).
  - rewrite Wb. apply (acc_base_pos _ _ _ _ _ _ _ _ _ _ A).
  - rewrite Wb. apply (lower_bound _ _ _ L4), (acc_liquid _ _ _ _ _ _ _ _ _ _ A).
  - rewrite Wr, Wb.
    apply (lower_bound _ _ _ L1), (acc_recent_ratio _ _ _ _ _ _ _ _ _ _ A).
  - rewrite Ws. apply (acc_spike_defined _ _ _ _ _ _ _ _ _ _ A).
  - rewrite Ws. apply (acc_spike_pos _ _ _ _ _ _ _ _ _ _ A).
  - rewrite Ws.
    apply (lower_bound _ _ _ L2), (acc_spike_ratio _ _ _ _ _ _ _ _ _ _ A).
  - rewrite Ws. apply (acc_continuity _ _ _ _ _ _ _ _ _ _ A).
  - apply (acc_row_today _ _ _ _ _ _ _ _ _ _ A).
  - rewrite Wr. apply (acc_row_recent _ _ _ _ _ _ _ _ _ _ A).
  - rewrite Wb. apply (acc_row_base _ _ _ _ _ _ _ _ _ _ A).
Qed.

End LaxFacts.

(** ** The run as a whole *)

Module MainFacts.

Section Main.

Variable isdigit_cp : N -> bool.
Variable download : str -> Z -> option provider_frame.
Variable st_df st_dl : list row -> option exn.
Variable cfg : config.

(** A run in which no ticker raises. *)
Lemma main_quiet text :
  parse_codes isdigit_cp text <> [] ->
  quiet download cfg (parse_codes isdigit_cp text) ->
  main isdigit_cp download st_df st_dl cfg text true
  = (StInfo (length (parse_codes isdigit_cp text))
       :: loop_events cfg (length (parse_codes isdigit_cp text)) 1
            (parse_codes isdigit_cp text)
       ++ fst (after_loop st_df st_dl cfg
                 (passing_rows download cfg (parse_codes isdigit_cp text))),
     snd (after_loop st_df st_dl cfg
            (passing_rows download cfg (parse_codes isdigit_cp text)))).
Proof.
  intros Hne Hq. unfold main.
  destruct (parse_codes isdigit_cp text) as [|c codes] eqn:E; [congruence|].
  rewrite (LoopFacts.screen_loop_quiet download cfg _ _ _ _ Hq).
  cbn [app]. unfold after_loop.
  destruct (passing_rows download cfg (c :: codes)); [reflexivity|].
  now destruct (show_table st_df st_dl cfg _).
Qed.

(** A run whose first exception in the loop comes at ticker [t]. *)
Lemma main_raise text todo1 t todo2 e :
  parse_codes isdigit_cp text = todo1 ++ t :: todo2 ->
  quiet download cfg todo1 ->
  outcome download cfg t = Raise e ->
  main isdigit_cp download st_df st_dl cfg text true
  = (StInfo (length (todo1 ++ t :: todo2))
       :: loop_events cfg (length (todo1 ++ t :: todo2)) 1 todo1
       ++ last_events download cfg (length (todo1 ++ t :: todo2))
            (1 + length todo1) t,
     Some e).
Proof.
  intros E Hq Ho. unfold main. rewrite E.
  rewrite (LoopFacts.screen_loop_raise download cfg _ _ _ _ _ _ _ Hq Ho).
  destruct (todo1 ++ t :: todo2) eqn:E'; [|reflexivity].
  destruct todo1; discriminate E'.
Qed.

(** The three ways a run can go once the button is pressed. *)
Lemma main_cases text codes :
  codes = parse_codes isdigit_cp text ->
  (codes = [] /\
   main isdigit_cp download st_df st_dl cfg text true
   = ([StError; StStop], None)) \/
  (codes <> [] /\ quiet download cfg codes /\
   main isdigit_cp download st_df st_dl cfg text true
   = (StInfo (length codes) :: loop_events cfg (length codes) 1 codes
        ++ fst (after_loop st_df st_dl cfg (passing_rows download cfg codes)),
      snd (after_loop st_df st_dl cfg (passing_rows download cfg codes)))) \/
  (exists todo1 t todo2 e,
     codes = todo1 ++ t :: todo2 /\ quiet download cfg todo1 /\
     outcome download cfg t = Raise e /\
     main isdigit_cp download st_df st_dl cfg text true
     = (StInfo (length codes) :: loop_events cfg (length codes) 1 todo1
          ++ last_events download cfg (length codes) (1 + length todo1) t,
        Some e)).
Proof.
  intros ->.
  destruct (LoopFacts.first_raise download cfg (parse_codes isdigit_cp text))
    as [Hq|(todo1 & t & todo2 & e & E & Hq & Ho)].
  - destruct (parse_codes isdigit_cp text) as [|c l] eqn:E.
    + left. split; [reflexivity|]. unfold main. rewrite E. reflexivity.
    + right. left. rewrite <- E in *.
      assert (Hne : parse_codes isdigit_cp text <> [])
        by (rewrite E; discriminate).
      split; [exact Hne|]. split; [exact Hq|]. now apply main_quiet.
  - right. right. exists todo1, t, todo2, e.
    split; [exact E|]. split; [exact Hq|]. split; [exact Ho|].
    rewrite (main_raise _ _ _ _ _ E Hq Ho), E. reflexivity.
Qed.

End Main.

(** A run in which no ticker raises and which ends inside [st.dataframe]:
    the volumes are finite, but the figures of the row are beyond 64
    bits. *)
Example widget_refusal :
  quiet (Sample.download_of huge_response) Sample.cfg [Sample.ticker] /\
  exists out,
    main ascii_digit (Sample.download_of huge_response)
         Sample.st_widget Sample.st_widget Sample.cfg Sample.text true
    = ([StInfo 1; Fetch Sample.ticker 160; Progress 1 1; Dataframe out],
       Some StreamlitError).
Proof.
  split.
  - intros t e [<-|[]]. vm_compute. discriminate.
  - eexists. vm_compute. reflexivity.
Qed.

End MainFacts.

(** ** NaN through the arithmetic of the day change *)

Module NanFacts.

Local Open Scope float_scope.

Lemma div_nan_r x y : is_nan y = true -> is_nan (x / y) = true.
Proof.
  rewrite !FloatFacts.is_nan_spec, FloatAxioms.div_spec. intros ->.
  unfold SF64div, SFdiv. now destruct (Prim2SF x).
Qed.

Lemma mul_nan_l x y : is_nan x = true -> is_nan (x * y) = true.
Proof.
  rewrite !FloatFacts.is_nan_spec, FloatAxioms.mul_spec. intros ->.
  reflexivity.
Qed.

(** A previous close that is NaN gives a day change that is NaN. *)
Lemma pct_nan tc pc : is_nan pc = true -> is_nan ((tc - pc) / pc * 100) = true.
Proof. intros H. now apply mul_nan_l, div_nan_r. Qed.

End NanFacts.

(** ** The opening prices *)

Module OpenFacts.

(** The evaluator reads its frame through three columns and the number of
    rows. *)
Lemma evaluate_ext cfg t df df' :
  empty df = empty df' -> nrows df = nrows df' ->
  getitem df label_Volume = getitem df' label_Volume ->
  getitem df label_Close = getitem df' label_Close ->
  getitem df label_Date = getitem df' label_Date ->
  evaluate cfg t df = evaluate cfg t df'.
Proof.
  intros H1 H2 H3 H4 H5. unfold evaluate. now rewrite H1, H2, H3, H4, H5.
Qed.

Lemma reset_dated p :
  index_name p = Some label_Date ->
  ~ In label_Date (map fst (data p)) ->
  reset_index p = Ret ((label_Date, DateCol (index p)) :: data_columns p).
Proof.
  intros H Hn. unfold reset_index, index_label. rewrite H.
  destruct (has_column label_Date (data_columns p)) eqn:E; [|reflexivity].
  exfalso. apply Hn. apply FrameFacts.has_column_In in E.
  now rewrite FrameFacts.data_columns_labels in E.
Qed.

Lemma name_dated c df :
  name_date ((label_Date, c) :: df) = (label_Date, c) :: df.
Proof. reflexivity. Qed.

Lemma with_open_labels o' p :
  map fst (data (with_open o' p)) = map fst (data p).
Proof.
  unfold with_open. cbn [data]. rewrite map_map. apply map_ext.
  now intros [l xs].
Qed.

Lemma getitem_body_with_open o' p l :
  getitem (data_columns (with_open o' p)) l
  = bind (getitem (data_columns p) l)
      (fun c => Ret (if PyStr.eqb l label_Open then NumCol o' else c)).
Proof.
  unfold data_columns, with_open. cbn [data].
  induction (data p) as [|[l0 xs] dat IH]; [reflexivity|].
  cbn [map getitem]. destruct (PyStr.eqb l l0) eqn:E; [|exact IH].
  apply StrFacts.eqb_eq in E. subst l0. cbn [bind].
  now destruct (PyStr.eqb l label_Open).
Qed.

Lemma getitem_body_num p l c :
  getitem (data_columns p) l = Ret c -> exists xs, c = NumCol xs.
Proof.
  intros H. apply FrameFacts.getitem_In in H. unfold data_columns in H.
  apply in_map_iff in H as ([l' xs] & E & _). injection E as _ <-. eauto.
Qed.

Lemma columns_body_with_open o' p :
  columns (data_columns (with_open o' p)) = columns (data_columns p).
Proof.
  unfold columns, data_columns, with_open. cbn [data]. rewrite !map_map.
  apply map_ext. now intros [l xs].
Qed.

Lemma col_isna_at_num xs i :
  col_isna_at (NumCol xs) i
  = match nth_error (map is_nan xs) i with Some b => b | None => true end.
Proof.
  unfold col_isna_at. cbn [col_cells]. rewrite !nth_error_map.
  now destruct (nth_error xs i).
Qed.

Lemma complete_rows_open c1 o o' c3 c4 :
  map is_nan o' = map is_nan o ->
  complete_rows [(label_Date, c1); (label_Open, NumCol o');
                 (label_Close, c3); (label_Volume, c4)]
  = complete_rows [(label_Date, c1); (label_Open, NumCol o);
                   (label_Close, c3); (label_Volume, c4)].
Proof.
  intros H. unfold complete_rows. cbn [nrows existsb snd].
  apply filter_ext. intros i. now rewrite !col_isna_at_num, H.
Qed.

(** Fetching from a table dated by an index called [Date], with the
    opening prices replaced. *)
Lemma fetch_with_open t d p o' :
  index_name p = Some label_Date ->
  ~ In label_Date (map fst (data p)) ->
  (forall o, getitem (data_columns p) label_Open = Ret (NumCol o) ->
             map is_nan o' = map is_nan o) ->
  exists df df',
    fetch_ohlcv (fun _ _ => Some p) t d = Ret df /\
    fetch_ohlcv (fun _ _ => Some (with_open o' p)) t d = Ret df' /\
    empty df = empty df' /\ nrows df = nrows df' /\
    getitem df label_Volume = getitem df' label_Volume /\
    getitem df label_Close = getitem df' label_Close /\
    getitem df label_Date = getitem df' label_Date.
Proof.
  intros Hname Hn Ho. unfold fetch_ohlcv.
  assert (He : provider_empty (with_open o' p) = provider_empty p).
  { unfold provider_empty, with_open. cbn [index data]. now rewrite length_map. }
  rewrite He. destruct (provider_empty p); [exists [], []; now repeat split|].
  rewrite (reset_dated p Hname Hn).
  rewrite (reset_dated (with_open o' p) Hname)
    by now rewrite with_open_labels.
  cbn [bind]. rewrite !name_dated.
  change (index (with_open o' p)) with (index p).
  assert (Hc : forall l,
            has_column l ((label_Date, DateCol (index p))
                            :: data_columns (with_open o' p))
            = has_column l ((label_Date, DateCol (index p))
                              :: data_columns p)).
  { intros l. unfold has_column. cbn [columns map fst].
    fold (columns (data_columns (with_open o' p))).
    fold (columns (data_columns p)).
    now rewrite columns_body_with_open. }
  cbn [forallb keep_cols]. rewrite !Hc.
  destruct (has_column label_Date _ && (has_column label_Open _ &&
              (has_column label_Close _ && (has_column label_Volume _ && true))))
    eqn:Hk; [|exists [], []; now repeat split].
  apply andb_true_iff in Hk as [_ Hk]. apply andb_true_iff in Hk as [K2 Hk].
  apply andb_true_iff in Hk as [K3 Hk]. apply andb_true_iff in Hk as [K4 _].
  apply FrameFacts.has_column_getitem in K2 as [c2 G2].
  apply FrameFacts.has_column_getitem in K3 as [c3 G3].
  apply FrameFacts.has_column_getitem in K4 as [c4 G4].
  cbn [getitem] in G2, G3, G4.
  change (PyStr.eqb label_Open label_Date) with false in G2.
  change (PyStr.eqb label_Close label_Date) with false in G3.
  change (PyStr.eqb label_Volume label_Date) with false in G4.
  destruct (getitem_body_num _ _ _ G2) as [o ->].
  cbn [select getitem keep_cols].
  change (PyStr.eqb label_Date label_Date) with true.
  change (PyStr.eqb label_Open label_Date) with false.
  change (PyStr.eqb label_Close label_Date) with false.
  change (PyStr.eqb label_Volume label_Date) with false.
  rewrite !getitem_body_with_open, G2, G3, G4. cbn [bind].
  change (PyStr.eqb label_Open label_Open) with true.
  change (PyStr.eqb label_Close label_Open) with false.
  change (PyStr.eqb label_Volume label_Open) with false.
  cbv iota.
  eexists _, _. split; [reflexivity|]. split; [reflexivity|].
  unfold dropna. rewrite (complete_rows_open _ o o' _ _ (Ho o G2)).
  cbn [map]. cbn [empty nrows getitem].
  change (PyStr.eqb label_Volume label_Date) with false.
  change (PyStr.eqb label_Volume label_Open) with false.
  change (PyStr.eqb label_Close label_Date) with false.
  change (PyStr.eqb label_Close label_Open) with false.
  change (PyStr.eqb label_Date label_Date) with true.
  now repeat split.
Qed.

End OpenFacts.

(** ** Where a run's exception comes from *)

Module OverflowFacts.

Local Open Scope float_scope.

Lemma to_int_Overflow x :
  PyFloat.to_int x = Raise OverflowError <-> x = infinity \/ x = neg_infinity.
Proof.
  unfold PyFloat.to_int. split.
  - intros H. rewrite <- (FloatAxioms.SF2Prim_Prim2SF x).
    destruct (Prim2SF x) as [| [|] | |]; try discriminate H; auto.
  - intros [-> | ->]; reflexivity.
Qed.

(** An overflow comes from one of the three [int()] conversions of the
    row: of today's volume, of the recent or of the base average. *)
Lemma evaluate_Overflow cfg t df :
  evaluate cfg t df = Raise OverflowError ->
  exists vol tv,
    getitem df label_Volume = Ret (NumCol vol) /\ iloc vol (-1) = Ret tv /\
    (PyFloat.to_int tv = Raise OverflowError \/
     PyFloat.to_int (recent_avg cfg vol) = Raise OverflowError \/
     PyFloat.to_int (base_avg cfg vol) = Raise OverflowError).
Proof.
  unfold evaluate. repeat EvalFacts.ev_step; intros H; try discriminate H;
    injection H as ->.
  all: try match goal with
    | E : getitem _ _ = Raise _ |- _ =>
        apply EvalFacts.getitem_Raise in E; discriminate E
    | E : iloc _ _ = Raise _ |- _ =>
        apply EvalFacts.iloc_Raise in E; discriminate E
    | E : float_of _ = Raise _ |- _ =>
        apply EvalFacts.float_of_Raise in E; discriminate E
    | E : astype_float _ = Raise _ |- _ =>
        apply EvalFacts.astype_float_Raise in E; discriminate E
    | E : date_of _ = Raise _ |- _ =>
        apply EvalFacts.date_of_Raise in E; discriminate E
    | E : safe_pct_change _ _ = Raise _ |- _ =>
        rewrite EvalFacts.safe_pct_change_eq in E; discriminate E
    end.
  all: repeat match goal with
    | E : astype_float _ = Ret _ |- _ =>
        apply EvalFacts.astype_float_Ret in E; subst
    end.
  all: match goal with
    | I : iloc ?vol (-1) = Ret ?tv |- exists _ _, Ret (NumCol ?vol) = _ /\ _ =>
        exists vol, tv
    end.
  all: split; [reflexivity|]; split; [assumption|]; tauto.
Qed.

(** With no data column labelled [Date] in the provider's table, fetching
    and evaluating a ticker raises nothing but the overflow of [int()] and
    the error of [reset_index]. *)
Lemma outcome_Raise download cfg t e :
  valid_config cfg ->
  (forall p, download t (lookback_days cfg) = Some p ->
             ~ In label_Date (map fst (data p))) ->
  outcome download cfg t = Raise e ->
  (e = OverflowError /\
   exists df, fetch_ohlcv download t (lookback_days cfg) = Ret df /\
              evaluate cfg t df = Raise OverflowError) \/
  (e = ValueError /\
   fetch_ohlcv download t (lookback_days cfg) = Raise ValueError).
Proof.
  intros Hv Hp Ho. unfold outcome in Ho.
  destruct (fetch_ohlcv download t (lookback_days cfg)) as [df| |e0] eqn:Hf;
    cbn [bind] in Ho; try discriminate Ho.
  2:{ right. injection Ho as <-.
      now destruct (FrameFacts.fetch_Raise _ _ _ _ Hf) as [-> _]. }
  left.
  assert (Hs : evaluate cfg t df <> Continue ShortHistory) by congruence.
  pose proof (long_enough _ _ _ Hs) as Hl.
  destruct (PassFacts.long_frame_not_empty _ _ Hv Hl) as [Hne _].
  assert (Hd : exists p, download t (lookback_days cfg) = Some p).
  { destruct (FrameFacts.fetch_inv _ _ _ _ Hf) as [->|(p & _ & Hd & _)];
      [discriminate Hne|eauto]. }
  destruct Hd as [p Hd]. pose proof (Hp p Hd) as Hn.
  destruct (RaiseFacts.evaluate_Raise_column _ _ _ _ Ho) as [Ht Ha].
  destruct (RaiseFacts.evaluate_Raise_fetched _ _ _ _ _ _ Hv Hf Ho)
    as [-> | [-> | ->]]; [exfalso|exfalso|eauto].
  - destruct (Ht eq_refl) as (l & ds & Hl' & Hg).
    assert (Hneq : l <> label_Date)
      by (destruct Hl' as [-> | ->]; discriminate).
    destruct (RaiseFacts.fetched_numeric _ _ _ _ _ _ _ Hd Hn Hf Hneq Hg)
      as [xs Hx]. discriminate Hx.
  - destruct (Ha eq_refl) as [xs Hg].
    destruct (PassFacts.fetched_dates _ _ _ _ _ Hd Hn Hf Hne) as [ds Hds].
    congruence.
Qed.

End OverflowFacts.

(** ** Series shorter than the evaluator's minimum *)

Module ShortFacts.

Lemma complete_rows_length df : (length (complete_rows df) <= nrows df)%nat.
Proof.
  unfold complete_rows.
  etransitivity; [apply filter_length_le|]. now rewrite length_seq.
Qed.

(** A fetched frame has no more rows than the provider's index. *)
Lemma fetched_nrows download t d p df :
  download t d = Some p -> ~ In label_Date (map fst (data p)) ->
  fetch_ohlcv download t d = Ret df ->
  (nrows df <= length (index p))%nat.
Proof.
  intros Hd Hn Hf.
  apply FrameFacts.fetch_inv in Hf as [->|(p' & src & Hd' & _ & Hs & ->)];
    [simpl; lia|].
  rewrite Hd in Hd'. injection Hd' as <-.
  apply FrameFacts.select_keep_cols in Hs
    as (c1 & c2 & c3 & c4 & H1 & _ & _ & _ & ->).
  rewrite (normalize_columns_Date p Hn) in H1. injection H1 as <-.
  rewrite FrameFacts.nrows_dropna by discriminate.
  etransitivity; [apply complete_rows_length|]. reflexivity.
Qed.

(** With a look-back shorter than the minimum of bars every ticker that
    is fetched is skipped at the first guard. *)
Lemma outcome_short download cfg t :
  (lookback_days cfg < min_bars cfg)%Z ->
  dated_by_index download cfg -> daily download cfg ->
  outcome download cfg t = Continue ShortHistory \/
  (outcome download cfg t = Raise ValueError /\
   exists p, download t (lookback_days cfg) = Some p /\ ~ resettable p).
Proof.
  intros Hlt Hp Hday. unfold outcome.
  destruct (FrameFacts.fetch_cases download t (lookback_days cfg))
    as [[df Hf]|[Hf (p & Hd & _ & Hc)]].
  - left. rewrite Hf. cbn [bind]. apply EvalFacts.evaluate_ShortHistory.
    destruct (FrameFacts.fetch_inv _ _ _ _ Hf) as [->|(p & _ & Hd & _)];
      [reflexivity|].
    pose proof (fetched_nrows _ _ _ _ _ Hd (Hp _ _ Hd) Hf) as Hr.
    pose proof (Hday _ _ Hd) as Hb.
    apply orb_true_iff. right. apply Z.ltb_lt. lia.
  - right. rewrite Hf. split; [reflexivity|]. exists p. split; [exact Hd|].
    intros Hr. apply FrameFacts.resettable_spec in Hr. congruence.
Qed.

End ShortFacts.

(** ** Signs *)

Module SignFacts.

Local Open Scope float_scope.

(** Rounding keeps the sign it is given. *)
Lemma binary_round_aux_sign sx mx ex lx :
  match binary_round_aux prec emax sx mx ex lx with
  | S754_zero s | S754_infinity s | S754_finite s _ _ => s = sx
  | S754_nan => True
  end.
Proof.
  unfold binary_round_aux.
  destruct (shr_fexp prec emax mx ex lx) as [mrs' e'].
  destruct (shr_fexp prec emax _ e' loc_Exact) as [mrs'' e''].
  destruct (shr_m mrs''); [reflexivity| |exact I].
  destruct (e'' <=? emax - prec)%Z; reflexivity.
Qed.

Lemma positive_cases x :
  (0 <? x) = true <->
  Prim2SF x = S754_infinity false \/
  exists m e, Prim2SF x = S754_finite false m e.
Proof.
  rewrite ltb_spec. change (Prim2SF 0) with (S754_zero false).
  unfold SFltb. split.
  - destruct (Prim2SF x) as [[|]|[|]| |[|] m e]; simpl; try discriminate; eauto.
  - intros [->|(m & e & ->)]; reflexivity.
Qed.

(** A positive quotient over a positive divisor has a positive
    dividend. *)
Lemma div_positive x y :
  (0 <? y) = true -> (0 <? x / y) = true -> (0 <? x) = true.
Proof.
  rewrite !positive_cases, div_spec. intros Hy Hq.
  destruct (Prim2SF x) as [[|]|[|]| |[|] mx ex];
    destruct Hy as [Hy|(my & ey & Hy)]; rewrite Hy in Hq; eauto;
    try (destruct Hq as [Hq|(m & e & Hq)]; discriminate Hq).
  all: exfalso; unfold SF64div, SFdiv in Hq;
    destruct (SFdiv_core_binary _ _ _ _ _ _) as [[q e0] l];
    pose proof (binary_round_aux_sign (xorb true false) q e0 l) as S;
    destruct Hq as [Hq|(m & e & Hq)]; rewrite Hq in S; discriminate S.
Qed.

(** [int()] of a positive float is not negative. *)
Lemma to_int_positive x z :
  (0 <? x) = true -> PyFloat.to_int x = Ret z -> (0 <= z)%Z.
Proof.
  rewrite positive_cases. unfold PyFloat.to_int.
  intros [->|(m & e & ->)]; [discriminate|].
  assert (K : (0 <= if (0 <=? e)%Z then Z.pos m * 2 ^ e
                    else Z.pos m / 2 ^ (- e))%Z).
  { destruct (Z.leb_spec 0 e).
    - apply Z.mul_nonneg_nonneg; [lia|]. apply Z.pow_nonneg. lia.
    - apply Z.div_pos; [lia|]. apply Z.pow_pos_nonneg; lia. }
  intros [= <-]. exact K.
Qed.

End SignFacts.

(** ** Ties in the ranking *)

Module TieFacts.

Lemma row_compare_trans a b c :
  row_compare a b <> Gt -> row_compare b c <> Gt ->
  row_compare a c
  = match row_compare a b with Eq => row_compare b c | _ => Lt end.
Proof.
  unfold row_compare.
  pose proof (SortFacts.desc_compare_trans (today_ratio a) (today_ratio b)
                (today_ratio c)) as T.
  pose proof (SortFacts.desc_compare_trans (recent_ratio a) (recent_ratio b)
                (recent_ratio c)) as R.
  destruct (desc_compare (today_ratio a) (today_ratio b)) eqn:E1;
    destruct (desc_compare (today_ratio b) (today_ratio c)) eqn:E2;
    intros H1 H2; try congruence;
    try (rewrite T by discriminate; reflexivity).
  all: rewrite T by discriminate.
  all: destruct (desc_compare (recent_ratio a) (recent_ratio b)) eqn:E3;
    try congruence; try reflexivity.
  all: destruct (desc_compare (recent_ratio b) (recent_ratio c)) eqn:E4;
    try congruence; rewrite R by discriminate; reflexivity.
Qed.

Lemma above_trans a b c : above a b -> above b c -> above a c.
Proof.
  unfold above. intros Hab Hbc.
  assert (H1 : row_compare a b <> Gt) by (destruct Hab as [H|[H _]]; congruence).
  assert (H2 : row_compare b c <> Gt) by (destruct Hbc as [H|[H _]]; congruence).
  rewrite (row_compare_trans a b c H1 H2).
  destruct Hab as [->|[-> Lab]]; [now left|].
  destruct Hbc as [->|[-> Lbc]]; [now left|].
  right. split; [reflexivity|]. exact (StrFacts.lt_trans _ _ _ Lab Lbc).
Qed.

Lemma insert_row_above a l :
  Forall (fun x => PyStr.lt (Ticker a) (Ticker x)) l ->
  StronglySorted above l -> StronglySorted above (insert_row a l).
Proof.
  intros Ha Hs. induction Hs as [|b l Hs IH Hb]; simpl; [repeat constructor|].
  inversion Ha as [|? ? Hab Hal]; subst.
  unfold row_leb. destruct (row_compare a b) eqn:E.
  - assert (K : above a b) by (right; auto).
    constructor; [now constructor|]. constructor; [exact K|].
    eapply Forall_impl; [|exact Hb]. intros x Hx. exact (above_trans _ _ _ K Hx).
  - assert (K : above a b) by (left; auto).
    constructor; [now constructor|]. constructor; [exact K|].
    eapply Forall_impl; [|exact Hb]. intros x Hx. exact (above_trans _ _ _ K Hx).
  - constructor; [now apply IH|].
    apply Forall_forall. intros x Hx.
    apply RunFacts.insert_row_In in Hx as [->|Hx].
    + left. rewrite SortFacts.row_compare_antisym, E. reflexivity.
    + rewrite Forall_forall in Hb. auto.
Qed.

(** Rows that come in the order of their tickers leave the sort with ties
    in that order. *)
Lemma sort_values_above rows :
  StronglySorted (fun a b => PyStr.lt (Ticker a) (Ticker b)) rows ->
  StronglySorted above (sort_values rows).
Proof.
  induction 1 as [|a l Hs IH Ha]; simpl; [constructor|].
  apply insert_row_above; [|exact IH].
  rewrite Forall_forall in Ha |- *. intros x Hx. apply Ha.
  now apply RunFacts.sort_values_In.
Qed.

Lemma StronglySorted_filter {A} (R : A -> A -> Prop) f l :
  StronglySorted R l -> StronglySorted R (filter f l).
Proof.
  induction 1 as [|a l Hs IH Ha]; simpl; [constructor|].
  destruct (f a); [|exact IH]. constructor; [exact IH|].
  rewrite Forall_forall in Ha |- *. intros x Hx. apply Ha.
  now apply filter_In in Hx as [Hx _].
Qed.

Lemma StronglySorted_map {A B} (R : B -> B -> Prop) (f : A -> B) l :
  StronglySorted R (map f l) -> StronglySorted (fun a b => R (f a) (f b)) l.
Proof.
  induction l as [|a l IH]; simpl; intros H; [constructor|].
  inversion H as [|? ? Hs Ha]; subst. constructor; [now apply IH|].
  rewrite Forall_forall in Ha |- *. intros x Hx. apply Ha. now apply in_map.
Qed.

Lemma StronglySorted_firstn {A} (R : A -> A -> Prop) k l :
  StronglySorted R l -> StronglySorted R (firstn k l).
Proof.
  intros H. revert k. induction H as [|a l Hs IH Ha]; intros [|k]; simpl;
    try constructor; [apply IH|].
  rewrite Forall_forall in Ha |- *. intros x Hx. apply Ha.
  exact (RunFacts.firstn_In _ _ _ Hx).
Qed.

(** The rows of a run come in the order of their tickers. *)
Lemma passing_rows_sorted download cfg codes :
  StronglySorted PyStr.lt codes ->
  StronglySorted (fun a b => PyStr.lt (Ticker a) (Ticker b))
    (passing_rows download cfg codes).
Proof.
  intros H. apply StronglySorted_map.
  rewrite LoopFacts.passing_rows_tickers. now apply StronglySorted_filter.
Qed.

Lemma rank_above n rows :
  StronglySorted (fun a b => PyStr.lt (Ticker a) (Ticker b)) rows ->
  StronglySorted above (rank n rows).
Proof.
  intros H. unfold rank, Pandas.head.
  destruct (0 <=? n)%Z; apply StronglySorted_firstn; now apply sort_values_above.
Qed.

(** [above] in the figures of two rows whose keys are numbers. *)
Lemma above_stands a b :
  keys_defined a -> keys_defined b -> above a b -> stands_above a b.
Proof.
  intros [Ha1 Ha2] [Hb1 Hb2]. unfold above, row_compare, stands_above.
  unfold desc_compare. rewrite Ha1, Ha2, Hb1, Hb2.
  destruct (today_ratio b <? today_ratio a)%float eqn:E1; [auto|].
  destruct (today_ratio a <? today_ratio b)%float eqn:E2;
    [intros [H|[H _]]; discriminate H|].
  assert (T : (today_ratio a =? today_ratio b)%float = true)
    by (apply FloatFacts.ltb_false_eqb; auto).
  destruct (recent_ratio b <? recent_ratio a)%float eqn:E3; [auto|].
  destruct (recent_ratio a <? recent_ratio b)%float eqn:E4;
    [intros [H|[H _]]; discriminate H|].
  intros [H|[_ H]]; [discriminate H|].
  right. split; [exact T|]. right. split; [|exact H].
  apply FloatFacts.ltb_false_eqb; auto.
Qed.

End TieFacts.

(** ** Traces of a run *)

Module TraceFacts.

Lemma sorted_NoDup (l : list str) : StronglySorted PyStr.lt l -> NoDup l.
Proof.
  induction 1 as [|a l Hs IH Ha]; constructor; [|exact IH].
  intros Hin. rewrite Forall_forall in Ha.
  apply (StrFacts.lt_irrefl a). now apply Ha.
Qed.

Lemma parse_codes_NoDup isdigit_cp text : NoDup (parse_codes isdigit_cp text).
Proof. apply sorted_NoDup. apply ParserFacts.sorted_set_sorted. Qed.

Lemma NoDup_firstn {A} k (l : list A) : NoDup l -> NoDup (firstn k l).
Proof.
  intros H. rewrite <- (firstn_skipn k l) in H.
  now apply NoDup_app_remove_r in H.
Qed.

Lemma NoDup_filter {A} (f : A -> bool) (l : list A) :
  NoDup l -> NoDup (filter f l).
Proof.
  induction 1 as [|a l Ha Hl IH]; simpl; [constructor|].
  destruct (f a); [|exact IH]. constructor; [|exact IH].
  rewrite filter_In. tauto.
Qed.

Lemma rank_length n rows :
  (0 <= n)%Z -> length (rank n rows) = Nat.min (Z.to_nat n) (length rows).
Proof.
  intros Hn. unfold rank, Pandas.head.
  destruct (Z.leb_spec 0 n); [|lia].
  rewrite length_firstn.
  now rewrite (Permutation_length (SortFacts.sort_values_Permutation rows)).
Qed.

Lemma rank_NoDup n rows :
  NoDup (map Ticker rows) -> NoDup (map Ticker (rank n rows)).
Proof.
  intros H. unfold rank, Pandas.head.
  assert (K : NoDup (map Ticker (sort_values rows))).
  { eapply Permutation_NoDup; [|exact H].
    apply Permutation_map, Permutation_sym, SortFacts.sort_values_Permutation. }
  destruct (0 <=? n)%Z; rewrite <- firstn_map; now apply NoDup_firstn.
Qed.

Lemma In_loop_events cfg n i codes ev :
  In ev (loop_events cfg n i codes) ->
  (exists t, ev = Fetch t (lookback_days cfg)) \/ exists j, ev = Progress j n.
Proof.
  revert i. induction codes as [|t codes IH]; intros i; simpl; [tauto|].
  intros [<-|[<-|H]]; eauto.
Qed.

Lemma fetches_after_loop st_df st_dl cfg rows :
  fetches (fst (after_loop st_df st_dl cfg rows)) = [].
Proof.
  unfold after_loop, show_table. destruct rows; [reflexivity|].
  destruct (st_df _); [reflexivity|]. now destruct (st_dl _).
Qed.

Lemma fetches_last_events download cfg n i t :
  fetches (last_events download cfg n i t) = [(t, lookback_days cfg)].
Proof.
  unfold last_events.
  now destruct (fetch_ohlcv download t (lookback_days cfg)).
Qed.

Lemma shown_last_events download cfg n i t :
  shown (last_events download cfg n i t) = [].
Proof.
  unfold last_events.
  now destruct (fetch_ohlcv download t (lookback_days cfg)).
Qed.

Lemma In_last_events download cfg n i t ev :
  In ev (last_events download cfg n i t) ->
  ev = Fetch t (lookback_days cfg) \/ ev = Progress i n.
Proof.
  unfold last_events.
  destruct (fetch_ohlcv download t (lookback_days cfg)); simpl; intuition.
Qed.

(** The events of the two widgets. *)
Lemma In_after_loop st_df st_dl cfg rows ev :
  In ev (fst (after_loop st_df st_dl cfg rows)) ->
  match rows with
  | [] => ev = StWarning \/ ev = StStop
  | _ => ev = Dataframe (rank (top_n cfg) rows) \/
         (ev = DownloadButton (rank (top_n cfg) rows) /\
          st_df (rank (top_n cfg) rows) = None) \/
         (ev = Footer /\ st_df (rank (top_n cfg) rows) = None /\
          st_dl (rank (top_n cfg) rows) = None)
  end.
Proof.
  unfold after_loop, show_table. destruct rows as [|r rows].
  - simpl. intuition.
  - destruct (st_df _); [simpl; intuition|].
    destruct (st_dl _); simpl; intuition.
Qed.

Lemma fetches_run cfg n codes tl :
  fetches tl = [] ->
  fetches (StInfo n :: loop_events cfg n 1 codes ++ tl)
  = map (fun t => (t, lookback_days cfg)) codes.
Proof.
  intros H. change (StInfo n :: loop_events cfg n 1 codes ++ tl)
    with ([StInfo n] ++ loop_events cfg n 1 codes ++ tl).
  rewrite !LoopFacts.fetches_app, LoopFacts.fetches_loop_events, H.
  simpl. now rewrite app_nil_r.
Qed.

Lemma shown_run cfg n codes tl :
  shown (StInfo n :: loop_events cfg n 1 codes ++ tl) = shown tl.
Proof.
  change (StInfo n :: loop_events cfg n 1 codes ++ tl)
    with ([StInfo n] ++ loop_events cfg n 1 codes ++ tl).
  now rewrite !RunFacts.shown_app, LoopFacts.shown_loop_events.
Qed.

(** The table of a run, if it shows one. *)
Lemma In_run cfg n codes tl ev :
  In ev (StInfo n :: loop_events cfg n 1 codes ++ tl) ->
  ev = StInfo n \/ (exists t, ev = Fetch t (lookback_days cfg)) \/
  (exists j, ev = Progress j n) \/ In ev tl.
Proof.
  intros [<-|H]; [now left|]. apply in_app_or in H as [H|H]; [|tauto].
  apply In_loop_events in H. tauto.
Qed.

Lemma passing_rows_NoDup download cfg codes :
  NoDup codes -> NoDup (map Ticker (passing_rows download cfg codes)).
Proof.
  intros H. rewrite LoopFacts.passing_rows_tickers. now apply NoDup_filter.
Qed.

End TraceFacts.

(** ** The rows a run shows *)

Module ShownFacts.

(** What a run hands to the widgets, if anything: the ranking of the rows
    that pass. *)
Lemma shown_after_loop st_df st_dl cfg rows r :
  In r (shown (fst (after_loop st_df st_dl cfg rows))) ->
  In r (rank (top_n cfg) rows).
Proof.
  unfold after_loop. destruct rows as [|r0 rows]; [intros []|].
  apply RunFacts.shown_show_table.
Qed.

(** The rows a run shows are rows of codes that pass. *)
Lemma shown_passing isdigit_cp download st_df st_dl cfg text run r :
  In r (shown (fst (main isdigit_cp download st_df st_dl cfg text run))) ->
  In r (passing_rows download cfg (parse_codes isdigit_cp text)).
Proof.
  destruct run; [|intros []].
  destruct (MainFacts.main_cases isdigit_cp download st_df st_dl cfg text
              _ eq_refl)
    as [[_ E]|[(_ & _ & E)|(todo1 & t & todo2 & e & _ & _ & _ & E)]];
    rewrite E; cbn [fst].
  - intros [].
  - rewrite TraceFacts.shown_run. intros H.
    apply shown_after_loop in H. exact (RunFacts.rank_In _ _ _ H).
  - rewrite TraceFacts.shown_run, TraceFacts.shown_last_events. intros [].
Qed.

(** So each comes from fetching and evaluating one of the codes. *)
Lemma shown_outcome isdigit_cp download st_df st_dl cfg text run r :
  In r (shown (fst (main isdigit_cp download st_df st_dl cfg text run))) ->
  In (Ticker r) (parse_codes isdigit_cp text) /\
  exists df, fetch_ohlcv download (Ticker r) (lookback_days cfg) = Ret df /\
             evaluate cfg (Ticker r) df = Ret r.
Proof.
  intros H. apply shown_passing in H.
  apply LoopFacts.passing_rows_In in H as (t & Ht & Ho).
  pose proof (LoopFacts.outcome_ticker _ _ _ _ Ho) as Hr. rewrite Hr.
  split; [exact Ht|]. now apply LoopFacts.outcome_Ret.
Qed.

End ShownFacts.

(** ** The cut at the number of rows *)

Module CutFacts.

(** In a sorted list every entry of a front part stands before every
    entry of the rest. *)
Lemma StronglySorted_cut {A} (R : A -> A -> Prop) k l a b :
  StronglySorted R l -> In a (firstn k l) -> In b (skipn k l) -> R a b.
Proof.
  intros H. revert k. induction H as [|x l Hs IH Hx]; intros k Ha Hb.
  - rewrite firstn_nil in Ha. destruct Ha.
  - destruct k as [|k]; [destruct Ha|]. cbn [firstn skipn] in Ha, Hb.
    destruct Ha as [<-|Ha]; [|now apply (IH k)].
    rewrite Forall_forall in Hx. apply Hx.
    rewrite <- (firstn_skipn k l). apply in_or_app. now right.
Qed.

(** The table of a run, if one is handed to [st.dataframe]. *)
Lemma table_rank isdigit_cp download st_df st_dl cfg text run out :
  In (Dataframe out)
     (fst (main isdigit_cp download st_df st_dl cfg text run)) ->
  out = rank (top_n cfg)
          (passing_rows download cfg (parse_codes isdigit_cp text)) /\
  passing_rows download cfg (parse_codes isdigit_cp text) <> [] /\
  quiet download cfg (parse_codes isdigit_cp text) /\
  run = true.
Proof.
  intros Hin.
  destruct run; [|destruct Hin as [H|[]]; discriminate H].
  destruct (MainFacts.main_cases isdigit_cp download st_df st_dl cfg text
              _ eq_refl)
    as [[_ E]|[(_ & Hq & E)|(todo1 & t & todo2 & e & _ & _ & _ & E)]];
    rewrite E in Hin; cbn [fst] in Hin.
  - destruct Hin as [H|[H|[]]]; discriminate H.
  - apply TraceFacts.In_run in Hin as [H|[[c H]|[[k H]|H]]];
      try discriminate H.
    apply TraceFacts.In_after_loop in H.
    destruct (passing_rows download cfg (parse_codes isdigit_cp text)).
    + destruct H as [H|H]; discriminate H.
    + destruct H as [H|[[H _]|[H _]]]; try discriminate H.
      injection H as ->. repeat split; auto. discriminate.
  - apply TraceFacts.In_run in Hin as [H|[[c H]|[[k H]|H]]];
      try discriminate H.
    apply TraceFacts.In_last_events in H as [H|H]; discriminate H.
Qed.

Lemma passing_keys_defined download cfg codes r :
  In r (passing_rows download cfg codes) -> keys_defined r.
Proof.
  intros Hr. apply LoopFacts.passing_rows_In in Hr as (t & _ & Ht).
  apply LoopFacts.outcome_Ret in Ht as (df & _ & He).
  exact (EvalFacts.evaluate_keys_defined _ _ _ _ He).
Qed.

End CutFacts.

(** ** Tables that hold every passing row *)

Module FullFacts.

(** When no ticker raises and the table can hold every passing row, every
    passing row is handed to [st.dataframe]. *)
Lemma passing_shown isdigit_cp download st_df st_dl cfg text r :
  quiet download cfg (parse_codes isdigit_cp text) ->
  (Z.of_nat (length (passing_rows download cfg (parse_codes isdigit_cp text)))
   <= top_n cfg)%Z ->
  In r (passing_rows download cfg (parse_codes isdigit_cp text)) ->
  In r (shown (fst (main isdigit_cp download st_df st_dl cfg text true))).
Proof.
  intros Hq Hn Hr.
  assert (Hne : parse_codes isdigit_cp text <> []).
  { intros E. rewrite E in Hr. destruct Hr. }
  rewrite (MainFacts.main_quiet isdigit_cp download st_df st_dl cfg text
             Hne Hq).
  cbn [fst]. rewrite TraceFacts.shown_run. unfold after_loop, show_table.
  destruct (passing_rows download cfg (parse_codes isdigit_cp text))
    as [|r0 rows] eqn:E; [destruct Hr|].
  assert (K : In r (rank (top_n cfg) (r0 :: rows))).
  { unfold rank, Pandas.head.
    destruct (Z.leb_spec 0 (top_n cfg)); [|lia].
    rewrite firstn_all2.
    - now apply RunFacts.sort_values_In.
    - rewrite (Permutation_length (SortFacts.sort_values_Permutation _)).
      lia. }
  destruct (st_df _); [|destruct (st_dl _)];
    cbn [fst shown flat_map]; apply in_or_app; now left.
Qed.

End FullFacts.


(** ** Further properties of the run, the fetcher and the parser *)

(** X1. On a fetched series with enough bars the evaluator returns a row
    exactly when every threshold is met and the three figures it converts
    with [int()] are finite: the previous close is positive, the day
    change is a number not above the maximum, the base average is positive
    and not below the liquidity floor, the recent/base ratio and the spike
    ratio reach their minimums, and the volume of the day before reaches
    the spike-base average. *)
Theorem X1_filter_exact download cfg t p df vol cl :
  valid_config cfg ->
  download t (lookback_days cfg) = Some p ->
  ~ In label_Date (map fst (data p)) ->
  fetch_ohlcv download t (lookback_days cfg) = Ret df ->
  (min_bars cfg <= Z.of_nat (nrows df))%Z ->
  getitem df label_Volume = Ret (NumCol vol) ->
  getitem df label_Close = Ret (NumCol cl) ->
  ((exists r, evaluate cfg t df = Ret r) <->
   thresholds_met cfg vol cl /\ finite (last_of vol) /\
   finite (recent_avg cfg vol) /\ finite (base_avg cfg vol)).
Proof.
  intros Hv Hd Hn Hf Hl Hvol Hcl.
  pose proof (valid_min_bars _ Hv) as Hm.
  destruct (PassFacts.long_frame_not_empty _ _ Hv Hl) as [He G].
  destruct (FrameFacts.fetched_floats _ _ _ _ _ _ Hf Hvol) as [Lv Nv].
  destruct (FrameFacts.fetched_floats _ _ _ _ _ _ Hf Hcl) as [Lc Nc].
  rewrite Forall_forall in Nv, Nc.
  destruct (PassFacts.iloc_last_prev vol) as (Vl & Vp & Vli & Vpi); [lia|].
  destruct (PassFacts.iloc_last_prev cl) as (Cl & Cp & Cli & Cpi); [lia|].
  destruct (PassFacts.valid_thresholds_defined _ Hv) as (D1 & D2 & D3).
  split.
  - intros [r H].
    destruct (EvalFacts.evaluate_accepted _ _ _ _ H)
      as (vol' & cl' & tc & pc & tv & pv & A).
    pose proof (EvalFacts.evaluate_keys_defined _ _ _ _ H) as [K1 K2].
    rewrite (acc_row_today_ratio _ _ _ _ _ _ _ _ _ _ A) in K1.
    rewrite (acc_row_ratio _ _ _ _ _ _ _ _ _ _ A) in K2.
    pose proof (acc_volume _ _ _ _ _ _ _ _ _ _ A) as E1.
    rewrite Hvol in E1. injection E1 as <-.
    pose proof (acc_close _ _ _ _ _ _ _ _ _ _ A) as E2.
    rewrite Hcl in E2. injection E2 as <-.
    pose proof (acc_tc _ _ _ _ _ _ _ _ _ _ A) as E3.
    rewrite Cl in E3. injection E3 as <-.
    pose proof (acc_pc _ _ _ _ _ _ _ _ _ _ A) as E4.
    rewrite Cp in E4. injection E4 as <-.
    pose proof (acc_tv _ _ _ _ _ _ _ _ _ _ A) as E5.
    rewrite Vl in E5. injection E5 as <-.
    pose proof (acc_pv _ _ _ _ _ _ _ _ _ _ A) as E6.
    rewrite Vp in E6. injection E6 as <-.
    split; [|repeat split].
    + unfold thresholds_met. cbv zeta. repeat split.
      * apply FloatFacts.positive; [auto|apply (acc_pc_pos _ _ _ _ _ _ _ _ _ _ A)].
      * apply (acc_pct_defined _ _ _ _ _ _ _ _ _ _ A).
      * apply FloatFacts.ltb_false_leb; auto.
        -- apply (acc_pct_defined _ _ _ _ _ _ _ _ _ _ A).
        -- apply (acc_pct_max _ _ _ _ _ _ _ _ _ _ A).
      * apply FloatFacts.positive;
          [apply (acc_base_defined _ _ _ _ _ _ _ _ _ _ A)
          |apply (acc_base_pos _ _ _ _ _ _ _ _ _ _ A)].
      * apply FloatFacts.ltb_false_leb.
        -- apply (acc_base_defined _ _ _ _ _ _ _ _ _ _ A).
        -- apply ConvFacts.of_int_defined.
        -- apply (acc_liquid _ _ _ _ _ _ _ _ _ _ A).
      * apply FloatFacts.ltb_false_leb; auto.
        apply (acc_recent_ratio _ _ _ _ _ _ _ _ _ _ A).
      * apply FloatFacts.positive;
          [apply (acc_spike_defined _ _ _ _ _ _ _ _ _ _ A)
          |apply (acc_spike_pos _ _ _ _ _ _ _ _ _ _ A)].
      * apply FloatFacts.ltb_false_leb; auto.
        apply (acc_spike_ratio _ _ _ _ _ _ _ _ _ _ A).
      * apply FloatFacts.ltb_false_leb; auto.
        -- apply (acc_spike_defined _ _ _ _ _ _ _ _ _ _ A).
        -- apply (acc_continuity _ _ _ _ _ _ _ _ _ _ A).
    + eexists. apply (acc_row_today _ _ _ _ _ _ _ _ _ _ A).
    + eexists. apply (acc_row_recent _ _ _ _ _ _ _ _ _ _ A).
    + eexists. apply (acc_row_base _ _ _ _ _ _ _ _ _ _ A).
  - intros (M & [ti T1] & [ri T2] & [bi T3]).
    unfold thresholds_met in M. cbv zeta in M.
    destruct M as (M1 & M2 & M3 & M4 & M5 & M6 & M7 & M8 & M9).
    destruct (PassFacts.fetched_dates _ _ _ _ _ Hd Hn Hf He) as [ds Hds].
    destruct (FrameFacts.fetched_column _ _ _ _ _ _ Hf Hds) as [Ld _].
    simpl in Ld.
    destruct (PassFacts.iloc_dates_last ds) as [d Hdl]; [lia|].
    eexists.
    apply (PassFacts.evaluate_pass cfg t df vol cl ds (last_of cl) (prev_of cl)
             (last_of vol) (prev_of vol) d ti ri bi); auto.
    + now apply FloatFacts.ltb_true_leb_false.
    + now apply FloatFacts.leb_true_ltb_false.
    + apply PassFacts.finite_defined. now exists ri.
    + eapply FloatFacts.ltb_true_nan_r; eauto.
    + now apply FloatFacts.ltb_true_leb_false.
    + now apply FloatFacts.leb_true_ltb_false.
    + now apply FloatFacts.leb_true_ltb_false.
    + eapply FloatFacts.ltb_true_nan_r; eauto.
    + now apply FloatFacts.ltb_true_leb_false.
    + now apply FloatFacts.leb_true_ltb_false.
    + now apply FloatFacts.leb_true_ltb_false.
Qed.

Lemma X1_witness :
  thresholds_met Sample.cfg Sample.vols Sample.closes.
Proof.
  assert (Hd : Sample.download_of Sample.response Sample.ticker
                 (lookback_days Sample.cfg) = Some Sample.response)
    by reflexivity.
  assert (Hn : ~ In label_Date (map fst (data Sample.response))).
  { simpl. intros [H|[H|[H|[H|[]]]]]; discriminate H. }
  assert (Hf : fetch_ohlcv (Sample.download_of Sample.response) Sample.ticker
                 (lookback_days Sample.cfg) = Ret Sample.frame)
    by (vm_compute; reflexivity).
  assert (Hl : (min_bars Sample.cfg <= Z.of_nat (nrows Sample.frame))%Z)
    by (vm_compute; discriminate).
  assert (Hv : getitem Sample.frame label_Volume = Ret (NumCol Sample.vols))
    by (vm_compute; reflexivity).
  assert (Hc : getitem Sample.frame label_Close = Ret (NumCol Sample.closes))
    by (vm_compute; reflexivity).
  assert (Hr : exists r, evaluate Sample.cfg Sample.ticker Sample.frame = Ret r)
    by (eexists; vm_compute; reflexivity).
  exact (proj1 (proj1 (X1_filter_exact _ Sample.cfg Sample.ticker _ _ _ _
                         sample_valid Hd Hn Hf Hl Hv Hc) Hr)).
Defined.

(** X2. When no ticker ends in an exception, a run over at least one code
    announces the number of codes, fetches every code once in the order of
    the parsed list, each for the look-back of the sidebar and each
    followed by its progress [i / n].  With no passing row it then shows
    the warning and stops.  Otherwise it hands the ranked table of the
    passing rows to [st.dataframe], then to [st.download_button], then
    writes the footer; an exception of either widget ends the run at that
    widget, and is the only way such a run ends in an exception. *)
Theorem X2_run_completes isdigit_cp download st_df st_dl cfg text :
  parse_codes isdigit_cp text <> [] ->
  quiet download cfg (parse_codes isdigit_cp text) ->
  let codes := parse_codes isdigit_cp text in
  let rows := passing_rows download cfg codes in
  let out := rank (top_n cfg) rows in
  main isdigit_cp download st_df st_dl cfg text true
  = (StInfo (length codes) :: loop_events cfg (length codes) 1 codes
       ++ match rows with
          | [] => [StWarning; StStop]
          | _ => match st_df out, st_dl out with
                 | Some _, _ => [Dataframe out]
                 | None, Some _ => [Dataframe out; DownloadButton out]
                 | None, None => [Dataframe out; DownloadButton out; Footer]
                 end
          end,
     match rows with
     | [] => None
     | _ => match st_df out with
            | Some e => Some e
            | None => st_dl out
            end
     end).
Proof.
  intros Hne Hq codes rows out.
  rewrite (MainFacts.main_quiet isdigit_cp download st_df st_dl cfg text
             Hne Hq).
  fold codes. fold rows. unfold after_loop, show_table. fold out.
  destruct rows; [reflexivity|].
  destruct (st_df out); [reflexivity|]. now destruct (st_dl out).
Qed.

Lemma X2_witness :
  main ascii_digit (Sample.download_of Sample.response)
       Sample.st_widget Sample.st_widget Sample.cfg Sample.text true
  = (StInfo 1 :: loop_events Sample.cfg 1 1 [Sample.ticker]
       ++ [Dataframe [Sample.row_2]; DownloadButton [Sample.row_2]; Footer],
     None).
Proof.
  assert (Hne : parse_codes ascii_digit Sample.text <> [])
    by (vm_compute; discriminate).
  assert (Hq : quiet (Sample.download_of Sample.response) Sample.cfg
                 (parse_codes ascii_digit Sample.text)).
  { intros t e [<-|[]]. vm_compute. discriminate. }
  exact (X2_run_completes ascii_digit (Sample.download_of Sample.response)
           Sample.st_widget Sample.st_widget Sample.cfg Sample.text Hne Hq).
Defined.

(** X3. An exception at one ticker ends the run there: the trace stops
    after the progress of that ticker, or after its fetch when it is the
    fetcher that raises; the tickers after it are not fetched, and
    neither the rows gathered before it nor the warning nor the footer
    are shown. *)
Theorem X3_run_aborts isdigit_cp download st_df st_dl cfg text todo1 t todo2 e :
  parse_codes isdigit_cp text = todo1 ++ t :: todo2 ->
  quiet download cfg todo1 ->
  outcome download cfg t = Raise e ->
  let n := length (parse_codes isdigit_cp text) in
  let tr := main isdigit_cp download st_df st_dl cfg text true in
  tr = (StInfo n :: loop_events cfg n 1 todo1
          ++ Fetch t (lookback_days cfg)
          :: match fetch_ohlcv download t (lookback_days cfg) with
             | Raise _ => []
             | _ => [Progress (1 + length todo1) n]
             end,
        Some e) /\
  (forall df, fetch_ohlcv download t (lookback_days cfg) = Ret df ->
     tr = (StInfo n :: loop_events cfg n 1 (todo1 ++ [t]), Some e)) /\
  fetches (fst tr) = map (fun c => (c, lookback_days cfg)) (todo1 ++ [t]) /\
  shown (fst tr) = [] /\
  ~ In StWarning (fst tr) /\ ~ In Footer (fst tr).
Proof.
  intros E Hq Ho n tr.
  assert (Ht : tr = (StInfo n :: loop_events cfg n 1 todo1
                       ++ last_events download cfg n (1 + length todo1) t,
                     Some e)).
  { unfold tr, n.
    rewrite (MainFacts.main_raise _ _ _ _ _ _ _ _ _ _ E Hq Ho).
    now rewrite E. }
  split.
  { rewrite Ht. unfold last_events.
    now destruct (fetch_ohlcv download t (lookback_days cfg)). }
  split.
  { intros df Hf. rewrite Ht, LoopFacts.loop_events_app.
    now rewrite (LoopFacts.last_events_Ret _ _ _ _ _ _ Hf). }
  rewrite Ht. cbn [fst].
  split.
  { change (StInfo n :: loop_events cfg n 1 todo1
              ++ last_events download cfg n (1 + length todo1) t)
      with ([StInfo n] ++ loop_events cfg n 1 todo1
              ++ last_events download cfg n (1 + length todo1) t).
    rewrite !LoopFacts.fetches_app, LoopFacts.fetches_loop_events,
      TraceFacts.fetches_last_events, map_app. reflexivity. }
  split.
  { now rewrite TraceFacts.shown_run, TraceFacts.shown_last_events. }
  split; intros H; apply TraceFacts.In_run in H
    as [H|[[c H]|[[j H]|H]]]; try discriminate H;
    apply TraceFacts.In_last_events in H as [H|H]; discriminate H.
Qed.

Lemma X3_witness :
  main ascii_digit (Sample.download_of overflow_response)
       Sample.st_widget Sample.st_widget Sample.cfg
       (PyStr.of_string "7203,6758") true
  = ([StInfo 2; Fetch (PyStr.of_string "6758.T") 160; Progress 1 2],
     Some OverflowError).
Proof.
  assert (E : parse_codes ascii_digit (PyStr.of_string "7203,6758")
              = [] ++ PyStr.of_string "6758.T" :: [Sample.ticker])
    by (vm_compute; reflexivity).
  assert (Hq : quiet (Sample.download_of overflow_response) Sample.cfg [])
    by (intros t e []).
  assert (Ho : outcome (Sample.download_of overflow_response) Sample.cfg
                 (PyStr.of_string "6758.T") = Raise OverflowError)
    by (vm_compute; reflexivity).
  exact (proj1 (X3_run_aborts ascii_digit _ Sample.st_widget Sample.st_widget
                  Sample.cfg _ _ _ _ _ E Hq Ho)).
Defined.

(** X4. A run hands at most one table to its widgets.  If it hands one to
    [st.dataframe], the table is the ranking of the rows of the codes that
    pass, cut at the number of rows of the sidebar: it is not empty, it
    has as many rows as pass but no more than [top_n], and no ticker
    stands in it twice.  The download button is reached exactly when
    [st.dataframe] accepts the table, and then offers the same rows; the
    footer is reached exactly when both widgets accept it, and the run
    ends in the exception of the first widget that refuses it, if one
    does. *)
Theorem X4_table isdigit_cp download st_df st_dl cfg text run out :
  valid_config cfg ->
  In (Dataframe out)
     (fst (main isdigit_cp download st_df st_dl cfg text run)) ->
  let rows := passing_rows download cfg (parse_codes isdigit_cp text) in
  let tr := main isdigit_cp download st_df st_dl cfg text run in
  out = rank (top_n cfg) rows /\
  length out = Nat.min (Z.to_nat (top_n cfg)) (length rows) /\
  (0 < length out)%nat /\
  NoDup (map Ticker out) /\
  snd tr = match st_df out with
           | Some e => Some e
           | None => st_dl out
           end /\
  (In (DownloadButton out) (fst tr) <-> st_df out = None) /\
  (In Footer (fst tr) <-> st_df out = None /\ st_dl out = None) /\
  forall out', In (DownloadButton out') (fst tr) \/
               In (Dataframe out') (fst tr) ->
               out' = out.
Proof.
  intros Hv Hin rows tr.
  assert (Ht : (10 <= top_n cfg)%Z) by (unfold valid_config in Hv; lia).
  destruct (CutFacts.table_rank _ _ _ _ _ _ _ _ Hin) as (Ho & Hr & Hq & ->).
  fold rows in Ho, Hr.
  assert (Hne : parse_codes isdigit_cp text <> []).
  { intros E. apply Hr. unfold rows. now rewrite E. }
  assert (E : tr = (StInfo (length (parse_codes isdigit_cp text))
                      :: loop_events cfg (length (parse_codes isdigit_cp text))
                           1 (parse_codes isdigit_cp text)
                      ++ fst (show_table st_df st_dl cfg rows),
                    snd (show_table st_df st_dl cfg rows))).
  { unfold tr.
    rewrite (MainFacts.main_quiet isdigit_cp download st_df st_dl cfg text
               Hne Hq).
    fold rows. unfold after_loop. now destruct rows. }
  assert (Hl : length out = Nat.min (Z.to_nat (top_n cfg)) (length rows)).
  { rewrite Ho. apply TraceFacts.rank_length. lia. }
  split; [exact Ho|]. split; [exact Hl|].
  split.
  { rewrite Hl. destruct rows; [congruence|]. simpl length. lia. }
  split.
  { rewrite Ho. apply TraceFacts.rank_NoDup, TraceFacts.passing_rows_NoDup,
      TraceFacts.parse_codes_NoDup. }
  assert (K : forall ev, In ev (fst tr) ->
              ev = StInfo (length (parse_codes isdigit_cp text)) \/
              (exists c, ev = Fetch c (lookback_days cfg)) \/
              (exists j, ev = Progress j (length (parse_codes isdigit_cp text)))
              \/ In ev (fst (show_table st_df st_dl cfg rows))).
  { intros ev. rewrite E. cbn [fst]. apply TraceFacts.In_run. }
  assert (B : forall ev, In ev (fst (show_table st_df st_dl cfg rows)) ->
              In ev (fst tr)).
  { intros ev H. rewrite E. cbn [fst]. right. apply in_or_app. now right. }
  rewrite E in *. cbn [fst snd] in *. clear E.
  unfold show_table in *. rewrite <- Ho in *.
  destruct (st_df out) as [e1|]; [|destruct (st_dl out) as [e2|]];
    cbn [fst snd] in *.
  all: split; [reflexivity|].
  all: split;
    [split;
     [intros H; apply K in H as [H|[[c H]|[[j H]|H]]]; try discriminate H;
      simpl in H; intuition discriminate
     |intros H; try discriminate H; apply B; simpl; tauto]|].
  all: split;
    [split;
     [intros H; apply K in H as [H|[[c H]|[[j H]|H]]]; try discriminate H;
      simpl in H; intuition discriminate
     |intros [H1 H2]; try discriminate H1; try discriminate H2;
      apply B; simpl; tauto]|].
  all: intros out' [H|H];
    apply K in H as [H|[[c H]|[[j H]|H]]]; try discriminate H;
    simpl in H; intuition congruence.
Qed.

Lemma X4_witness :
  [Sample.row_2]
  = rank (top_n Sample.cfg)
      (passing_rows (Sample.download_of Sample.response) Sample.cfg
         (parse_codes ascii_digit Sample.text)).
Proof.
  assert (Hin : In (Dataframe [Sample.row_2])
                  (fst (main ascii_digit (Sample.download_of Sample.response)
                          Sample.st_widget Sample.st_widget
                          Sample.cfg Sample.text true)))
    by (vm_compute; auto).
  exact (proj1 (X4_table ascii_digit _ Sample.st_widget Sample.st_widget
                  Sample.cfg Sample.text true _ sample_valid Hin)).
Defined.

(** X5. A run fetches nothing but the parsed codes, each at most once, in
    the order of the parsed list and for the look-back of the sidebar: the
    fetches of a trace are a front part of that list, and the whole list
    when the button was pressed and no exception ended the run. *)
Theorem X5_fetch_order isdigit_cp download st_df st_dl cfg text run :
  let tr := main isdigit_cp download st_df st_dl cfg text run in
  let planned := map (fun t => (t, lookback_days cfg))
                     (parse_codes isdigit_cp text) in
  (exists k, fetches (fst tr) = firstn k planned) /\
  NoDup (map fst (fetches (fst tr))) /\
  (run = true -> snd tr = None -> fetches (fst tr) = planned) /\
  (run = false -> fetches (fst tr) = []).
Proof.
  intros tr planned.
  assert (Hp : NoDup (map fst planned)).
  { unfold planned. rewrite map_map. cbn [fst]. rewrite map_id.
    apply TraceFacts.parse_codes_NoDup. }
  assert (K : (exists k, fetches (fst tr) = firstn k planned) /\
              (run = true -> snd tr = None -> fetches (fst tr) = planned) /\
              (run = false -> fetches (fst tr) = [])).
  { unfold tr. destruct run.
    - destruct (MainFacts.main_cases isdigit_cp download st_df st_dl cfg
                  text _ eq_refl)
        as [[E0 E]|[(Hne & Hq & E)|(todo1 & t & todo2 & e & Ec & _ & _ & E)]];
        rewrite E; cbn [fst snd].
      + unfold planned. rewrite E0. split; [exists O; reflexivity|].
        split; [reflexivity|discriminate].
      + rewrite TraceFacts.fetches_run by apply TraceFacts.fetches_after_loop.
        split; [exists (length planned); now rewrite firstn_all|].
        split; [reflexivity|discriminate].
      + change (StInfo (length (parse_codes isdigit_cp text))
                  :: loop_events cfg (length (parse_codes isdigit_cp text))
                       1 todo1
                  ++ last_events download cfg
                       (length (parse_codes isdigit_cp text))
                       (1 + length todo1) t)
          with ([StInfo (length (parse_codes isdigit_cp text))]
                  ++ loop_events cfg (length (parse_codes isdigit_cp text))
                       1 todo1
                  ++ last_events download cfg
                       (length (parse_codes isdigit_cp text))
                       (1 + length todo1) t).
        rewrite !LoopFacts.fetches_app, LoopFacts.fetches_loop_events,
          TraceFacts.fetches_last_events.
        change (fetches [StInfo (length (parse_codes isdigit_cp text))])
          with (@nil (str * Z)). cbn [app].
        change [(t, lookback_days cfg)]
          with (map (fun c => (c, lookback_days cfg)) [t]).
        rewrite <- map_app.
        split; [|split; discriminate].
        assert (F : forall (a b : list (str * Z)), firstn (length a) (a ++ b) = a).
        { intros a b. rewrite firstn_app, Nat.sub_diag, firstn_all, firstn_O.
          apply app_nil_r. }
        exists (length (map (fun c => (c, lookback_days cfg)) (todo1 ++ [t]))).
        unfold planned. rewrite Ec.
        change (t :: todo2) with ([t] ++ todo2).
        rewrite app_assoc, (map_app _ (todo1 ++ [t])). now rewrite F.
    - cbn. split; [exists O; reflexivity|]. split; [discriminate|reflexivity]. }
  destruct K as ([k Hk] & K2 & K3).
  split; [now exists k|]. split; [|split; assumption].
  rewrite Hk, <- firstn_map. now apply TraceFacts.NoDup_firstn.
Qed.

(** X6. With settings the sidebar allows and provider tables that carry
    no data column labelled [Date], a run ends in an exception in three
    ways only.  An [int()] conversion overflows: the run ends at a code
    whose fetched series has an infinite last volume, recent average or
    base average.  Or [reset_index] refuses the table of a code, the
    label of whose index is already the label of one of its columns.  Or
    no ticker raises, some row passes, and one of the two widgets refuses
    the ranked table: the exception is that of [st.dataframe], or that of
    [st.download_button] once [st.dataframe] has accepted the table. *)
Theorem X6_run_exception isdigit_cp download st_df st_dl cfg text run e :
  valid_config cfg ->
  dated_by_index download cfg ->
  snd (main isdigit_cp download st_df st_dl cfg text run) = Some e ->
  let codes := parse_codes isdigit_cp text in
  let out := rank (top_n cfg) (passing_rows download cfg codes) in
  (e = OverflowError /\
   exists t df vol,
     In t codes /\
     fetch_ohlcv download t (lookback_days cfg) = Ret df /\
     getitem df label_Volume = Ret (NumCol vol) /\
     (infinite (last_of vol) \/ infinite (recent_avg cfg vol) \/
      infinite (base_avg cfg vol))) \/
  (e = ValueError /\
   exists t p,
     In t codes /\ download t (lookback_days cfg) = Some p /\
     provider_empty p = false /\ ~ resettable p) \/
  (quiet download cfg codes /\ passing_rows download cfg codes <> [] /\
   In (Dataframe out)
      (fst (main isdigit_cp download st_df st_dl cfg text run)) /\
   (st_df out = Some e \/ (st_df out = None /\ st_dl out = Some e))).
Proof.
  intros Hv Hp He codes out.
  destruct run; [|discriminate He].
  destruct (MainFacts.main_cases isdigit_cp download st_df st_dl cfg text
              _ eq_refl)
    as [[_ E]|[(_ & Hq & E)|(todo1 & t & todo2 & e' & Ec & _ & Ho & E)]];
    rewrite E in He |- *; cbn [fst snd] in He |- *; try discriminate He.
  - right. right. fold codes in Hq, He |- *.
    split; [exact Hq|].
    unfold after_loop, show_table in He |- *.
    destruct (passing_rows download cfg codes) as [|r0 rows] eqn:Er;
      [discriminate He|].
    fold out in He |- *. split; [discriminate|].
    assert (K : forall tl, In (Dataframe out)
                  (StInfo (length codes) :: loop_events cfg (length codes) 1
                     codes ++ Dataframe out :: tl)).
    { intros tl. right. apply in_or_app. right. now left. }
    destruct (st_df out) as [e1|]; [|destruct (st_dl out) as [e2|]];
      cbn [fst snd] in He |- *; try discriminate He; injection He as ->;
      (split; [apply K|]); auto.
  - injection He as ->.
    assert (Hin : In t codes).
    { unfold codes. rewrite Ec. apply in_or_app. right. now left. }
    destruct (OverflowFacts.outcome_Raise _ _ _ _ Hv (Hp t) Ho)
      as [[-> (df & Hf & Hr)]|[-> Hf]].
    + left. split; [reflexivity|].
      destruct (OverflowFacts.evaluate_Overflow _ _ _ Hr)
        as (vol & tv & Hg & Hi & Hc).
      assert (Hs : evaluate cfg t df <> Continue ShortHistory) by congruence.
      pose proof (long_enough _ _ _ Hs) as Hl.
      pose proof (valid_min_bars _ Hv) as Hm.
      destruct (FrameFacts.fetched_floats _ _ _ _ _ _ Hf Hg) as [Ln _].
      destruct (PassFacts.iloc_last_prev vol) as (Hlast & _); [lia|].
      rewrite Hlast in Hi. injection Hi as <-.
      exists t, df, vol.
      split; [exact Hin|]. split; [exact Hf|]. split; [exact Hg|].
      unfold infinite. rewrite <- !OverflowFacts.to_int_Overflow. exact Hc.
    + right. left. split; [reflexivity|].
      destruct (FrameFacts.fetch_Raise _ _ _ _ Hf) as (_ & p & Hd & Hn & Hc).
      exists t, p. split; [exact Hin|]. split; [exact Hd|].
      split; [exact Hn|].
      intros Hr. apply FrameFacts.resettable_spec in Hr. congruence.
Qed.

Lemma X6_witness :
  exists t df vol,
    In t (parse_codes ascii_digit Sample.text) /\
    fetch_ohlcv (Sample.download_of overflow_response) t
      (lookback_days Sample.cfg) = Ret df /\
    getitem df label_Volume = Ret (NumCol vol) /\
    (infinite (last_of vol) \/ infinite (recent_avg Sample.cfg vol) \/
     infinite (base_avg Sample.cfg vol)).
Proof.
  assert (Hp : dated_by_index (Sample.download_of overflow_response) Sample.cfg).
  { intros t p [= <-]. simpl. intros [H|[H|[H|[H|[]]]]]; discriminate H. }
  assert (He : snd (main ascii_digit (Sample.download_of overflow_response)
                      Sample.st_widget Sample.st_widget
                      Sample.cfg Sample.text true) = Some OverflowError)
    by (vm_compute; reflexivity).
  destruct (X6_run_exception ascii_digit _ Sample.st_widget Sample.st_widget
              Sample.cfg Sample.text true _ sample_valid Hp He)
    as [[_ H]|[[H _]|(_ & H & _)]].
  - exact H.
  - discriminate H.
  - exfalso. apply H. vm_compute. reflexivity.
Defined.

(** X7. [safe_pct_change] never raises, whatever two floats it is given:
    the test on the previous close keeps every zero away from the
    division.  Its result is the percentage (today - previous) / previous
    * 100 when the previous close is positive, and NaN when the previous
    close is zero, negative or NaN; so a result that is a number tells
    that the previous close was positive. *)
Theorem X7_safe_pct_change tc pc :
  exists x, safe_pct_change tc pc = Ret x /\
    ((0 <? pc)%float = true -> x = ((tc - pc) / pc * 100)%float) /\
    ((0 <? pc)%float = false -> is_nan x = true) /\
    (is_nan x = false -> (0 <? pc)%float = true).
Proof.
  rewrite EvalFacts.safe_pct_change_eq.
  eexists. split; [reflexivity|].
  assert (K : (0 <? pc)%float = false ->
              is_nan (if (pc <=? 0)%float then nan
                      else ((tc - pc) / pc * 100)%float) = true).
  { intros H. destruct (pc <=? 0)%float eqn:E; [reflexivity|].
    apply NanFacts.pct_nan. destruct (is_nan pc) eqn:N; [reflexivity|].
    rewrite (FloatFacts.positive _ N E) in H. discriminate H. }
  split; [|split; [exact K|]].
  - intros H. now rewrite (FloatFacts.ltb_true_leb_false _ _ H).
  - intros H. destruct (0 <? pc)%float; [reflexivity|].
    rewrite K in H by reflexivity. discriminate H.
Qed.

(** X8. Every row a run shows belongs to one of the parsed codes and meets
    the thresholds of the sidebar in its own figures: the day change is at
    most the maximum, the spike ratio at least the minimum spike, the
    recent/base ratio at least its minimum; with settings the sidebar
    allows, both ratios are at least 1. *)
Theorem X8_shown_thresholds isdigit_cp download st_df st_dl cfg text run r :
  valid_config cfg ->
  In r (shown (fst (main isdigit_cp download st_df st_dl cfg text run))) ->
  In (Ticker r) (parse_codes isdigit_cp text) /\
  (day_change_pct r <=? PyFloat.of_int (max_day_change cfg))%float = true /\
  (min_spike cfg <=? today_ratio r)%float = true /\
  (min_recent_ratio cfg <=? recent_ratio r)%float = true /\
  (1 <=? today_ratio r)%float = true /\
  (1 <=? recent_ratio r)%float = true.
Proof.
  intros Hv H.
  destruct (ShownFacts.shown_outcome _ _ _ _ _ _ _ _ H) as (Hin & df & Hf & He).
  destruct (EvalFacts.evaluate_accepted _ _ _ _ He)
    as (vol & cl & tc & pc & tv & pv & A).
  destruct (EvalFacts.evaluate_keys_defined _ _ _ _ He) as [K1 K2].
  destruct (PassFacts.valid_thresholds_defined _ Hv) as (D1 & D2 & D3).
  assert (T1 : (min_spike cfg <=? today_ratio r)%float = true).
  { apply FloatFacts.ltb_false_leb; auto.
    rewrite (acc_row_today_ratio _ _ _ _ _ _ _ _ _ _ A).
    apply (acc_spike_ratio _ _ _ _ _ _ _ _ _ _ A). }
  assert (T2 : (min_recent_ratio cfg <=? recent_ratio r)%float = true).
  { apply FloatFacts.ltb_false_leb; auto.
    rewrite (acc_row_ratio _ _ _ _ _ _ _ _ _ _ A).
    apply (acc_recent_ratio _ _ _ _ _ _ _ _ _ _ A). }
  destruct Hv as (_ & _ & _ & V1 & _ & _ & V2 & _).
  split; [exact Hin|]. split; [|split; [exact T1|split; [exact T2|split]]].
  - rewrite (acc_row_pct _ _ _ _ _ _ _ _ _ _ A).
    apply FloatFacts.ltb_false_leb; auto.
    + apply (acc_pct_defined _ _ _ _ _ _ _ _ _ _ A).
    + apply (acc_pct_max _ _ _ _ _ _ _ _ _ _ A).
  - exact (FloatFacts.leb_trans _ _ _ V2 T1).
  - exact (FloatFacts.leb_trans _ _ _ V1 T2).
Qed.

Lemma X8_witness :
  (1 <=? today_ratio Sample.row_2)%float = true.
Proof.
  assert (H : In Sample.row_2
                (shown (fst (main ascii_digit
                               (Sample.download_of Sample.response)
                               Sample.st_widget Sample.st_widget
                               Sample.cfg Sample.text true))))
    by (vm_compute; auto).
  exact (proj1 (proj2 (proj2 (proj2 (proj2
           (X8_shown_thresholds ascii_digit _ Sample.st_widget
              Sample.st_widget Sample.cfg Sample.text true _
              sample_valid H)))))).
Defined.

(** X9. With provider tables dated by their index, a row a run shows
    describes the last bar of the series fetched for its ticker: its close
    is the last close, its volume the integer part of the last volume, and
    its date the last date of the series, which is a date and never
    missing. *)
Theorem X9_row_latest_bar isdigit_cp download st_df st_dl cfg text run r :
  valid_config cfg ->
  dated_by_index download cfg ->
  In r (shown (fst (main isdigit_cp download st_df st_dl cfg text run))) ->
  exists df vol cl ds d,
    fetch_ohlcv download (Ticker r) (lookback_days cfg) = Ret df /\
    getitem df label_Volume = Ret (NumCol vol) /\
    getitem df label_Close = Ret (NumCol cl) /\
    getitem df label_Date = Ret (DateCol ds) /\
    close r = last_of cl /\
    PyFloat.to_int (last_of vol) = Ret (today_volume r) /\
    last_date r = Some d /\ last ds None = Some d.
Proof.
  intros Hv Hp H.
  destruct (ShownFacts.shown_outcome _ _ _ _ _ _ _ _ H) as (_ & df & Hf & He).
  destruct (EvalFacts.evaluate_accepted _ _ _ _ He)
    as (vol & cl & tc & pc & tv & pv & A).
  destruct (PassFacts.evaluate_row_labels _ _ _ _ He) as (_ & _ & c & Hc & Hi).
  assert (Hs : evaluate cfg (Ticker r) df <> Continue ShortHistory) by congruence.
  pose proof (long_enough _ _ _ Hs) as Hl.
  pose proof (valid_min_bars _ Hv) as Hm.
  destruct (PassFacts.long_frame_not_empty _ _ Hv Hl) as [Hne _].
  assert (Hd : exists p, download (Ticker r) (lookback_days cfg) = Some p).
  { destruct (FrameFacts.fetch_inv _ _ _ _ Hf) as [->|(p & _ & Hd & _)];
      [discriminate Hne|eauto]. }
  destruct Hd as [p Hd].
  destruct (PassFacts.fetched_dates _ _ _ _ _ Hd (Hp _ _ Hd) Hf Hne) as [ds Hds].
  rewrite Hds in Hc. injection Hc as <-.
  pose proof (acc_volume _ _ _ _ _ _ _ _ _ _ A) as Gv.
  pose proof (acc_close _ _ _ _ _ _ _ _ _ _ A) as Gc.
  destruct (FrameFacts.fetched_floats _ _ _ _ _ _ Hf Gv) as [Lv _].
  destruct (FrameFacts.fetched_floats _ _ _ _ _ _ Hf Gc) as [Lc _].
  destruct (FrameFacts.fetched_column _ _ _ _ _ _ Hf Hds) as [Ld Nd].
  destruct (PassFacts.iloc_last_prev vol) as (Vl & _); [lia|].
  destruct (PassFacts.iloc_last_prev cl) as (Cl & _); [lia|].
  pose proof (acc_tc _ _ _ _ _ _ _ _ _ _ A) as E1. rewrite Cl in E1.
  injection E1 as <-.
  pose proof (acc_tv _ _ _ _ _ _ _ _ _ _ A) as E2. rewrite Vl in E2.
  injection E2 as <-.
  assert (Hlast : iloc ds (-1) = Ret (last_date r)).
  { cbn [col_cells] in Hi. rewrite SeriesFacts.iloc_map in Hi.
    destruct (iloc ds (-1)) as [d0| |]; cbn [bind] in Hi; try discriminate Hi.
    now injection Hi as ->. }
  assert (Hnth : last_date r = last ds None).
  { simpl in Ld. change (-1)%Z with (Z.opp 1) in Hlast.
    rewrite (SeriesFacts.iloc_from_end ds 1 None) in Hlast by lia.
    injection Hlast as <-.
    destruct ds as [|d0 ds] using rev_ind; [simpl in Ld; lia|].
    rewrite last_last, length_app. cbn [length].
    assert (Hx : forall k, k = 1%nat ->
                 nth (length ds + 1 - k) (ds ++ [d0]) None = d0).
    { intros k ->. replace (length ds + 1 - 1)%nat with (length ds) by lia.
      apply nth_middle. }
    apply Hx. reflexivity. }
  assert (Hsome : cell_isna (CDate (last_date r)) = false).
  { apply Nd. cbn [col_cells]. apply in_map.
    apply (SeriesFacts.iloc_In _ _ _ Hlast). }
  destruct (last_date r) as [d|] eqn:Ed; [|discriminate Hsome].
  exists df, vol, cl, ds, d.
  repeat (split; [first [assumption | reflexivity]|]).
  split; [apply (acc_row_close _ _ _ _ _ _ _ _ _ _ A)|].
  split; [apply (acc_row_today _ _ _ _ _ _ _ _ _ _ A)|].
  split; [reflexivity|now symmetry].
Qed.

Lemma X9_witness :
  exists df vol cl ds d,
    fetch_ohlcv (Sample.download_of Sample.response) (Ticker Sample.row_2)
      (lookback_days Sample.cfg) = Ret df /\
    getitem df label_Volume = Ret (NumCol vol) /\
    getitem df label_Close = Ret (NumCol cl) /\
    getitem df label_Date = Ret (DateCol ds) /\
    close Sample.row_2 = last_of cl /\
    PyFloat.to_int (last_of vol) = Ret (today_volume Sample.row_2) /\
    last_date Sample.row_2 = Some d /\ last ds None = Some d.
Proof.
  assert (Hp : dated_by_index (Sample.download_of Sample.response) Sample.cfg).
  { intros t p [= <-]. simpl. intros [H|[H|[H|[H|[]]]]]; discriminate H. }
  assert (H : In Sample.row_2
                (shown (fst (main ascii_digit
                               (Sample.download_of Sample.response)
                               Sample.st_widget Sample.st_widget
                               Sample.cfg Sample.text true))))
    by (vm_compute; auto).
  exact (X9_row_latest_bar ascii_digit _ Sample.st_widget Sample.st_widget
           Sample.cfg Sample.text true _ sample_valid Hp H).
Defined.

(** X10. The code of a row is its ticker with [.T] removed wherever it
    occurs, not only at the end: a ticker without a full stop is its own
    code, and in a ticker [a.Tb] with no full stop in [a] the [.T] goes
    and the rest [b] is treated the same way.  For a four-digit entry the
    code is the entry as typed, provided the full stop is no digit. *)
Theorem X10_code_column cfg t df r :
  evaluate cfg t df = Ret r ->
  (dotless t = true -> Code r = t) /\
  (forall a b, t = a ++ suffix_T ++ b -> dotless a = true ->
     Code r = a ++ PyStr.replace suffix_T [] b) /\
  (forall isdigit_cp entry,
     isdigit_cp 46%N = false ->
     forallb isdigit_cp entry = true -> length entry = 4%nat ->
     t = qualify isdigit_cp entry -> Code r = entry).
Proof.
  intros He.
  destruct (PassFacts.evaluate_row_labels _ _ _ _ He) as (_ & -> & _).
  assert (K : forall a b, dotless a = true ->
              PyStr.replace suffix_T [] (a ++ suffix_T ++ b)
              = a ++ PyStr.replace suffix_T [] b).
  { intros a b Ha. rewrite (CodeFacts.replace_dotless_app _ _ Ha).
    now rewrite CodeFacts.replace_suffix. }
  split; [|split].
  - intros H. rewrite <- (app_nil_r t) at 1.
    rewrite (CodeFacts.replace_dotless_app _ _ H). apply app_nil_r.
  - intros a b -> Ha. now apply K.
  - intros isdigit_cp entry Hdot Hd Hl ->. unfold qualify.
    rewrite Hd, Hl. cbn [Nat.eqb andb].
    rewrite <- (app_nil_r suffix_T), K; [apply app_nil_r|].
    unfold dotless. rewrite forallb_forall in Hd |- *.
    intros c Hc. apply negb_true_iff.
    destruct (N.eqb_spec c 46) as [->|]; [|reflexivity].
    rewrite (Hd _ Hc) in Hdot. discriminate Hdot.
Qed.

Lemma X10_witness :
  Code Sample.row_2 = PyStr.of_string "7203".
Proof.
  assert (He : evaluate Sample.cfg Sample.ticker Sample.frame = Ret Sample.row_2)
    by (vm_compute; reflexivity).
  exact (proj2 (proj2 (X10_code_column _ _ _ _ He)) ascii_digit
           (PyStr.of_string "7203") eq_refl eq_refl eq_refl eq_refl).
Defined.

(** X11. The parser hands out clean symbols only: none is empty, none
    holds a comma or a line boundary, none starts or ends with white
    space, and none occurs twice.  Parsing is stable: writing the symbols
    one per line and parsing that text gives the same list. *)
Theorem X11_parse_codes_stable isdigit_cp text :
  Forall clean (parse_codes isdigit_cp text) /\
  NoDup (parse_codes isdigit_cp text) /\
  parse_codes isdigit_cp (join_lines (parse_codes isdigit_cp text))
  = parse_codes isdigit_cp text.
Proof.
  pose proof (CleanFacts.parse_codes_clean isdigit_cp text) as Hc.
  split; [exact Hc|]. split; [apply TraceFacts.parse_codes_NoDup|].
  rewrite (ParserFacts.parse_codes_entries isdigit_cp (join_lines _)).
  rewrite (CleanFacts.entries_join_lines _ Hc).
  assert (Hq : map (qualify isdigit_cp) (parse_codes isdigit_cp text)
               = parse_codes isdigit_cp text).
  { rewrite <- (map_id (parse_codes isdigit_cp text)) at 2.
    apply map_ext_in. intros c Hin.
    apply CleanFacts.parse_codes_In in Hin as (e & _ & ->).
    apply CleanFacts.qualify_idem. }
  rewrite Hq. apply CleanFacts.sorted_set_sorted_id.
  apply ParserFacts.sorted_set_sorted.
Qed.

(** X12. The parser returns the empty list exactly for a blank text, one
    made of white space and commas only; and a run reports the input
    error and stops exactly for such a text. *)
Theorem X12_blank_input isdigit_cp download st_df st_dl cfg text :
  (parse_codes isdigit_cp text = [] <-> forallb blank text = true) /\
  (main isdigit_cp download st_df st_dl cfg text true
   = ([StError; StStop], None) <->
   forallb blank text = true).
Proof.
  split; [apply BlankFacts.parse_codes_nil|].
  rewrite <- (BlankFacts.parse_codes_nil isdigit_cp). split.
  - destruct (MainFacts.main_cases isdigit_cp download st_df st_dl cfg text
                _ eq_refl)
      as [[E0 _]|[(_ & _ & E)|(todo1 & t & todo2 & e & _ & _ & _ & E)]];
      [now intros _|rewrite E; discriminate|rewrite E; discriminate].
  - intros E. unfold main. now rewrite E.
Qed.

(** X13. When the look-back is shorter than the minimum of bars the
    evaluator asks for, and the provider returns at most one bar for each
    day of the look-back (in tables dated by their index), no ticker gets
    past the first guard: whatever the codes and the prices, no ticker
    has a row and no table is shown.  A ticker either stops at the first
    guard or ends the run inside [reset_index]; where [reset_index]
    accepts every table of the provider, every ticker stops at the first
    guard and the run ends with the warning. *)
Theorem X13_short_lookback isdigit_cp download st_df st_dl cfg text :
  (lookback_days cfg < min_bars cfg)%Z ->
  dated_by_index download cfg -> daily download cfg ->
  parse_codes isdigit_cp text <> [] ->
  (forall t, outcome download cfg t = Continue ShortHistory \/
             (outcome download cfg t = Raise ValueError /\
              exists p, download t (lookback_days cfg) = Some p /\
                        ~ resettable p)) /\
  (forall t r, outcome download cfg t <> Ret r) /\
  (forall run,
     shown (fst (main isdigit_cp download st_df st_dl cfg text run)) = []) /\
  (resets download cfg ->
   (forall t, outcome download cfg t = Continue ShortHistory) /\
   main isdigit_cp download st_df st_dl cfg text true
   = (StInfo (length (parse_codes isdigit_cp text))
        :: loop_events cfg (length (parse_codes isdigit_cp text)) 1
             (parse_codes isdigit_cp text) ++ [StWarning; StStop], None)).
Proof.
  intros Hlt Hp Hday Hne.
  pose proof (fun t => ShortFacts.outcome_short download cfg t Hlt Hp Hday)
    as Hc.
  assert (Hn : forall t r, outcome download cfg t <> Ret r).
  { intros t r. destruct (Hc t) as [E|[E _]]; rewrite E; discriminate. }
  assert (Hr : forall codes, passing_rows download cfg codes = []).
  { intros codes.
    destruct (passing_rows download cfg codes) as [|r rows] eqn:E;
      [reflexivity|].
    assert (Hin : In r (passing_rows download cfg codes))
      by (rewrite E; now left).
    apply LoopFacts.passing_rows_In in Hin as (t & _ & Ht).
    now apply Hn in Ht. }
  split; [exact Hc|]. split; [exact Hn|]. split.
  - intros run.
    destruct (shown (fst (main isdigit_cp download st_df st_dl cfg text run)))
      as [|r l] eqn:E; [reflexivity|].
    assert (Hin : In r (shown (fst (main isdigit_cp download st_df st_dl cfg
                                      text run))))
      by (rewrite E; now left).
    apply ShownFacts.shown_passing in Hin. now rewrite Hr in Hin.
  - intros Hs.
    assert (Ho : forall t, outcome download cfg t = Continue ShortHistory).
    { intros t. destruct (Hc t) as [E|(_ & p & Hd & Hx)]; [exact E|].
      exfalso. exact (Hx (Hs _ _ Hd)). }
    split; [exact Ho|].
    assert (Hq : quiet download cfg (parse_codes isdigit_cp text))
      by (intros t e _; rewrite Ho; discriminate).
    rewrite (MainFacts.main_quiet isdigit_cp download st_df st_dl cfg text
               Hne Hq).
    unfold after_loop. now rewrite Hr.
Qed.

Lemma X13_witness :
  main ascii_digit (Sample.download_of Sample.response)
       Sample.st_widget Sample.st_widget short_lookback_cfg Sample.text true
  = ([StInfo 1; Fetch Sample.ticker 60; Progress 1 1; StWarning; StStop],
     None).
Proof.
  assert (Hlt : (lookback_days short_lookback_cfg
                 < min_bars short_lookback_cfg)%Z)
    by (vm_compute; reflexivity).
  assert (Hp : dated_by_index (Sample.download_of Sample.response)
                 short_lookback_cfg).
  { intros t p [= <-]. simpl. intros [H|[H|[H|[H|[]]]]]; discriminate H. }
  assert (Hday : daily (Sample.download_of Sample.response) short_lookback_cfg).
  { intros t p [= <-]. vm_compute. discriminate. }
  assert (Hs : resets (Sample.download_of Sample.response) short_lookback_cfg).
  { intros t p [= <-]. unfold resettable. simpl.
    intros [H|[H|[H|[H|[]]]]]; discriminate H. }
  assert (Hne : parse_codes ascii_digit Sample.text <> [])
    by (vm_compute; discriminate).
  exact (proj2 (proj2 (proj2 (proj2
           (X13_short_lookback ascii_digit _ Sample.st_widget Sample.st_widget
              short_lookback_cfg Sample.text Hlt Hp Hday Hne))) Hs)).
Defined.

(** X14. The order of the table is settled by the rows alone: of two rows
    of the table of a run, the higher one has the larger spike ratio, or
    the same spike ratio and the larger recent/base ratio, or the same two
    ratios and the smaller ticker.  Ties between rows with equal ratios go
    to the smaller ticker because the codes are sorted, the loop keeps
    their order and the sort is stable. *)
Theorem X14_table_order isdigit_cp download st_df st_dl cfg text run out
    i j a b :
  In (Dataframe out)
     (fst (main isdigit_cp download st_df st_dl cfg text run)) ->
  nth_error out i = Some a -> nth_error out j = Some b -> (i < j)%nat ->
  stands_above a b.
Proof.
  intros Hin Hi Hj Hij.
  destruct (CutFacts.table_rank _ _ _ _ _ _ _ _ Hin) as (Ho & _).
  assert (Hs : StronglySorted above out).
  { rewrite Ho. apply TieFacts.rank_above, TieFacts.passing_rows_sorted.
    apply ParserFacts.sorted_set_sorted. }
  assert (Hk : forall r, In r out -> keys_defined r).
  { intros r Hr. rewrite Ho in Hr. apply RunFacts.rank_In in Hr.
    apply LoopFacts.passing_rows_In in Hr as (t & _ & Ht).
    apply LoopFacts.outcome_Ret in Ht as (df & _ & He).
    exact (EvalFacts.evaluate_keys_defined _ _ _ _ He). }
  apply TieFacts.above_stands.
  - apply Hk. eapply nth_error_In, Hi.
  - apply Hk. eapply nth_error_In, Hj.
  - exact (SortFacts.StronglySorted_nth _ _ Hs _ _ _ _ Hij Hi Hj).
Qed.

Lemma X14_witness :
  stands_above (Sample.row_of (PyStr.of_string "6758.T") Sample.frame)
               Sample.row_2.
Proof.
  assert (Hin : In (Dataframe [Sample.row_of (PyStr.of_string "6758.T")
                                 Sample.frame; Sample.row_2])
                  (fst (main ascii_digit (Sample.download_of Sample.response)
                          Sample.st_widget Sample.st_widget
                          Sample.cfg text_two true)))
    by (vm_compute; auto 10).
  exact (X14_table_order ascii_digit _ Sample.st_widget Sample.st_widget
           Sample.cfg text_two true _ 0 1 _ _ Hin eq_refl eq_refl (le_n 1)).
Defined.

(** X15. When no ticker ends in an exception and no more rows pass than
    the table may hold, the table handed to [st.dataframe] is complete: a
    ticker has a row in it exactly when it is one of the parsed codes and
    the evaluator returns a row for the series fetched for it, and that
    row is the one in the table. *)
Theorem X15_table_complete isdigit_cp download st_df st_dl cfg text t :
  quiet download cfg (parse_codes isdigit_cp text) ->
  (Z.of_nat (length (passing_rows download cfg (parse_codes isdigit_cp text)))
   <= top_n cfg)%Z ->
  (included isdigit_cp download st_df st_dl cfg text t <->
   In t (parse_codes isdigit_cp text) /\
   exists r, outcome download cfg t = Ret r) /\
  (forall r, In t (parse_codes isdigit_cp text) ->
     outcome download cfg t = Ret r ->
     In r (shown (fst (main isdigit_cp download st_df st_dl cfg text true)))).
Proof.
  intros Hq Hn.
  assert (Hall : forall r, In t (parse_codes isdigit_cp text) ->
            outcome download cfg t = Ret r ->
            In r (shown (fst (main isdigit_cp download st_df st_dl cfg
                                text true)))).
  { intros r Ht Ho. apply FullFacts.passing_shown; [exact Hq|exact Hn|].
    apply LoopFacts.passing_rows_In. eauto. }
  split; [|exact Hall]. split.
  - intros (r & Hr & <-).
    destruct (ShownFacts.shown_outcome _ _ _ _ _ _ _ _ Hr) as (Hin & df & Hf & He).
    split; [exact Hin|]. exists r. unfold outcome. now rewrite Hf.
  - intros (Ht & r & Ho). exists r. split; [now apply Hall|].
    exact (LoopFacts.outcome_ticker _ _ _ _ Ho).
Qed.

Lemma X15_witness :
  included ascii_digit (Sample.download_of Sample.response)
    Sample.st_widget Sample.st_widget Sample.cfg Sample.text Sample.ticker.
Proof.
  assert (Hq : quiet (Sample.download_of Sample.response) Sample.cfg
                 (parse_codes ascii_digit Sample.text)).
  { intros t e [<-|[]]. vm_compute. discriminate. }
  assert (Hn : (Z.of_nat (length (passing_rows
                   (Sample.download_of Sample.response) Sample.cfg
                   (parse_codes ascii_digit Sample.text)))
                <= top_n Sample.cfg)%Z)
    by (vm_compute; discriminate).
  assert (Ht : In Sample.ticker (parse_codes ascii_digit Sample.text))
    by (vm_compute; auto).
  assert (Ho : exists r, outcome (Sample.download_of Sample.response)
                           Sample.cfg Sample.ticker = Ret r)
    by (eexists; vm_compute; reflexivity).
  exact (proj2 (proj1 (X15_table_complete ascii_digit _ Sample.st_widget
                         Sample.st_widget Sample.cfg Sample.text
                         Sample.ticker Hq Hn)) (conj Ht Ho)).
Defined.

(** X16. The opening prices are required but never read: for a table
    dated by an index called [Date], replacing the values of the Open
    column by any others that are missing on the same days changes
    nothing in what fetching and evaluating the ticker comes to. *)
Theorem X16_open_unread cfg t p o' :
  index_name p = Some label_Date ->
  ~ In label_Date (map fst (data p)) ->
  (forall o, In (label_Open, o) (data p) -> map is_nan o' = map is_nan o) ->
  outcome (fun _ _ => Some (with_open o' p)) cfg t
  = outcome (fun _ _ => Some p) cfg t.
Proof.
  intros Hname Hn Ho. unfold outcome.
  destruct (OpenFacts.fetch_with_open t (lookback_days cfg) p o' Hname Hn)
    as (df & df' & -> & -> & H1 & H2 & H3 & H4 & H5).
  - intros o Hg. apply Ho. apply FrameFacts.getitem_In in Hg.
    unfold data_columns in Hg.
    apply in_map_iff in Hg as ([l xs] & E & Hin). now injection E as -> ->.
  - cbn [bind]. symmetry. now apply OpenFacts.evaluate_ext.
Qed.

Lemma X16_witness :
  outcome (fun _ _ => Some (with_open other_opens Sample.response))
          Sample.cfg Sample.ticker
  = outcome (fun _ _ => Some Sample.response) Sample.cfg Sample.ticker.
Proof.
  assert (Hn : ~ In label_Date (map fst (data Sample.response))).
  { simpl. intros [H|[H|[H|[H|[]]]]]; discriminate H. }
  assert (Ho : forall o, In (label_Open, o) (data Sample.response) ->
                 map is_nan other_opens = map is_nan o).
  { intros o [H|[H|[H|[H|[]]]]]; try discriminate H.
    injection H as <-. vm_compute. reflexivity. }
  exact (X16_open_unread Sample.cfg Sample.ticker Sample.response other_opens
           eq_refl Hn Ho).
Defined.

(** X17. The cut at [top_n] keeps the best: a passing row that is left
    out of the table stands below every row of the table, by spike ratio,
    then by recent/base ratio, then by ticker. *)
Theorem X17_cut_keeps_best isdigit_cp download st_df st_dl cfg text run out
    r r' :
  valid_config cfg ->
  In (Dataframe out)
     (fst (main isdigit_cp download st_df st_dl cfg text run)) ->
  In r out ->
  In r' (passing_rows download cfg (parse_codes isdigit_cp text)) ->
  ~ In r' out ->
  stands_above r r' /\ (Z.to_nat (top_n cfg) <= length out)%nat.
Proof.
  intros Hv Hin Hr Hr' Hout.
  assert (Ht : (10 <= top_n cfg)%Z) by (unfold valid_config in Hv; lia).
  destruct (CutFacts.table_rank _ _ _ _ _ _ _ _ Hin) as (Ho & _).
  set (rows := passing_rows download cfg (parse_codes isdigit_cp text)) in *.
  assert (Hs : StronglySorted above (sort_values rows)).
  { apply TieFacts.sort_values_above, TieFacts.passing_rows_sorted.
    apply ParserFacts.sorted_set_sorted. }
  assert (Hf : out = firstn (Z.to_nat (top_n cfg)) (sort_values rows)).
  { rewrite Ho. unfold rank, Pandas.head.
    destruct (Z.leb_spec 0 (top_n cfg)); [reflexivity|lia]. }
  assert (Hk : In r' (skipn (Z.to_nat (top_n cfg)) (sort_values rows))).
  { assert (K : In r' (sort_values rows)) by now apply RunFacts.sort_values_In.
    rewrite <- (firstn_skipn (Z.to_nat (top_n cfg)) (sort_values rows)) in K.
    apply in_app_or in K as [K|K]; [|exact K].
    rewrite <- Hf in K. contradiction. }
  split.
  - apply TieFacts.above_stands.
    + apply (CutFacts.passing_keys_defined download cfg
               (parse_codes isdigit_cp text)).
      rewrite Ho in Hr. exact (RunFacts.rank_In _ _ _ Hr).
    + exact (CutFacts.passing_keys_defined _ _ _ _ Hr').
    + rewrite Hf in Hr.
      exact (CutFacts.StronglySorted_cut _ _ _ _ _ Hs Hr Hk).
  - rewrite Hf, length_firstn.
    destruct (Nat.le_gt_cases (Z.to_nat (top_n cfg)) (length (sort_values rows)))
      as [L|L]; [lia|].
    rewrite skipn_all2 in Hk by lia. destruct Hk.
Qed.

Lemma X17_witness :
  stands_above (Sample.row_of (PyStr.of_string "1001.T") Sample.frame)
               (Sample.row_of (PyStr.of_string "1011.T") Sample.frame).
Proof.
  set (dl := Sample.download_of Sample.response).
  set (rows := passing_rows dl ten_cfg (parse_codes ascii_digit eleven_text)).
  assert (Hv : valid_config ten_cfg).
  { unfold valid_config. simpl. repeat split; try lia; reflexivity. }
  assert (Hin : In (Dataframe (rank (top_n ten_cfg) rows))
                  (fst (main ascii_digit dl Sample.st_widget Sample.st_widget
                          ten_cfg eleven_text true))).
  { vm_compute. repeat (first [left; reflexivity | right]). }
  assert (Hr : In (Sample.row_of (PyStr.of_string "1001.T") Sample.frame)
                 (rank (top_n ten_cfg) rows))
    by (vm_compute; left; reflexivity).
  assert (Hr' : In (Sample.row_of (PyStr.of_string "1011.T") Sample.frame) rows).
  { vm_compute. repeat (first [left; reflexivity | right]). }
  assert (Hout : ~ In (Sample.row_of (PyStr.of_string "1011.T") Sample.frame)
                   (rank (top_n ten_cfg) rows)).
  { vm_compute. intros H.
    repeat (destruct H as [H|H]; [discriminate H|]). exact H. }
  exact (proj1 (X17_cut_keeps_best ascii_digit dl Sample.st_widget
                  Sample.st_widget ten_cfg eleven_text true
                  _ _ _ Hv Hin Hr Hr' Hout)).
Defined.

(** X18. No row a run shows carries a negative volume figure, whatever
    numbers the provider sends: a ratio can reach its minimum, which is
    at least 1, only over a positive average and with a positive
    numerator, so today's volume, the recent average and the base average
    of a shown row are positive and their integer parts are not
    negative. *)
Theorem X18_positive_figures isdigit_cp download st_df st_dl cfg text run r :
  valid_config cfg ->
  In r (shown (fst (main isdigit_cp download st_df st_dl cfg text run))) ->
  (0 <= today_volume r)%Z /\ (0 <= recent_avg_volume r)%Z /\
  (0 <= base_avg_volume r)%Z /\
  (0 <? today_ratio r)%float = true /\ (0 <? recent_ratio r)%float = true.
Proof.
  intros Hv H.
  destruct (ShownFacts.shown_outcome _ _ _ _ _ _ _ _ H) as (_ & df & Hf & He).
  destruct (EvalFacts.evaluate_accepted _ _ _ _ He)
    as (vol & cl & tc & pc & tv & pv & A).
  destruct (EvalFacts.evaluate_keys_defined _ _ _ _ He) as [K1 K2].
  destruct (PassFacts.valid_thresholds_defined _ Hv) as (D1 & D2 & D3).
  destruct Hv as (_ & _ & _ & V1 & _ & _ & V2 & _).
  assert (P1 : (0 <? 1)%float = true) by reflexivity.
  assert (Hb : (0 <? base_avg cfg vol)%float = true).
  { apply FloatFacts.positive;
      [apply (acc_base_defined _ _ _ _ _ _ _ _ _ _ A)
      |apply (acc_base_pos _ _ _ _ _ _ _ _ _ _ A)]. }
  assert (Hs : (0 <? spike_base cfg vol)%float = true).
  { apply FloatFacts.positive;
      [apply (acc_spike_defined _ _ _ _ _ _ _ _ _ _ A)
      |apply (acc_spike_pos _ _ _ _ _ _ _ _ _ _ A)]. }
  assert (T1 : (0 <? today_ratio r)%float = true).
  { apply (FloatFacts.ltb_leb_trans 0 1 _ P1).
    apply (FloatFacts.leb_trans _ _ _ V2).
    apply FloatFacts.ltb_false_leb; auto.
    rewrite (acc_row_today_ratio _ _ _ _ _ _ _ _ _ _ A).
    apply (acc_spike_ratio _ _ _ _ _ _ _ _ _ _ A). }
  assert (T2 : (0 <? recent_ratio r)%float = true).
  { apply (FloatFacts.ltb_leb_trans 0 1 _ P1).
    apply (FloatFacts.leb_trans _ _ _ V1).
    apply FloatFacts.ltb_false_leb; auto.
    rewrite (acc_row_ratio _ _ _ _ _ _ _ _ _ _ A).
    apply (acc_recent_ratio _ _ _ _ _ _ _ _ _ _ A). }
  assert (Ht : (0 <? tv)%float = true).
  { apply (SignFacts.div_positive _ _ Hs).
    now rewrite <- (acc_row_today_ratio _ _ _ _ _ _ _ _ _ _ A). }
  assert (Hr : (0 <? recent_avg cfg vol)%float = true).
  { apply (SignFacts.div_positive _ _ Hb).
    now rewrite <- (acc_row_ratio _ _ _ _ _ _ _ _ _ _ A). }
  split; [|split; [|split; [|split; assumption]]].
  - exact (SignFacts.to_int_positive _ _ Ht (acc_row_today _ _ _ _ _ _ _ _ _ _ A)).
  - exact (SignFacts.to_int_positive _ _ Hr (acc_row_recent _ _ _ _ _ _ _ _ _ _ A)).
  - exact (SignFacts.to_int_positive _ _ Hb (acc_row_base _ _ _ _ _ _ _ _ _ _ A)).
Qed.

Lemma X18_witness : (0 <= today_volume Sample.row_2)%Z.
Proof.
  assert (H : In Sample.row_2
                (shown (fst (main ascii_digit
                               (Sample.download_of Sample.response)
                               Sample.st_widget Sample.st_widget
                               Sample.cfg Sample.text true))))
    by (vm_compute; auto).
  exact (proj1 (X18_positive_figures ascii_digit _
                  Sample.st_widget Sample.st_widget
                  Sample.cfg Sample.text true _ sample_valid H)).
Defined.

(** X19. What the fetcher returns is the empty frame or a frame of
    exactly the four columns Date, Open, Close and Volume, in this order,
    all of the same length and without a missing value; whatever other
    columns the provider sent are gone.  When the provider's table has no
    data column labelled [Date], the date column holds the dates of the
    index and the three others hold floats. *)
Theorem X19_fetch_shape download t d df :
  fetch_ohlcv download t d = Ret df ->
  df = empty_frame \/
  (columns df = keep_cols /\
   (forall l c, In (l, c) df ->
      col_len c = nrows df /\
      forall v, In v (col_cells c) -> cell_isna v = false) /\
   exists p, download t d = Some p /\
     (~ In label_Date (map fst (data p)) ->
      exists ds o c v,
        df = [(label_Date, DateCol ds); (label_Open, NumCol o);
              (label_Close, NumCol c); (label_Volume, NumCol v)] /\
        forall x, In x ds -> In x (index p))).
Proof.
  intros Hf.
  destruct (FrameFacts.fetch_inv _ _ _ _ Hf) as [->|(p & src & Hd & _ & Hs & E)];
    [now left|right].
  destruct (FrameFacts.select_keep_cols _ _ Hs)
    as (c1 & c2 & c3 & c4 & H1 & H2 & H3 & H4 & Hsrc).
  assert (Hdf : df = [(label_Date, col_take (complete_rows src) c1);
                      (label_Open, col_take (complete_rows src) c2);
                      (label_Close, col_take (complete_rows src) c3);
                      (label_Volume, col_take (complete_rows src) c4)]).
  { rewrite E. unfold dropna. set (k := complete_rows src).
    rewrite Hsrc. reflexivity. }
  split; [rewrite Hdf; reflexivity|]. split.
  - intros l c Hin.
    assert (Hg : getitem df l = Ret c).
    { rewrite Hdf in Hin |- *.
      destruct Hin as [K|[K|[K|[K|[]]]]]; injection K as <- <-; reflexivity. }
    exact (FrameFacts.fetched_column _ _ _ _ _ _ Hf Hg).
  - exists p. split; [exact Hd|]. intros Hn.
    rewrite (normalize_columns_Date p Hn) in H1. injection H1 as <-.
    assert (G : forall l c, l <> label_Date -> getitem df l = Ret c ->
                exists xs, c = NumCol xs).
    { intros l c Hl Hg.
      exact (RaiseFacts.fetched_numeric _ _ _ _ _ _ _ Hd Hn Hf Hl Hg). }
    destruct (G label_Open (col_take (complete_rows src) c2)) as [o Ho];
      [discriminate|rewrite Hdf; reflexivity|].
    destruct (G label_Close (col_take (complete_rows src) c3)) as [c Hc];
      [discriminate|rewrite Hdf; reflexivity|].
    destruct (G label_Volume (col_take (complete_rows src) c4)) as [v Hv];
      [discriminate|rewrite Hdf; reflexivity|].
    eexists _, o, c, v. split.
    + rewrite Hdf, Ho, Hc, Hv. cbn [col_take]. reflexivity.
    + intros x Hx. apply in_map_iff in Hx as (i & <- & Hi).
      apply FrameFacts.complete_rows_spec in Hi as [Hi _].
      rewrite Hsrc in Hi. cbn [nrows col_len] in Hi.
      now apply nth_In.
Qed.

Lemma X19_witness :
  Sample.frame = empty_frame \/
  (columns Sample.frame = keep_cols /\
   (forall l c, In (l, c) Sample.frame ->
      col_len c = nrows Sample.frame /\
      forall v, In v (col_cells c) -> cell_isna v = false) /\
   exists p, Sample.download_of Sample.response Sample.ticker
               (lookback_days Sample.cfg) = Some p /\
     (~ In label_Date (map fst (data p)) ->
      exists ds o c v,
        Sample.frame = [(label_Date, DateCol ds); (label_Open, NumCol o);
                        (label_Close, NumCol c); (label_Volume, NumCol v)] /\
        forall x, In x ds -> In x (index p))).
Proof.
  assert (Hf : fetch_ohlcv (Sample.download_of Sample.response) Sample.ticker
                 (lookback_days Sample.cfg) = Ret Sample.frame)
    by (vm_compute; reflexivity).
  exact (X19_fetch_shape _ _ _ _ Hf).
Defined.

(** X20. Loosening the thresholds never loses a row: with the same
    windows, a lower minimum for either ratio, a lower liquidity floor and
    a higher maximum for the day change, every ticker that had a row has
    the same row, and what a run handed to [st.dataframe] it hands over
    again, as long as no ticker raises and the table can hold every
    passing row. *)
Theorem X20_laxer_settings download lax cfg :
  laxer lax cfg ->
  (forall t r, outcome download cfg t = Ret r ->
               outcome download lax t = Ret r) /\
  (forall codes r, In r (passing_rows download cfg codes) ->
                   In r (passing_rows download lax codes)) /\
  (forall isdigit_cp st_df st_dl text run r,
     quiet download lax (parse_codes isdigit_cp text) ->
     (Z.of_nat (length (passing_rows download lax
                          (parse_codes isdigit_cp text))) <= top_n lax)%Z ->
     In r (shown (fst (main isdigit_cp download st_df st_dl cfg text run))) ->
     In r (shown (fst (main isdigit_cp download st_df st_dl lax text true)))).
Proof.
  intros Hl.
  assert (H1 : forall t r, outcome download cfg t = Ret r ->
                           outcome download lax t = Ret r).
  { intros t r Ho. apply LoopFacts.outcome_Ret in Ho as (df & Hf & He).
    unfold outcome. pose proof Hl as (E & _). rewrite E, Hf. cbn [bind].
    exact (LaxFacts.evaluate_laxer lax cfg t df r Hl He). }
  assert (H2 : forall codes r, In r (passing_rows download cfg codes) ->
                               In r (passing_rows download lax codes)).
  { intros codes r Hr. apply LoopFacts.passing_rows_In in Hr as (t & Ht & Ho).
    apply LoopFacts.passing_rows_In. exists t. split; [exact Ht|]. now apply H1. }
  split; [exact H1|]. split; [exact H2|].
  intros isdigit_cp st_df st_dl text run r Hq Hn Hr.
  apply FullFacts.passing_shown; [exact Hq|exact Hn|].
  apply H2. exact (ShownFacts.shown_passing _ _ _ _ _ _ _ _ Hr).
Qed.

Lemma X20_witness :
  outcome (Sample.download_of Sample.response) lax_cfg Sample.ticker
  = Ret Sample.row_2.
Proof.
  assert (Hl : laxer lax_cfg Sample.cfg).
  { unfold laxer. simpl. repeat split; vm_compute; reflexivity. }
  assert (Ho : outcome (Sample.download_of Sample.response) Sample.cfg
                 Sample.ticker = Ret Sample.row_2)
    by (vm_compute; reflexivity).
  exact (proj1 (X20_laxer_settings (Sample.download_of Sample.response)
                  lax_cfg Sample.cfg Hl) _ _ Ho).
Defined.
